(** * Intelligence Report Generator: a shallow embedding of the core

    The development follows the TypeScript sources:

    - [JS]                 the fragment of the JavaScript runtime the code relies on
                           (strings, dynamically typed values, exceptions, the DOM of
                           an XML document, insertion-ordered maps);
    - [Eff]                computations with state, exceptions and emitted events;
    - [Csv]                [DataSourceManager.parseCSV];
    - [ReportGenerator]    the narrative templates, [calculateOverallThreatLevel],
                           [getUniqueDataSources] and [generateReport];
    - [AnalysisEngine]     [runAnalysis] and its four strategies;
    - [DataSourceManager]  the source registry, its file normaliser and its background
                           population timers, as a state machine;
    - [EventEmitter]       the listener registry the components extend;
    - [IntelligenceReportGenerator]  the public methods of the application, which
                           pass records and findings between the components;
    - [Demo]               a concrete host and concrete inputs for the closed examples.

    Modelling conventions.  A JavaScript string is a [string] whose characters are
    code units below 256.  A value of TypeScript type [any] is a [JS.value].  An
    exception is the [Throw] outcome of a computation; state changes made before the
    exception are kept, as in JavaScript.  [Math.random], the clock, the printing
    of numbers and dates, [JSON.parse] and [DOMParser] belong to the browser: they
    are fields of the class [Runtime], and every theorem holds for all of them; so
    do the three report encoders, which rest on jsPDF, regular expressions and
    [URL.createObjectURL] (class [ReportGenerator.Encoders]).  Listeners registered
    on an [EventEmitter] are observers: [emit] is recorded in a trace of emitted
    events (the emitter isolates listener failures, and no listener of the
    application mutates a component).  An [async] method is run to completion:
    its [await] points are not interleaved with other calls; a [setTimeout]
    callback is a step of its own, taken at any later time. *)

From Stdlib Require Import String Ascii List ZArith QArith Lia Bool DecimalString.
From Stdlib Require Import Lqa DecimalNat DecimalFacts.
From stdpp Require Import base list strings option.
Import ListNotations.

Set Default Proof Using "Type".
Set Warnings "-register-all".

(** ** The JavaScript fragment *)

Module JS.

(** *** Strings *)

(** [if (s)] on a string: only the empty string is falsy. *)
Definition truthy_str (s : string) : bool :=
  match s with
  | EmptyString => false
  | String _ _ => true
  end.

(** White space removed by [String.prototype.trim], restricted to code units
    below 256: TAB, LF, VT, FF, CR, SPACE and NO-BREAK SPACE. *)
Definition isWhiteSpace (c : ascii) : bool :=
  match N_of_ascii c with
  | 9%N | 10%N | 11%N | 12%N | 13%N | 32%N | 160%N => true
  | _ => false
  end.

Fixpoint trimStart (s : string) : string :=
  match s with
  | EmptyString => EmptyString
  | String c rest => if isWhiteSpace c then trimStart rest else s
  end.

Fixpoint trimEnd (s : string) : string :=
  match s with
  | EmptyString => EmptyString
  | String c rest =>
      match trimEnd rest with
      | EmptyString => if isWhiteSpace c then EmptyString else String c EmptyString
      | rest' => String c rest'
      end
  end.

(** [s.trim()] *)
Definition trim (s : string) : string := trimEnd (trimStart s).

(** [s.split(sep)] for a one-character separator: never the empty list. *)
Fixpoint split (sep : ascii) (s : string) : list string :=
  match s with
  | EmptyString => [EmptyString]
  | String c rest =>
      if Ascii.eqb c sep then EmptyString :: split sep rest
      else match split sep rest with
           | piece :: pieces => String c piece :: pieces
           | [] => [String c EmptyString]
           end
  end.

(** [s.toLowerCase()] on code units below 256: A-Z and the Latin-1 capitals. *)
Definition lowerChar (c : ascii) : ascii :=
  let n := N_of_ascii c in
  if ((65 <=? n) && (n <=? 90))%N then ascii_of_N (n + 32)
  else if ((192 <=? n) && (n <=? 222) && negb (n =? 215))%N then ascii_of_N (n + 32)
  else c.

Fixpoint toLowerCase (s : string) : string :=
  match s with
  | EmptyString => EmptyString
  | String c rest => String (lowerChar c) (toLowerCase rest)
  end.

(** [s.includes(sub)] *)
Fixpoint includes (sub s : string) : bool :=
  String.prefix sub s ||
  match s with
  | EmptyString => false
  | String _ rest => includes sub rest
  end.

(** [arr.pop()] on the result of [split]: the last piece. *)
Definition pop (pieces : list string) : string := List.last pieces EmptyString.

(** *** Exceptions *)

(** The errors the code can see: [new Error(message)] thrown by the program and
    the [TypeError] of the runtime (a property read on [null] or [undefined], a
    call of something that is no function). *)
Inductive JsError : Type :=
| Error (message : string)
| TypeError.

Inductive Res (A : Type) : Type :=
| Ok (a : A)
| Throw (e : JsError).
Arguments Ok {A} a.
Arguments Throw {A} e.

(** [xs.map(f)] for an [f] that may raise: the first exception ends the loop. *)
Fixpoint traverse {A B} (f : A -> Res B) (xs : list A) : Res (list B) :=
  match xs with
  | [] => Ok []
  | x :: rest =>
      match f x with
      | Throw e => Throw e
      | Ok y =>
          match traverse f rest with
          | Throw e => Throw e
          | Ok ys => Ok (y :: ys)
          end
      end
  end.

(** *** Values of type [any] *)

(** Numbers are rationals: [NaN] and the infinities, which neither [JSON.parse]
    nor the literals of the program produce, are left out. *)
Inductive value : Type :=
| VUndefined
| VNull
| VBool (b : bool)
| VNum (q : Q)
| VStr (s : string)
| VArr (elems : list value)
| VObj (props : list (string * value)).

(** The properties of an object, in insertion order.  (JavaScript enumerates
    integer-like keys first and gives the key [__proto__] a meaning of its own;
    neither is singled out here.) *)
Definition object : Type := list (string * value).

(** [o[k]] *)
Fixpoint obj_get (o : object) (k : string) : value :=
  match o with
  | [] => VUndefined
  | (k', v) :: rest => if String.eqb k' k then v else obj_get rest k
  end.

(** [o.hasOwnProperty(k)] *)
Definition obj_has (o : object) (k : string) : bool :=
  existsb (fun kv => String.eqb (fst kv) k) o.

(** The array index a property name denotes, if any: the canonical decimal
    numeral of a number below [2^32 - 1]. *)
Definition array_index (k : string) : option N :=
  match NilZero.uint_of_string k with
  | Some d =>
      let n := N.of_uint d in
      if String.eqb (NilZero.string_of_uint (N.to_uint n)) k && (n <? 4294967295)%N
      then Some n else None
  | None => None
  end.

(** A new property named by the array index [n]: it goes after the array
    indices below [n], before every other property. *)
Fixpoint obj_insert_index (n : N) (k : string) (v : value) (o : object) : object :=
  match o with
  | [] => [(k, v)]
  | (k', v') :: rest =>
      match array_index k' with
      | Some n' =>
          if (n' <? n)%N then (k', v') :: obj_insert_index n k v rest else (k, v) :: o
      | None => (k, v) :: o
      end
  end.

(** The assignment to an existing property: it keeps its place. *)
Fixpoint obj_replace (o : object) (k : string) (v : value) : object :=
  match o with
  | [] => []
  | (k', v') :: rest =>
      if String.eqb k' k then (k', v) :: rest else (k', v') :: obj_replace rest k v
  end.

(** [o[k] = s] for a string [s], on an object whose prototype is
    [Object.prototype].  The name [__proto__] denotes the accessor of the
    prototype, whose setter ignores a string: no property is created.  An
    existing property keeps its place; a new one is enumerated after the
    array indices below it when it is an array index, and last otherwise. *)
Definition obj_set (o : object) (k : string) (s : string) : object :=
  if String.eqb k "__proto__" then o
  else if obj_has o k then obj_replace o k (VStr s)
  else match array_index k with
       | Some n => obj_insert_index n k (VStr s) o
       | None => o ++ [(k, VStr s)]
       end.

(** [x.k] for the property names the program reads ([source], [sourceIP],
    [content], [port], [type], ...): none of them is defined on the prototypes of
    strings, numbers, booleans or arrays, so only objects answer; [null] and
    [undefined] raise. *)
Definition get_prop (x : value) (k : string) : Res value :=
  match x with
  | VUndefined | VNull => Throw TypeError
  | VObj o => Ok (obj_get o k)
  | _ => Ok VUndefined
  end.

(** [if (x)] *)
Definition truthy (x : value) : bool :=
  match x with
  | VUndefined | VNull => false
  | VBool b => b
  | VNum q => negb (Qeq_bool q 0)
  | VStr s => truthy_str s
  | VArr _ | VObj _ => true
  end.

(** [x === 'literal'] *)
Definition strict_eq_str (x : value) (s : string) : bool :=
  match x with
  | VStr s' => String.eqb s' s
  | _ => false
  end.

(** [x === n] for a number literal *)
Definition strict_eq_num (x : value) (n : Q) : bool :=
  match x with
  | VNum q => Qeq_bool q n
  | _ => false
  end.

(** SameValueZero, the equality of [Set] and of [Array.prototype.includes].
    Objects and arrays are compared by identity; the records handled here are
    trees (parsed or freshly built), in which no object occurs twice, so two
    occurrences of an object or array are never the same. *)
Definition same_value_zero (x y : value) : bool :=
  match x, y with
  | VUndefined, VUndefined => true
  | VNull, VNull => true
  | VBool a, VBool b => Bool.eqb a b
  | VNum a, VNum b => Qeq_bool a b
  | VStr a, VStr b => String.eqb a b
  | _, _ => false
  end.

(** *** XML documents *)

(** The part of the DOM the XML normaliser walks. *)
Inductive Node : Type :=
| Element (tagName : string) (childNodes : list Node)
| Text (data : string).

(** [node.textContent] *)
Fixpoint textContent (node : Node) : string :=
  match node with
  | Text data => data
  | Element _ childNodes => String.concat EmptyString (map textContent childNodes)
  end.

(** The elements of a tree in document order, its root included. *)
Fixpoint elements (node : Node) : list Node :=
  match node with
  | Text _ => []
  | Element _ childNodes => node :: concat (map elements childNodes)
  end.

Definition tagName_of (node : Node) : string :=
  match node with
  | Element tagName _ => tagName
  | Text _ => EmptyString
  end.

(** [element.children]: the child nodes that are elements. *)
Definition children (node : Node) : list Node :=
  match node with
  | Element _ childNodes =>
      List.filter (fun n => match n with Element _ _ => true | Text _ => false end) childNodes
  | Text _ => []
  end.

(** [element.localName]: the qualified name without its namespace prefix. *)
Definition localName_of (node : Node) : string :=
  List.last (split ":"%char (tagName_of node)) EmptyString.

(** [doc.querySelectorAll('tag1, tag2, ...')]: a type selector matches the
    local name of an element, in any namespace. *)
Definition querySelectorAll (tags : list string) (doc : Node) : list Node :=
  List.filter (fun n => existsb (String.eqb (localName_of n)) tags) (elements doc).

(** *** Insertion-ordered maps *)

(** A JavaScript [Map] with string keys: [set] on a present key replaces the
    value where it stands, on a new key it appends; iteration follows insertion
    order. *)
Module OMap.
Section OMap.
Context {V : Type}.

Definition t : Type := list (string * V).

Definition empty : t := [].

Fixpoint get (k : string) (m : t) : option V :=
  match m with
  | [] => None
  | (k', v) :: rest => if String.eqb k' k then Some v else get k rest
  end.

Fixpoint set (k : string) (v : V) (m : t) : t :=
  match m with
  | [] => [(k, v)]
  | (k', v') :: rest =>
      if String.eqb k' k then (k', v) :: rest else (k', v') :: set k v rest
  end.

Fixpoint delete (k : string) (m : t) : t :=
  match m with
  | [] => []
  | (k', v') :: rest =>
      if String.eqb k' k then delete k rest else (k', v') :: delete k rest
  end.

Definition keys (m : t) : list string := map fst m.
Definition values (m : t) : list V := map snd m.
End OMap.
Arguments t V : clear implicits.
End OMap.

End JS.

(** ** The browser, and computations with effects *)

(** What the program obtains from its host.  [random] and [clock] list the
    successive results of [Math.random()] and of reading the time (milliseconds
    since the epoch); a computation records how many of each it has consumed. *)
Class Runtime : Type := {
  random : nat -> Q;
  clock : nat -> Z;
  (** [Number.prototype.toString(36)] *)
  toString36 : Q -> string;
  (** [Date.prototype.toISOString] *)
  toISOString : Z -> string;
  (** [Number.prototype.toFixed(digits)] *)
  toFixed : nat -> Q -> string;
  (** [Date.prototype.toLocaleString] *)
  toLocaleString : Z -> string;
  (** [Number.prototype.toString()]: the decimal form of a number *)
  NumberToString : Q -> string;
  (** [JSON.parse]; [None] is its [SyntaxError] *)
  JSON_parse : string -> option JS.value;
  (** [new DOMParser().parseFromString(text, 'text/xml')]: the document element;
      a syntax error is reported by a [parsererror] element in the document *)
  parseFromString : string -> JS.Node;
}.

Module Eff.
Import JS.

(** The state a method of a component runs in: the consumed part of the host's
    streams, the events emitted so far (oldest first) and the fields of [this]. *)
Record St (E C : Type) : Type := mkSt {
  draws : nat;
  ticks : nat;
  emitted : list E;
  this : C;
}.
Arguments mkSt {E C} _ _ _ _.
Arguments draws {E C} _.
Arguments ticks {E C} _.
Arguments emitted {E C} _.
Arguments this {E C} _.

Definition M (E C A : Type) : Type := St E C -> Res A * St E C.

Definition ret {E C A} (a : A) : M E C A := fun st => (Ok a, st).

Definition bind {E C A B} (m : M E C A) (k : A -> M E C B) : M E C B :=
  fun st =>
    match m st with
    | (Ok a, st') => k a st'
    | (Throw e, st') => (Throw e, st')
    end.

(** [throw e] *)
Definition throw {E C A} (e : JsError) : M E C A := fun st => (Throw e, st).

(** [try { body } catch (error) { handler(error) }] *)
Definition try_catch {E C A} (body : M E C A) (handler : JsError -> M E C A) : M E C A :=
  fun st =>
    match body st with
    | (Ok a, st') => (Ok a, st')
    | (Throw e, st') => handler e st'
    end.

(** A pure step that may raise. *)
Definition lift {E C A} (r : Res A) : M E C A := fun st => (r, st).

(** [Math.random()] *)
Definition Math_random `{Runtime} {E C} : M E C Q :=
  fun st => (Ok (random (draws st)),
             mkSt (S (draws st)) (ticks st) (emitted st) (this st)).

(** [Date.now()], and the time held by [new Date()] *)
Definition Date_now `{Runtime} {E C} : M E C Z :=
  fun st => (Ok (clock (ticks st)),
             mkSt (draws st) (S (ticks st)) (emitted st) (this st)).

(** [this.emit(event, ...args)]: listeners are observers. *)
Definition emit {E C} (ev : E) : M E C unit :=
  fun st => (Ok tt, mkSt (draws st) (ticks st) (emitted st ++ [ev]) (this st)).

(** Reading and writing the fields of [this]. *)
Definition get_this {E C} : M E C C := fun st => (Ok (this st), st).
Definition set_this {E C} (c : C) : M E C unit :=
  fun st => (Ok tt, mkSt (draws st) (ticks st) (emitted st) c).

End Eff.

Notation "'let*' x ':=' m 'in' k" := (Eff.bind m (fun x => k))
  (at level 10, x name, m at level 100, k at level 200).

(** ** Record normaliser: CSV *)

Module Csv.
Import JS.

(** [text.split('\n').filter(line => line.trim())] *)
Definition lines_of (text : string) : list string :=
  List.filter (fun line => truthy_str (trim line)) (split "010"%char text).

(** [values[index] || ''] *)
Definition value_or_empty (values : list string) (index : nat) : string :=
  match values !! index with
  | Some v => if truthy_str v then v else EmptyString
  | None => EmptyString
  end.

(** [headers.forEach((header, index) => { row[header] = values[index] || '' })],
    started at position [index]. *)
Fixpoint fill_row (headers : list string) (index : nat) (values : list string)
    (row : object) : object :=
  match headers with
  | [] => row
  | header :: rest =>
      fill_row rest (S index) values
        (obj_set row header (value_or_empty values index))
  end.

(** The body of the loop for line [line]. *)
Definition row_of_line (headers : list string) (line : string) : value :=
  let values := map trim (split ","%char line) in
  VObj (fill_row headers 0 values []).

(** [for (let i = 1; i < lines.length; i++) { ...; data.push(row) }]: [n] bounds
    the number of iterations left. *)
Fixpoint rows_loop (n : nat) (lines headers : list string) (i : nat)
    (data : list value) : list value :=
  match n with
  | O => data
  | S n' =>
      match lines !! i with
      | None => data
      | Some line => rows_loop n' lines headers (S i) (data ++ [row_of_line headers line])
      end
  end.

Definition InsufficientRows : JsError := Error "CSV must have header and data rows".

Definition parseCSV (text : string) : Res (list value) :=
  let lines := lines_of text in
  if (length lines <? 2)%nat then Throw InsufficientRows
  else
    let headers := map trim (split ","%char (nth 0 lines EmptyString)) in
    Ok (rows_loop (length lines) lines headers 1 []).

(** *** The normaliser as the specification words it *)

(** A line is blank when nothing is left of it after trimming. *)
Definition blank (line : string) : bool := String.eqb (trim line) EmptyString.

Definition non_blank_lines (text : string) : list string :=
  List.filter (fun line => negb (blank line)) (split "010"%char text).

Definition cells (line : string) : list string := map trim (split ","%char line).

(** The values of a row made as long as the header: missing ones are the empty
    string, extra ones are dropped. *)
Definition fit (n : nat) (values : list string) : list string :=
  firstn n (values ++ repeat EmptyString (n - length values)).

(** Header names zipped positionally with the fitted values. *)
Definition zipped (headers values : list string) : list (string * string) :=
  combine headers (fit (length headers) values).

(** A record with one more field; of two fields with one name the later value
    stays, where the first stood. *)
Fixpoint with_field (o : object) (k : string) (v : value) : object :=
  match o with
  | [] => [(k, v)]
  | (k', v') :: rest =>
      if String.eqb k' k then (k', v) :: rest else (k', v') :: with_field rest k v
  end.

(** The record holding the given fields. *)
Definition record_of (fields : list (string * string)) : value :=
  VObj (fold_left (fun o kv => with_field o (fst kv) (VStr (snd kv))) fields []).

Definition spec_record (header line : string) : value :=
  record_of (zipped (cells header) (cells line)).

(** A header name that names an ordinary property: not [__proto__], and no
    array index. *)
Definition plain (name : string) : bool :=
  negb (String.eqb name "__proto__") &&
  match array_index name with
  | Some _ => false
  | None => true
  end.

End Csv.

(** ** The data model ([types/index.ts]) *)

Module Severity.
Inductive t : Type := low | medium | high | critical.

(** The string literal a severity is at run time. *)
Definition str (s : t) : string :=
  match s with
  | low => "low"
  | medium => "medium"
  | high => "high"
  | critical => "critical"
  end.

#[global] Instance eq_dec : EqDecision t.
Proof. solve_decision. Defined.
End Severity.

Module ResultType.
Inductive t : Type := threat | pattern | anomaly | correlation.

Definition str (k : t) : string :=
  match k with
  | threat => "threat"
  | pattern => "pattern"
  | anomaly => "anomaly"
  | correlation => "correlation"
  end.
End ResultType.

Module AnalysisResult.
Record t : Type := mk {
  id : string;
  type : ResultType.t;
  title : string;
  description : string;
  severity : Severity.t;
  confidence : Q;
  timestamp : Z;
  evidence : list JS.value;
  recommendations : list string;
}.
End AnalysisResult.

(** [AnalysisConfig]: at run time [type] and [severityFilter] are whatever strings
    the caller passes; an absent [severityFilter] is [None]. *)
Module AnalysisConfig.
Record t : Type := mk {
  type : string;
  timeRange : string;
  severityFilter : option string;
}.
End AnalysisConfig.

Module ReportConfig.
Record t : Type := mk {
  type : string;
  format : string;
  title : option string;
}.
End ReportConfig.

Module Metadata.
Record t : Type := mk {
  analysisResultsCount : nat;
  dataSourcesCount : nat;
  threatLevel : string;
}.
End Metadata.

Module Report.
Record t : Type := mk {
  id : string;
  title : string;
  type : string;
  format : string;
  content : string;
  generatedAt : Z;
  downloadUrl : option string;
  metadata : Metadata.t;
}.

(** [report.content = c] *)
Definition with_content (c : string) (r : t) : t :=
  mk (id r) (title r) (type r) (format r) c (generatedAt r) (downloadUrl r) (metadata r).

(** [report.downloadUrl = u] *)
Definition with_downloadUrl (u : string) (r : t) : t :=
  mk (id r) (title r) (type r) (format r) (content r) (generatedAt r) (Some u) (metadata r).
End Report.


(** ** Report compiler ([ReportGenerator]) *)

Module ReportGenerator.
Import JS Eff.

Inductive Event : Type :=
| initialized
| reportGenerated (report : Report.t)
| reportError (error : JsError).

(** The fields of a [ReportGenerator]. *)
Record Fields : Type := mkFields {
  reports : list Report.t;
  isInitialized : bool;
}.

Definition new : Fields := mkFields [] false.

(** The encoders [generatePDF], [generateHTML] and [generateJSON] hand the
    narrative to jsPDF, to the regular-expression engine and to [JSON.stringify]
    and publish the outcome with [URL.createObjectURL]; each is represented by
    the handle it returns, or by the exception it raises.  [generateJSON] stamps
    its output with a clock reading of its own, the last argument here. *)
Class Encoders : Type := {
  generatePDF : Report.t -> Res string;
  generateHTML : Report.t -> Res string;
  generateJSON : Report.t -> list AnalysisResult.t -> list value -> Z -> Res string;
}.

Definition nl : string := String "010"%char EmptyString.

(** A template literal written line by line. *)
Definition template (lines : list string) : string := String.concat nl lines.

(** [`${n}`] for a count *)
Definition str_of_nat (n : nat) : string :=
  DecimalString.NilZero.string_of_uint (Nat.to_uint n).

Definition upperChar (c : ascii) : ascii :=
  let n := N_of_ascii c in
  if ((97 <=? n) && (n <=? 122))%N then ascii_of_N (n - 32)
  else if ((224 <=? n) && (n <=? 254) && negb (n =? 247))%N then ascii_of_N (n - 32)
  else c.

(** [s.toUpperCase()] on the strings it is applied to here (severities and
    threat levels). *)
Fixpoint toUpperCase (s : string) : string :=
  match s with
  | EmptyString => EmptyString
  | String c rest => String (upperChar c) (toUpperCase rest)
  end.

(** [Array.from(new Set(xs))] for strings: first occurrences, in order. *)
Fixpoint unique (xs : list string) (seen : list string) : list string :=
  match xs with
  | [] => seen
  | x :: rest =>
      unique rest (if existsb (String.eqb x) seen then seen else seen ++ [x])
  end.

(** [xs.slice(0, n).map((x, i) => `${i + 1}. ${x}`).join('\n')] *)
Definition numbered (n : nat) (xs : list string) : string :=
  String.concat nl
    (imap (fun i x => str_of_nat (i + 1) +:+ ". " +:+ x) (firstn n xs)).

(** [results.filter(r => r.severity === s)] *)
Definition with_severity (s : string) (results : list AnalysisResult.t) :
    list AnalysisResult.t :=
  List.filter (fun r => String.eqb (Severity.str (AnalysisResult.severity r)) s) results.

Definition calculateOverallThreatLevel (results : list AnalysisResult.t) : string :=
  let criticalCount := length (with_severity "critical" results) in
  let highCount := length (with_severity "high" results) in
  let mediumCount := length (with_severity "medium" results) in
  if (0 <? criticalCount)%nat then "critical"
  else if (2 <? highCount)%nat then "high"
  else if (0 <? highCount)%nat || (3 <? mediumCount)%nat then "medium"
  else "low".

(** [sources.add(x)] on a [Set] kept in insertion order *)
Definition set_add (x : value) (sources : list value) : list value :=
  if existsb (same_value_zero x) sources then sources else sources ++ [x].

(** [if (item[k]) sources.add(item[k])] *)
Definition add_if_set (item : value) (k : string) (sources : list value) :
    Res (list value) :=
  match get_prop item k with
  | Throw e => Throw e
  | Ok x => Ok (if truthy x then set_add x sources else sources)
  end.

Fixpoint collect_sources (data : list value) (sources : list value) : Res (list value) :=
  match data with
  | [] => Ok sources
  | item :: rest =>
      match add_if_set item "source" sources with
      | Throw e => Throw e
      | Ok sources1 =>
          match add_if_set item "sourceIP" sources1 with
          | Throw e => Throw e
          | Ok sources2 => collect_sources rest sources2
          end
      end
  end.

Definition getUniqueDataSources (data : list value) : Res (list value) :=
  collect_sources data [].

Section Templates.
Context `{Runtime}.

(** [`${x}`], the conversion ToString.  The records are data: an object has
    no callable property of its own, so one with an own [toString] property
    cannot be converted and raises a [TypeError]; every other object inherits
    [Object.prototype.toString].  An array joins the conversions of its
    elements, [null] and [undefined] counting as empty. *)
Fixpoint interpolate (x : value) : Res string :=
  match x with
  | VUndefined => Ok "undefined"
  | VNull => Ok "null"
  | VBool b => Ok (if b then "true" else "false")
  | VNum q => Ok (NumberToString q)
  | VStr s => Ok s
  | VArr elems =>
      match (fix join (elems : list value) : Res (list string) :=
               match elems with
               | [] => Ok []
               | elem :: rest =>
                   match match elem with
                         | VUndefined | VNull => Ok EmptyString
                         | _ => interpolate elem
                         end with
                   | Throw e => Throw e
                   | Ok text =>
                       match join rest with
                       | Throw e => Throw e
                       | Ok texts => Ok (text :: texts)
                       end
                   end
               end) elems with
      | Throw e => Throw e
      | Ok texts => Ok (String.concat "," texts)
      end
  | VObj o => if obj_has o "toString" then Throw TypeError else Ok "[object Object]"
  end.

(** The values a template literal can print. *)
Fixpoint printable (x : value) : bool :=
  match x with
  | VArr elems => forallb printable elems
  | VObj o => negb (obj_has o "toString")
  | _ => true
  end.

Definition generateRiskAssessment (results : list AnalysisResult.t) : string :=
  let highRiskItems :=
    List.filter (fun r =>
      String.eqb (Severity.str (AnalysisResult.severity r)) "critical"
      || String.eqb (Severity.str (AnalysisResult.severity r)) "high") results in
  if (length highRiskItems =? 0)%nat
  then "Current risk level is LOW. No critical threats identified."
  else "Current risk level is ELEVATED. " +:+ str_of_nat (length highRiskItems)
       +:+ " high-priority threats require immediate attention.".

(** The recommendations of all findings, each once, in order of first mention. *)
Definition all_recommendations (results : list AnalysisResult.t) : list string :=
  unique (concat (map AnalysisResult.recommendations results)) [].

Definition generateExecutiveRecommendations (results : list AnalysisResult.t) : string :=
  numbered 5 (all_recommendations results).

Definition generateConclusion (results : list AnalysisResult.t) : string :=
  let threatLevel := calculateOverallThreatLevel results in
  "Based on the analysis of " +:+ str_of_nat (length results)
  +:+ " findings, the organization should maintain " +:+ threatLevel
  +:+ " alert status and implement the recommended security measures.".

Definition generateExecutiveSummary (results : list AnalysisResult.t)
    (data : list value) : Res string :=
  let threatLevel := calculateOverallThreatLevel results in
  let criticalThreats := length (with_severity "critical" results) in
  let highThreats := length (with_severity "high" results) in
  match getUniqueDataSources data with
  | Throw e => Throw e
  | Ok sources =>
      Ok (trim (template [
        "";
        "# Executive Summary";
        "";
        "## Overview";
        "This intelligence report provides a comprehensive analysis of security threats and patterns identified from "
          +:+ str_of_nat (length sources) +:+ " data sources over the analysis period.";
        "";
        "## Key Findings";
        "- **Overall Threat Level**: " +:+ toUpperCase threatLevel;
        "- **Critical Threats**: " +:+ str_of_nat criticalThreats;
        "- **High Priority Threats**: " +:+ str_of_nat highThreats;
        "- **Total Findings**: " +:+ str_of_nat (length results);
        "";
        "## Risk Assessment";
        generateRiskAssessment results;
        "";
        "## Recommendations";
        generateExecutiveRecommendations results;
        "";
        "## Conclusion";
        generateConclusion results;
        "    " ]))
  end.

Definition generateDataSourcesSummary (data : list value) : Res string :=
  match getUniqueDataSources data with
  | Throw e => Throw e
  | Ok sources =>
      match traverse interpolate sources with
      | Throw e => Throw e
      | Ok texts =>
          Ok (String.concat nl
                (imap (fun i text => str_of_nat (i + 1) +:+ ". " +:+ text) texts))
      end
  end.

Definition generateDetailedFindings (results : list AnalysisResult.t) : string :=
  String.concat nl
    (imap (fun i result => template [
        "";
        "### Finding " +:+ str_of_nat (i + 1) +:+ ": " +:+ AnalysisResult.title result;
        "- **Severity**: " +:+ toUpperCase (Severity.str (AnalysisResult.severity result));
        "- **Confidence**: "
          +:+ toFixed 1 (AnalysisResult.confidence result * 100)%Q +:+ "%";
        "- **Description**: " +:+ AnalysisResult.description result;
        "    " ])
       (firstn 10 results)).

(** [if (evidence[k]) indicators.push(`${label}: ${evidence[k]}`)] *)
Definition push_indicator (evidence : value) (k label : string)
    (indicators : list string) : Res (list string) :=
  match get_prop evidence k with
  | Throw e => Throw e
  | Ok x =>
      if truthy x then
        match interpolate x with
        | Throw e => Throw e
        | Ok text => Ok (indicators ++ [label +:+ ": " +:+ text])
        end
      else Ok indicators
  end.

Fixpoint indicators_of (evidence : list value) (indicators : list string) :
    Res (list string) :=
  match evidence with
  | [] => Ok indicators
  | e :: rest =>
      match push_indicator e "sourceIP" "IP" indicators with
      | Throw err => Throw err
      | Ok i1 =>
          match push_indicator e "hash" "Hash" i1 with
          | Throw err => Throw err
          | Ok i2 =>
              match push_indicator e "domain" "Domain" i2 with
              | Throw err => Throw err
              | Ok i3 => indicators_of rest i3
              end
          end
      end
  end.

Fixpoint collect_indicators (results : list AnalysisResult.t) (indicators : list string) :
    Res (list string) :=
  match results with
  | [] => Ok indicators
  | result :: rest =>
      match indicators_of (AnalysisResult.evidence result) indicators with
      | Throw err => Throw err
      | Ok indicators' => collect_indicators rest indicators'
      end
  end.

Definition generateTechnicalIndicators (results : list AnalysisResult.t) : Res string :=
  match collect_indicators results [] with
  | Throw e => Throw e
  | Ok indicators => Ok (numbered 10 (unique indicators []))
  end.

Definition generateMitigationStrategies (results : list AnalysisResult.t) : string :=
  numbered 8 (all_recommendations results).

Definition generateTechnicalAnalysis (results : list AnalysisResult.t)
    (data : list value) : Res string :=
  match generateDataSourcesSummary data with
  | Throw e => Throw e
  | Ok sourcesSummary =>
      match generateTechnicalIndicators results with
      | Throw e => Throw e
      | Ok indicators =>
          Ok (trim (template [
            "";
            "# Technical Analysis Report";
            "";
            "## Methodology";
            "This analysis employed multiple detection techniques including:";
            "- Threat detection algorithms";
            "- Pattern analysis";
            "- Anomaly detection";
            "- Correlation analysis";
            "";
            "## Data Sources";
            sourcesSummary;
            "";
            "## Detailed Findings";
            generateDetailedFindings results;
            "";
            "## Technical Indicators";
            indicators;
            "";
            "## Mitigation Strategies";
            generateMitigationStrategies results;
            "    " ]))
      end
  end.

(** Occurrence counts in a [Map], in order of first occurrence. *)
Fixpoint tally (xs : list string) (counts : OMap.t nat) : OMap.t nat :=
  match xs with
  | [] => counts
  | x :: rest => tally rest (OMap.set x (default 0%nat (OMap.get x counts) + 1)%nat counts)
  end.

(** [Array.from(m.entries()).map(([k, n]) => `- ${k}: ${n}`).join('\n')] *)
Definition bullet_counts (counts : OMap.t nat) : string :=
  String.concat nl (map (fun kn => "- " +:+ fst kn +:+ ": " +:+ str_of_nat (snd kn)) counts).

Definition generateThreatCategories (threats : list AnalysisResult.t) : string :=
  bullet_counts (tally (map (fun t => ResultType.str (AnalysisResult.type t)) threats) []).

Definition generateSeverityDistribution (threats : list AnalysisResult.t) : string :=
  bullet_counts (tally (map (fun t => Severity.str (AnalysisResult.severity t)) threats) []).

Definition generateAttackVectors (threats : list AnalysisResult.t) : string :=
  let mentioning word :=
    length (List.filter (fun t => includes word (AnalysisResult.description t)) threats) in
  trim (template [
    "";
    "- Network-based attacks: " +:+ str_of_nat (mentioning "network");
    "- Malware infections: " +:+ str_of_nat (mentioning "malware");
    "- Suspicious activities: " +:+ str_of_nat (mentioning "suspicious");
    "    " ]).

Definition generateThreatActorAnalysis (threats : list AnalysisResult.t) : string :=
  "Analysis suggests multiple threat actors with varying sophistication levels. Further investigation recommended.".

Definition generateDefensiveRecommendations (threats : list AnalysisResult.t) : string :=
  numbered 6 (all_recommendations threats).

Definition generateThreatAssessment (results : list AnalysisResult.t)
    (data : list value) : Res string :=
  let threats :=
    List.filter (fun r => String.eqb (ResultType.str (AnalysisResult.type r)) "threat")
      results in
  Ok (trim (template [
    "";
    "# Threat Assessment Report";
    "";
    "## Threat Landscape Overview";
    str_of_nat (length threats) +:+ " threats have been identified and analyzed.";
    "";
    "## Threat Categories";
    generateThreatCategories threats;
    "";
    "## Severity Distribution";
    generateSeverityDistribution threats;
    "";
    "## Attack Vectors";
    generateAttackVectors threats;
    "";
    "## Threat Actor Analysis";
    generateThreatActorAnalysis threats;
    "";
    "## Defensive Recommendations";
    generateDefensiveRecommendations threats;
    "    " ])).

Definition generateTimeline (incidents : list AnalysisResult.t) : string :=
  String.concat nl
    (map (fun incident =>
            "- " +:+ toLocaleString (AnalysisResult.timestamp incident) +:+ ": "
            +:+ AnalysisResult.title incident) incidents).

Definition generateImpactAssessment (incidents : list AnalysisResult.t) : string :=
  let criticalCount := length (with_severity "critical" incidents) in
  str_of_nat criticalCount
  +:+ " critical incidents with potential for significant business impact.".

Definition generateResponseActions (incidents : list AnalysisResult.t) : string :=
  numbered 5 (all_recommendations incidents).

Definition generateLessonsLearned (incidents : list AnalysisResult.t) : string :=
  "Incidents highlight the need for improved monitoring and faster response times.".

Definition generateNextSteps (incidents : list AnalysisResult.t) : string :=
  trim (template [
    "";
    "1. Implement immediate containment measures";
    "2. Conduct thorough investigation";
    "3. Update security policies";
    "4. Enhance monitoring capabilities";
    "5. Schedule follow-up assessment";
    "    " ]).

Definition generateIncidentReport (results : list AnalysisResult.t)
    (data : list value) : Res string :=
  let incidents :=
    List.filter (fun r =>
      String.eqb (Severity.str (AnalysisResult.severity r)) "critical"
      || String.eqb (Severity.str (AnalysisResult.severity r)) "high") results in
  Ok (trim (template [
    "";
    "# Incident Report";
    "";
    "## Incident Summary";
    str_of_nat (length incidents) +:+ " high-priority incidents requiring immediate attention.";
    "";
    "## Timeline of Events";
    generateTimeline incidents;
    "";
    "## Impact Assessment";
    generateImpactAssessment incidents;
    "";
    "## Response Actions";
    generateResponseActions incidents;
    "";
    "## Lessons Learned";
    generateLessonsLearned incidents;
    "";
    "## Next Steps";
    generateNextSteps incidents;
    "    " ])).

End Templates.

Definition UnknownReportType (type : string) : JsError :=
  Error ("Unknown report type: " +:+ type).

Definition UnknownReportFormat (format : string) : JsError :=
  Error ("Unknown report format: " +:+ format).

Section Generate.
Context `{Runtime} `{Encoders}.

Definition generateId : M Event Fields string :=
  let* r := Math_random in
  ret (substring 2 9 (toString36 r)).

(** [switch (config.type)] *)
Definition content_stage (type : string) (results : list AnalysisResult.t)
    (data : list value) : Res string :=
  if String.eqb type "executive-summary" then generateExecutiveSummary results data
  else if String.eqb type "technical-analysis" then generateTechnicalAnalysis results data
  else if String.eqb type "threat-assessment" then generateThreatAssessment results data
  else if String.eqb type "incident-report" then generateIncidentReport results data
  else Throw (UnknownReportType type).

(** [switch (config.format)] *)
Definition encoding_stage (format : string) (report : Report.t)
    (results : list AnalysisResult.t) (data : list value) : M Event Fields string :=
  if String.eqb format "pdf" then lift (generatePDF report)
  else if String.eqb format "html" then lift (generateHTML report)
  else if String.eqb format "json" then
    let* now := Date_now in lift (generateJSON report results data now)
  else throw (UnknownReportFormat format).

(** [config.title || `${config.type} Report`] *)
Definition title_of (config : ReportConfig.t) : string :=
  match ReportConfig.title config with
  | Some t => if truthy_str t then t else ReportConfig.type config +:+ " Report"
  | None => ReportConfig.type config +:+ " Report"
  end.

(** [this.reports.push(report)] *)
Definition push_report (report : Report.t) : M Event Fields unit :=
  let* self := get_this in
  set_this (mkFields (reports self ++ [report]) (isInitialized self)).

Definition generateReport (config : ReportConfig.t)
    (analysisResults : list AnalysisResult.t) (data : list value) :
    M Event Fields Report.t :=
  try_catch
    (let* id := generateId in
     let* generatedAt := Date_now in
     let* sources := lift (getUniqueDataSources data) in
     let report :=
       Report.mk id (title_of config) (ReportConfig.type config)
         (ReportConfig.format config) EmptyString generatedAt None
         (Metadata.mk (length analysisResults) (length sources)
            (calculateOverallThreatLevel analysisResults)) in
     let* content := lift (content_stage (ReportConfig.type config) analysisResults data) in
     let report := Report.with_content content report in
     let* url := encoding_stage (ReportConfig.format config) report analysisResults data in
     let report := Report.with_downloadUrl url report in
     let* _ := push_report report in
     let* _ := emit (reportGenerated report) in
     ret report)
    (fun error =>
       let* _ := emit (reportError error) in
       throw error).

Definition getReports : M Event Fields (list Report.t) :=
  let* self := get_this in ret (reports self).

Definition getReportCount : M Event Fields nat :=
  let* self := get_this in ret (length (reports self)).

(** [this.reports = []; this.isInitialized = false] *)
Definition shutdown : M Event Fields unit := set_this (mkFields [] false).

(** The state in which the [catch] clause leaves the generator. *)
Definition failed (e : JsError) (st : St Event Fields) : St Event Fields :=
  mkSt (S (draws st)) (S (ticks st)) (emitted st ++ [reportError e]) (this st).

(** The report under construction, before its content is known. *)
Definition draft (config : ReportConfig.t) (results : list AnalysisResult.t)
    (sources : list value) (st : St Event Fields) : Report.t :=
  Report.mk (substring 2 9 (toString36 (random (draws st)))) (title_of config)
    (ReportConfig.type config) (ReportConfig.format config) EmptyString
    (clock (ticks st)) None
    (Metadata.mk (length results) (length sources) (calculateOverallThreatLevel results)).

End Generate.

(** *** The threat-level table as the specification words it *)

(** The number of findings of a given severity. *)
Definition count (s : Severity.t) (results : list AnalysisResult.t) : nat :=
  length (filter (fun r => AnalysisResult.severity r = s) results).

(** The threat levels, by rising alarm. *)
Definition level_rank (level : string) : nat :=
  if String.eqb level "critical" then 3
  else if String.eqb level "high" then 2
  else if String.eqb level "medium" then 1
  else 0.

(** [r.severity === 'critical' || r.severity === 'high'] *)
Definition high_priority (r : AnalysisResult.t) : bool :=
  String.eqb (Severity.str (AnalysisResult.severity r)) "critical"
  || String.eqb (Severity.str (AnalysisResult.severity r)) "high".

(** [r.type === 'threat'] *)
Definition is_threat (r : AnalysisResult.t) : bool :=
  String.eqb (ResultType.str (AnalysisResult.type r)) "threat".

Definition known_types : list string :=
  ["executive-summary"; "technical-analysis"; "threat-assessment"; "incident-report"].

Definition known_formats : list string := ["pdf"; "html"; "json"].






End ReportGenerator.


(** ** Heuristic analysis engine ([AnalysisEngine]) *)

Module AnalysisEngine.
Import JS Eff.

Inductive Event : Type :=
| initialized
| analysisStarted
| analysisCompleted (results : list AnalysisResult.t) (analysisTime : Z)
| analysisError (error : JsError).

(** The fields of an [AnalysisEngine]. *)
Record Fields : Type := mkFields {
  results : list AnalysisResult.t;
  isInitialized : bool;
  threatCount : nat;
}.

Definition new : Fields := mkFields [] false 0.

(** A canned finding of the pattern, anomaly and correlation catalogues. *)
Record Canned : Type := mkCanned {
  c_type : string;
  c_description : string;
  c_severity : Severity.t;
  c_confidence : Q;
  c_evidence : list value;
  c_recommendations : list string;
}.

(** [data.slice(from, to)] *)
Definition slice {A} (from to : nat) (data : list A) : list A :=
  firstn (to - from) (skipn from data).

Definition isKnownMaliciousIP (ip : value) : bool :=
  let maliciousIPs := [VStr "203.0.113.45"; VStr "198.51.100.23"; VStr "192.0.2.100"] in
  existsb (same_value_zero ip) maliciousIPs.

(** [content.toLowerCase()] raises when [content] is no string. *)
Definition containsSuspiciousKeywords (content : value) : Res bool :=
  let keywords := ["suspicious"; "malicious"; "attack"; "breach"; "vulnerability"] in
  match content with
  | VStr s => Ok (existsb (fun keyword => includes keyword (toLowerCase s)) keywords)
  | _ => Throw TypeError
  end.

Definition isUnusualPort (port : value) : bool :=
  let commonPorts :=
    map (fun n => VNum (inject_Z n)) [80; 443; 22; 21; 25; 53; 110; 143; 993; 995]%Z in
  negb (existsb (same_value_zero port) commonPorts).

(** [r < 0.1] *)
Definition below_tenth (r : Q) : bool := negb (Qle_bool (1 # 10) r).

Definition calculateThreatSeverity (item : value) : Res Severity.t :=
  match get_prop item "type", get_prop item "severity",
        get_prop item "status", get_prop item "port" with
  | Ok type, Ok severity, Ok status, Ok port =>
      Ok (if strict_eq_str type "malware" || strict_eq_str severity "high"
          then Severity.critical
          else if strict_eq_str status "blocked" || strict_eq_str severity "medium"
          then Severity.high
          else if truthy port && isUnusualPort port then Severity.medium
          else Severity.low)
  | _, _, _, _ => Throw TypeError
  end.

Definition generateThreatRecommendations `{Runtime} (item : value) : Res (list string) :=
  match get_prop item "sourceIP", get_prop item "type" with
  | Ok sourceIP, Ok type =>
      match (if truthy sourceIP
             then match ReportGenerator.interpolate sourceIP with
                  | Throw e => Throw e
                  | Ok ip => Ok ["Block IP address " +:+ ip;
                                 "Monitor network traffic for similar patterns"]
                  end
             else Ok []) with
      | Throw e => Throw e
      | Ok recommendations =>
          let recommendations :=
            if strict_eq_str type "malware"
            then recommendations ++
                 ["Run full system scan"; "Update antivirus definitions";
                  "Isolate affected systems"]
            else recommendations in
          Ok (recommendations ++ ["Investigate further"; "Document incident"])
      end
  | _, _ => Throw TypeError
  end.

(** [x || fallback] *)
Definition or_else (x fallback : value) : value := if truthy x then x else fallback.

Definition generateThreatDescription `{Runtime} (item : value) : Res string :=
  match get_prop item "sourceIP", get_prop item "destIP", get_prop item "content",
        get_prop item "type", get_prop item "name" with
  | Ok sourceIP, Ok destIP, Ok content, Ok type, Ok name =>
      if truthy sourceIP then
        match ReportGenerator.interpolate sourceIP,
              ReportGenerator.interpolate (or_else destIP (VStr "internal systems")) with
        | Ok source, Ok target =>
            Ok ("Suspicious network activity from " +:+ source +:+ " targeting " +:+ target)
        | _, _ => Throw TypeError
        end
      else if truthy content then
        match content with
        | VStr s => Ok ("Suspicious content detected: " +:+ substring 0 100 s +:+ "...")
        | _ => Throw TypeError
        end
      else if strict_eq_str type "malware" then
        match ReportGenerator.interpolate (or_else name (VStr "Unknown threat")) with
        | Ok threat => Ok ("Malware detected: " +:+ threat)
        | Throw e => Throw e
        end
      else Ok "Suspicious activity detected in data source"
  | _, _, _, _, _ => Throw TypeError
  end.

Definition identifyPatterns (data : list value) : list Canned :=
  [ mkCanned "Repeated Access Attempts"
      "Multiple failed login attempts from same source"
      Severity.medium (85 # 100) (slice 0 3 data)
      ["Implement rate limiting"; "Monitor source IP"];
    mkCanned "Time-based Pattern"
      "Unusual activity during off-hours"
      Severity.low (72 # 100) (slice 1 4 data)
      ["Review access policies"; "Implement time-based restrictions"] ].

Definition detectAnomalies (data : list value) : list Canned :=
  [ mkCanned "Traffic Volume Spike"
      "Unusual increase in network traffic volume"
      Severity.medium (78 # 100) (slice 0 2 data)
      ["Investigate traffic source"; "Check for DDoS attack"];
    mkCanned "Unusual User Behavior"
      "User accessing resources outside normal pattern"
      Severity.low (65 # 100) (slice 2 5 data)
      ["Verify user identity"; "Review access logs"] ].

Definition findCorrelations (data : list value) : list Canned :=
  [ mkCanned "Multi-source Threat"
      "Related threats detected across multiple data sources"
      Severity.high (88 # 100) (slice 0 4 data)
      ["Coordinate response"; "Check all related systems"] ].

(** The three canned sample threats, discovered at the given times. *)
Definition sampleThreats (t1 t2 t3 : Z) : list AnalysisResult.t :=
  [ AnalysisResult.mk "threat-sample-1" ResultType.threat
      "Malicious IP Activity"
      "Multiple connection attempts from known malicious IP address"
      Severity.high (92 # 100) t1
      [VObj [("sourceIP", VStr "203.0.113.45"); ("attempts", VNum (inject_Z 15))]]
      ["Block IP address"; "Monitor for similar activity"];
    AnalysisResult.mk "threat-sample-2" ResultType.threat
      "Suspicious File Hash"
      "File with known malicious hash detected"
      Severity.critical (98 # 100) t2
      [VObj [("hash", VStr "abc123def456"); ("filename", VStr "suspicious.exe")]]
      ["Quarantine file"; "Run full system scan"];
    AnalysisResult.mk "threat-sample-3" ResultType.threat
      "Unusual Port Activity"
      "Unexpected traffic on non-standard port"
      Severity.medium (75 # 100) t3
      [VObj [("port", VNum (inject_Z 8888)); ("protocol", VStr "TCP")]]
      ["Investigate port usage"; "Review firewall rules"] ].

Definition UnknownAnalysisType (type : string) : JsError :=
  Error ("Unknown analysis type: " +:+ type).

Section Engine.
Context `{Runtime}.

Abbreviation Eng := (M Event Fields).

Definition isSuspiciousActivity (item : value) : Eng bool :=
  let* sourceIP := lift (get_prop item "sourceIP") in
  if truthy sourceIP && isKnownMaliciousIP sourceIP then ret true else
  let* content := lift (get_prop item "content") in
  let* keywords := (if truthy content then lift (containsSuspiciousKeywords content)
                    else ret false) in
  if keywords then ret true else
  let* port := lift (get_prop item "port") in
  if truthy port && isUnusualPort port then ret true else
  let* type := lift (get_prop item "type") in
  if strict_eq_str type "malware" then ret true else
  let* r := Math_random in
  ret (below_tenth r).

(** The body of [data.forEach((item, index) => ...)] in [runThreatDetection],
    over the rest of the array; [found] is the local [results]. *)
Fixpoint detectThreats (data : list value) (index : nat)
    (found : list AnalysisResult.t) : Eng (list AnalysisResult.t) :=
  match data with
  | [] => ret found
  | item :: rest =>
      let* suspicious := isSuspiciousActivity item in
      if suspicious then
        let* description := lift (generateThreatDescription item) in
        let* severity := lift (calculateThreatSeverity item) in
        let* r := Math_random in
        let* now := Date_now in
        let* recommendations := lift (generateThreatRecommendations item) in
        detectThreats rest (S index)
          (found ++
           [AnalysisResult.mk ("threat-" +:+ ReportGenerator.str_of_nat index)
              ResultType.threat "Suspicious Activity Detected" description severity
              ((7 # 10) + r * (3 # 10))%Q now [item] recommendations])
      else detectThreats rest (S index) found
  end.

Definition generateSampleThreats : Eng (list AnalysisResult.t) :=
  let* t1 := Date_now in
  let* t2 := Date_now in
  let* t3 := Date_now in
  ret (sampleThreats t1 t2 t3).

Definition runThreatDetection (data : list value) (config : AnalysisConfig.t) :
    Eng (list AnalysisResult.t) :=
  let* found := detectThreats data 0 [] in
  if (length found =? 0)%nat then
    let* samples := generateSampleThreats in
    ret (found ++ samples)
  else ret found.

(** [catalogue.forEach((entry, index) => results.push({...}))] for the three
    canned strategies. *)
Fixpoint pushCanned (prefix : string) (kind : ResultType.t) (heading : string)
    (catalogue : list Canned) (index : nat) (found : list AnalysisResult.t) :
    Eng (list AnalysisResult.t) :=
  match catalogue with
  | [] => ret found
  | entry :: rest =>
      let* now := Date_now in
      pushCanned prefix kind heading rest (S index)
        (found ++
         [AnalysisResult.mk (prefix +:+ ReportGenerator.str_of_nat index) kind
            (heading +:+ c_type entry) (c_description entry) (c_severity entry)
            (c_confidence entry) now (c_evidence entry) (c_recommendations entry)])
  end.

Definition runPatternAnalysis (data : list value) (config : AnalysisConfig.t) :
    Eng (list AnalysisResult.t) :=
  pushCanned "pattern-" ResultType.pattern "Pattern Identified: "
    (identifyPatterns data) 0 [].

Definition runAnomalyDetection (data : list value) (config : AnalysisConfig.t) :
    Eng (list AnalysisResult.t) :=
  pushCanned "anomaly-" ResultType.anomaly "Anomaly Detected: "
    (detectAnomalies data) 0 [].

Definition runCorrelationAnalysis (data : list value) (config : AnalysisConfig.t) :
    Eng (list AnalysisResult.t) :=
  pushCanned "correlation-" ResultType.correlation "Correlation Found: "
    (findCorrelations data) 0 [].

(** [switch (config.type)] *)
Definition strategy (data : list value) (config : AnalysisConfig.t) :
    Eng (list AnalysisResult.t) :=
  let type := AnalysisConfig.type config in
  if String.eqb type "threat-detection" then runThreatDetection data config
  else if String.eqb type "pattern-analysis" then runPatternAnalysis data config
  else if String.eqb type "anomaly-detection" then runAnomalyDetection data config
  else if String.eqb type "correlation-analysis" then runCorrelationAnalysis data config
  else throw (UnknownAnalysisType type).

(** [config.severityFilter && config.severityFilter !== 'all'] *)
Definition filter_is_set (severityFilter : option string) : bool :=
  match severityFilter with
  | Some f => truthy_str f && negb (String.eqb f "all")
  | None => false
  end.

(** [r.severity === config.severityFilter] *)
Definition severity_matches (severityFilter : option string) (r : AnalysisResult.t) : bool :=
  match severityFilter with
  | Some f => String.eqb (Severity.str (AnalysisResult.severity r)) f
  | None => false
  end.

Definition counts_as_threat (r : AnalysisResult.t) : bool :=
  String.eqb (ResultType.str (AnalysisResult.type r)) "threat"
  || String.eqb (Severity.str (AnalysisResult.severity r)) "critical"
  || String.eqb (Severity.str (AnalysisResult.severity r)) "high".

Definition runAnalysis (data : list value) (config : AnalysisConfig.t) :
    Eng (list AnalysisResult.t) :=
  let* _ := emit analysisStarted in
  try_catch
    (let* startTime := Date_now in
     let* delay := Math_random in
     let* found := strategy data config in
     let filteredResults :=
       if filter_is_set (AnalysisConfig.severityFilter config)
       then List.filter (severity_matches (AnalysisConfig.severityFilter config)) found
       else found in
     let* self := get_this in
     let* _ := set_this (mkFields (results self) (isInitialized self)
                           (length (List.filter counts_as_threat filteredResults))) in
     let* finished := Date_now in
     let analysisTime := (finished - startTime)%Z in
     let* self := get_this in
     let* _ := set_this (mkFields filteredResults (isInitialized self) (threatCount self)) in
     let* _ := emit (analysisCompleted filteredResults analysisTime) in
     ret filteredResults)
    (fun error =>
       let* _ := emit (analysisError error) in
       throw error).

Definition getLatestResults : Eng (list AnalysisResult.t) :=
  let* self := get_this in ret (results self).

Definition getThreatCount : Eng nat :=
  let* self := get_this in ret (threatCount self).

(** The state in which the strategy of a run started in [st] begins: the start
    has been announced, the start time read and the delay drawn. *)
Definition strategy_start (st : St Event Fields) : St Event Fields :=
  mkSt (S (draws st)) (S (ticks st)) (emitted st ++ [analysisStarted]) (this st).

(** Every record of [data], taken in order from state [st], is classified and
    found not suspicious. *)
Fixpoint none_suspicious (data : list value) (st : St Event Fields) : Prop :=
  match data with
  | [] => True
  | item :: rest =>
      exists st', isSuspiciousActivity item st = (Ok false, st') /\ none_suspicious rest st'
  end.

(** [this.results = []; this.threatCount = 0; this.isInitialized = false] *)
Definition shutdown : Eng unit := set_this (mkFields [] false 0).

(** The findings [pushCanned] adds for a catalogue, from position [index] and
    from the clock reading number [t0] on. *)
Definition pushed (prefix : string) (kind : ResultType.t) (heading : string)
    (catalogue : list Canned) (index t0 : nat) : list AnalysisResult.t :=
  imap (fun i entry =>
          AnalysisResult.mk (prefix +:+ ReportGenerator.str_of_nat (index + i)) kind
            (heading +:+ c_type entry) (c_description entry) (c_severity entry)
            (c_confidence entry) (clock (t0 + i)) (c_evidence entry)
            (c_recommendations entry)) catalogue.

(** [r] is a finding of the threat-detection loop for the record at position [k]
    of [data]. *)
Definition detected_at (data : list value) (r : AnalysisResult.t) (k : nat) : Prop :=
  AnalysisResult.id r = "threat-" +:+ ReportGenerator.str_of_nat k /\
  AnalysisResult.type r = ResultType.threat /\
  AnalysisResult.title r = "Suspicious Activity Detected" /\
  (exists item, data !! k = Some item /\ AnalysisResult.evidence r = [item]) /\
  (exists draw, AnalysisResult.confidence r = ((7 # 10) + random draw * (3 # 10))%Q).

(** What is on record about a finding apart from its evidence. *)
Definition narrative (r : AnalysisResult.t) :
    string * ResultType.t * string * string * Severity.t * Q * Z * list string :=
  (AnalysisResult.id r, AnalysisResult.type r, AnalysisResult.title r,
   AnalysisResult.description r, AnalysisResult.severity r, AnalysisResult.confidence r,
   AnalysisResult.timestamp r, AnalysisResult.recommendations r).

End Engine.

(** A record the heuristics can read and describe: an object whose [content],
    when truthy, is a string, and whose [sourceIP], [destIP] and [name] a
    template literal can print. *)
Definition classifiable (item : value) : Prop :=
  exists props,
    item = VObj props /\
    (truthy (obj_get props "content") = true -> exists s, obj_get props "content" = VStr s) /\
    ReportGenerator.printable (obj_get props "sourceIP") = true /\
    ReportGenerator.printable (obj_get props "destIP") = true /\
    ReportGenerator.printable (obj_get props "name") = true.

Definition known_analyses : list string :=
  ["threat-detection"; "pattern-analysis"; "anomaly-detection"; "correlation-analysis"].

(** *** The severity filter as the specification words it *)

(** The findings whose severity is the filter value, in their order. *)
Definition of_severity (f : string) (found : list AnalysisResult.t) :
    list AnalysisResult.t :=
  filter (fun r => Severity.str (AnalysisResult.severity r) = f) found.

End AnalysisEngine.

(** ** Source registry ([DataSourceManager]) *)

Module SourceType.
Inductive t : Type := osint | network | threat | custom.
End SourceType.

Module Status.
Inductive t : Type := active | inactive | error.
End Status.

(** A [File]: its name and the text [file.text()] resolves to. *)
Module File.
Record t : Type := mk {
  name : string;
  text : string;
}.
End File.

Module DataSourceConfig.
Record t : Type := mk {
  name : string;
  type : SourceType.t;
  url : string;
  status : option Status.t;
  extra : JS.object;
}.
End DataSourceConfig.

Module DataSource.
(** The [config] payload: the configuration given to [addSource], or [{ file }]. *)
Inductive Payload : Type :=
| OfConfig (config : DataSourceConfig.t)
| OfFile (file : File.t).

Record t : Type := mk {
  id : string;
  name : string;
  type : SourceType.t;
  url : string;
  status : Status.t;
  lastUpdated : Z;
  config : Payload;
}.

(** [source.status = s] *)
Definition with_status (s : Status.t) (source : t) : t :=
  mk (id source) (name source) (type source) (url source) s (lastUpdated source)
    (config source).

(** [source.lastUpdated = d] *)
Definition with_lastUpdated (d : Z) (source : t) : t :=
  mk (id source) (name source) (type source) (url source) (status source) d
    (config source).

#[global] Instance inhabited : Inhabited t :=
  populate (mk EmptyString EmptyString SourceType.custom EmptyString Status.inactive 0
              (OfFile (File.mk EmptyString EmptyString))).
End DataSource.

(** [Partial<DataSource>]: the fields an update supplies. *)
Module Updates.
Record t : Type := mk {
  id : option string;
  name : option string;
  type : option SourceType.t;
  url : option string;
  status : option Status.t;
  lastUpdated : option Z;
  config : option DataSource.Payload;
}.

Definition none : t := mk None None None None None None None.
End Updates.

Module DataSourceManager.
Import JS Eff.

Inductive Event : Type :=
| initialized
| sourceAdded (source : DataSource.t)
| sourceUpdated (source : DataSource.t)
| sourceRemoved (source : DataSource.t)
| dataProcessed (sourceId : string) (data : list value).

(** The fields of a [DataSourceManager].  The [DataSource] objects live in
    [heap] and are referred to by position: the registry, the caller and the
    timer callbacks share them.  [timers] lists the references captured by the
    pending [setTimeout] callbacks, oldest first. *)
Record Fields : Type := mkFields {
  heap : list DataSource.t;
  sources : OMap.t nat;
  data : OMap.t (list value);
  isInitialized : bool;
  timers : list nat;
}.

Definition new : Fields := mkFields [] OMap.empty OMap.empty false [].

Definition InvalidJSON : JsError := Error "Invalid JSON format".
Definition InvalidXML : JsError := Error "Invalid XML format".
Definition UnsupportedFormat (extension : string) : JsError :=
  Error ("Unsupported file type: " +:+ extension).
Definition SourceNotFound (id : string) : JsError :=
  Error ("Source not found: " +:+ id).

(** [Object.assign(source, updates, { lastUpdated: now })] *)
Definition assign (updates : Updates.t) (now : Z) (source : DataSource.t) : DataSource.t :=
  DataSource.mk
    (default (DataSource.id source) (Updates.id updates))
    (default (DataSource.name source) (Updates.name updates))
    (default (DataSource.type source) (Updates.type updates))
    (default (DataSource.url source) (Updates.url updates))
    (default (DataSource.status source) (Updates.status updates))
    now
    (default (DataSource.config source) (Updates.config updates)).

Section Manager.
Context `{Runtime}.

Abbreviation Mgr := (M Event Fields).

(** *** The object store *)

(** A new object. *)
Definition alloc (source : DataSource.t) : Mgr nat :=
  let* self := get_this in
  let* _ := set_this (mkFields (heap self ++ [source]) (sources self) (data self)
                        (isInitialized self) (timers self)) in
  ret (length (heap self)).

(** The object behind a reference. *)
Definition read (ref : nat) : Mgr DataSource.t :=
  let* self := get_this in ret (heap self !!! ref).

(** An assignment to fields of the object behind a reference. *)
Definition write (ref : nat) (f : DataSource.t -> DataSource.t) : Mgr unit :=
  let* self := get_this in
  set_this (mkFields (alter f ref (heap self)) (sources self) (data self)
              (isInitialized self) (timers self)).

(** [this.sources.set(id, source)] *)
Definition sources_set (id : string) (ref : nat) : Mgr unit :=
  let* self := get_this in
  set_this (mkFields (heap self) (OMap.set id ref (sources self)) (data self)
              (isInitialized self) (timers self)).

(** [this.data.set(id, records)] *)
Definition data_set (id : string) (records : list value) : Mgr unit :=
  let* self := get_this in
  set_this (mkFields (heap self) (sources self) (OMap.set id records (data self))
              (isInitialized self) (timers self)).

(** [setTimeout(() => this.loadSampleData(source.id, source.type), 1000)] *)
Definition setTimeout (ref : nat) : Mgr unit :=
  let* self := get_this in
  set_this (mkFields (heap self) (sources self) (data self) (isInitialized self)
              (timers self ++ [ref])).

Definition generateId : Mgr string :=
  let* r := Math_random in
  ret (substring 2 9 (toString36 r)).

(** *** The record normaliser *)

Definition parseJSON (text : string) : Res (list value) :=
  match JSON_parse text with
  | Some (VArr elems) => Ok elems
  | Some parsed => Ok [parsed]
  | None => Throw InvalidJSON
  end.

(** The record of one matched element: a field per child element. *)
Definition xml_record (item : Node) : value :=
  VObj (fold_left (fun obj child => obj_set obj (tagName_of child) (textContent child))
          (children item) []).

Definition parseXML (text : string) : Res (list value) :=
  let doc := parseFromString text in
  match querySelectorAll ["parsererror"] doc with
  | _ :: _ => Throw InvalidXML
  | [] => Ok (map xml_record (querySelectorAll ["item"; "record"; "entry"] doc))
  end.

(** [lines.map((line, index) => ({ id: index + 1, content: line.trim(),
    timestamp: new Date().toISOString() }))], from position [index] on. *)
Fixpoint text_records (lines : list string) (index : nat) : Mgr (list value) :=
  match lines with
  | [] => ret []
  | line :: rest =>
      let* now := Date_now in
      let* records := text_records rest (S index) in
      ret (VObj [("id", VNum (inject_Z (Z.of_nat (index + 1))));
                 ("content", VStr (trim line));
                 ("timestamp", VStr (toISOString now))] :: records)
  end.

Definition parseText (text : string) : Mgr (list value) :=
  text_records (Csv.lines_of text) 0.

(** [file.name.split('.').pop()?.toLowerCase()] *)
Definition extension_of (file : File.t) : string :=
  toLowerCase (pop (split "."%char (File.name file))).

(** A string without a dot. *)
Definition dotless (s : string) : bool :=
  negb (existsb (Ascii.eqb "."%char) (list_ascii_of_string s)).

Definition parseFile (file : File.t) : Mgr (list value) :=
  let text := File.text file in
  let extension := extension_of file in
  if String.eqb extension "json" then lift (parseJSON text)
  else if String.eqb extension "csv" then lift (Csv.parseCSV text)
  else if String.eqb extension "xml" then lift (parseXML text)
  else if String.eqb extension "txt" then parseText text
  else throw (UnsupportedFormat extension).

(** *** Demonstration records *)

(** [new Date(Date.now() - ago).toISOString()] *)
Definition stamp_ago (ago : Z) : Mgr value :=
  let* now := Date_now in ret (VStr (toISOString (now - ago))).

Definition generateOSINTData : Mgr (list value) :=
  let* t1 := stamp_ago 3600000 in
  let* t2 := stamp_ago 7200000 in
  let* t3 := stamp_ago 10800000 in
  ret [ VObj [("id", VStr "1"); ("source", VStr "Twitter");
              ("content", VStr "Suspicious activity reported in sector 7");
              ("timestamp", t1); ("sentiment", VStr "negative");
              ("confidence", VNum (85 # 100))];
        VObj [("id", VStr "2"); ("source", VStr "News Feed");
              ("content", VStr "Cybersecurity incident at major corporation");
              ("timestamp", t2); ("sentiment", VStr "negative");
              ("confidence", VNum (92 # 100))];
        VObj [("id", VStr "3"); ("source", VStr "Forum");
              ("content", VStr "New vulnerability discovered in popular software");
              ("timestamp", t3); ("sentiment", VStr "neutral");
              ("confidence", VNum (78 # 100))] ].

Definition generateNetworkData : Mgr (list value) :=
  let* t1 := stamp_ago 1800000 in
  let* t2 := stamp_ago 3600000 in
  let* t3 := stamp_ago 5400000 in
  ret [ VObj [("id", VStr "1"); ("timestamp", t1);
              ("sourceIP", VStr "192.168.1.100"); ("destIP", VStr "10.0.0.50");
              ("port", VNum (inject_Z 443)); ("protocol", VStr "HTTPS");
              ("bytes", VNum (inject_Z 2048)); ("status", VStr "allowed")];
        VObj [("id", VStr "2"); ("timestamp", t2);
              ("sourceIP", VStr "203.0.113.45"); ("destIP", VStr "192.168.1.10");
              ("port", VNum (inject_Z 22)); ("protocol", VStr "SSH");
              ("bytes", VNum (inject_Z 512)); ("status", VStr "blocked")];
        VObj [("id", VStr "3"); ("timestamp", t3);
              ("sourceIP", VStr "198.51.100.23"); ("destIP", VStr "192.168.1.25");
              ("port", VNum (inject_Z 80)); ("protocol", VStr "HTTP");
              ("bytes", VNum (inject_Z 1024)); ("status", VStr "allowed")] ].

Definition generateThreatData : Mgr (list value) :=
  let* t1 := stamp_ago 7200000 in
  let* t2 := stamp_ago 14400000 in
  ret [ VObj [("id", VStr "1"); ("type", VStr "malware");
              ("name", VStr "Trojan.Generic.123456"); ("severity", VStr "high");
              ("description", VStr "Banking trojan targeting financial institutions");
              ("iocs", VArr [VStr "hash:abc123"; VStr "domain:malicious.example.com"]);
              ("timestamp", t1)];
        VObj [("id", VStr "2"); ("type", VStr "phishing");
              ("name", VStr "Phishing Campaign Alpha"); ("severity", VStr "medium");
              ("description", VStr "Email phishing campaign targeting corporate users");
              ("iocs", VArr [VStr "email:phishing@example.com"; VStr "url:fake-bank.com"]);
              ("timestamp", t2)] ].

Definition generateGenericData : Mgr (list value) :=
  let* now := Date_now in
  let* r := Math_random in
  ret [ VObj [("id", VStr "1"); ("timestamp", VStr (toISOString now));
              ("type", VStr "event"); ("description", VStr "Generic data entry");
              ("value", VNum (r * 100)%Q)] ].

(** *** The registry *)

Definition initialize : Mgr unit :=
  let* self := get_this in
  if isInitialized self then ret tt
  else
    let* _ := set_this (mkFields (heap self) (sources self) (data self) true
                          (timers self)) in
    emit initialized.

Definition loadSampleData (sourceId : string) (type : SourceType.t) : Mgr unit :=
  let* sampleData :=
    match type with
    | SourceType.osint => generateOSINTData
    | SourceType.network => generateNetworkData
    | SourceType.threat => generateThreatData
    | SourceType.custom => generateGenericData
    end in
  let* _ := data_set sourceId sampleData in
  let* _ := emit (dataProcessed sourceId sampleData) in
  let* self := get_this in
  match OMap.get sourceId (sources self) with
  | Some source =>
      let* now := Date_now in
      let* _ := write source (DataSource.with_lastUpdated now) in
      let* s := read source in
      emit (sourceUpdated s)
  | None => ret tt
  end.

Definition addSource (config : DataSourceConfig.t) : Mgr DataSource.t :=
  let* id := generateId in
  let* now := Date_now in
  let* source :=
    alloc (DataSource.mk id (DataSourceConfig.name config) (DataSourceConfig.type config)
             (DataSourceConfig.url config)
             (default Status.inactive (DataSourceConfig.status config))
             now (DataSource.OfConfig config)) in
  let* s := read source in
  let* _ := sources_set (DataSource.id s) source in
  let* _ := data_set (DataSource.id s) [] in
  let* _ := (match DataSource.status s with
             | Status.active => setTimeout source
             | _ => ret tt
             end) in
  let* _ := emit (sourceAdded s) in
  ret s.

Definition addFileSource (file : File.t) : Mgr DataSource.t :=
  let* id := generateId in
  let* now := Date_now in
  let* source :=
    alloc (DataSource.mk id (File.name file) SourceType.custom
             ("file://" +:+ File.name file) Status.active now (DataSource.OfFile file)) in
  let* s := read source in
  let* _ := sources_set (DataSource.id s) source in
  try_catch
    (let* records := parseFile file in
     let* s := read source in
     let* _ := data_set (DataSource.id s) records in
     let* _ := write source (DataSource.with_status Status.active) in
     let* s := read source in
     let* _ := emit (sourceAdded s) in
     let* _ := emit (dataProcessed (DataSource.id s) records) in
     ret s)
    (fun error =>
       let* _ := write source (DataSource.with_status Status.error) in
       let* s := read source in
       let* _ := emit (sourceAdded s) in
       throw error).

Definition updateSource (id : string) (updates : Updates.t) : Mgr unit :=
  let* self := get_this in
  match OMap.get id (sources self) with
  | None => throw (SourceNotFound id)
  | Some source =>
      let* now := Date_now in
      let* _ := write source (assign updates now) in
      let* s := read source in
      emit (sourceUpdated s)
  end.

Definition removeSource (id : string) : Mgr unit :=
  let* self := get_this in
  match OMap.get id (sources self) with
  | None => throw (SourceNotFound id)
  | Some source =>
      let* _ := set_this (mkFields (heap self) (OMap.delete id (sources self))
                            (OMap.delete id (data self)) (isInitialized self)
                            (timers self)) in
      let* s := read source in
      emit (sourceRemoved s)
  end.

Definition getSources : Mgr (list DataSource.t) :=
  let* self := get_this in
  ret (map (fun ref => heap self !!! ref) (OMap.values (sources self))).

Definition getSource (id : string) : Mgr (option DataSource.t) :=
  let* self := get_this in
  ret (match OMap.get id (sources self) with
       | Some ref => Some (heap self !!! ref)
       | None => None
       end).

(** [this.data.get(id) || []]: an array is truthy. *)
Definition getSourceData (id : string) : Mgr (list value) :=
  let* self := get_this in
  ret (match OMap.get id (data self) with
       | Some records => records
       | None => []
       end).

Definition getAllData : Mgr (list value) :=
  let* self := get_this in
  ret (fold_left (fun allData records => allData ++ records) (OMap.values (data self)) []).

Definition shutdown : Mgr unit :=
  let* self := get_this in
  set_this (mkFields (heap self) OMap.empty OMap.empty false (timers self)).

(** The oldest pending timer fires. *)
Definition timeout : Mgr unit :=
  let* self := get_this in
  match timers self with
  | [] => ret tt
  | source :: pending =>
      let* _ := set_this (mkFields (heap self) (sources self) (data self)
                            (isInitialized self) pending) in
      let* s := read source in
      loadSampleData (DataSource.id s) (DataSource.type s)
  end.

(** *** The registry as a state machine *)

(** What can happen to a registry: a call of one of its public methods, or a
    pending timer firing. *)
Inductive Step : Type :=
| Initialize
| AddSource (config : DataSourceConfig.t)
| AddFileSource (file : File.t)
| UpdateSource (id : string) (updates : Updates.t)
| RemoveSource (id : string)
| Timeout
| Shutdown.

Definition run (step : Step) (st : St Event Fields) : St Event Fields :=
  match step with
  | Initialize => snd (initialize st)
  | AddSource config => snd (addSource config st)
  | AddFileSource file => snd (addFileSource file st)
  | UpdateSource id updates => snd (updateSource id updates st)
  | RemoveSource id => snd (removeSource id st)
  | Timeout => snd (timeout st)
  | Shutdown => snd (shutdown st)
  end.

(** A new manager: nothing consumed, nothing emitted. *)
Definition initial (st : St Event Fields) : Prop :=
  this st = new /\ emitted st = [].

(** The states reached from a new manager by steps that are [allowed] in the
    state they are taken in. *)
Inductive reachable (allowed : St Event Fields -> Step -> Prop) :
    St Event Fields -> Prop :=
| reachable_initial st : initial st -> reachable allowed st
| reachable_step st step :
    reachable allowed st -> allowed st step -> reachable allowed (run step st).

Definition any_step (st : St Event Fields) (step : Step) : Prop := True.

(** The steps that do not assign the [id] field of a source. *)
Definition keeps_id (step : Step) : Prop :=
  match step with
  | UpdateSource _ updates => Updates.id updates = None
  | _ => True
  end.

Definition keeping_ids (st : St Event Fields) (step : Step) : Prop := keeps_id step.

(** The object [ref] is registered under the key [key]. *)
Definition registered (st : St Event Fields) (key : string) (ref : nat) : Prop :=
  OMap.get key (sources (this st)) = Some ref.

(** The [id] field of the object [ref]. *)
Definition held_id (st : St Event Fields) (ref : nat) : string :=
  DataSource.id (heap (this st) !!! ref).

(** The identifier the next registration will generate. *)
Definition next_id (st : St Event Fields) : string :=
  substring 2 9 (toString36 (random (draws st))).

(** The source object [addFileSource] creates in [st], with a given status. *)
Definition file_source (file : File.t) (st : St Event Fields) (status : Status.t) :
    DataSource.t :=
  DataSource.mk (next_id st) (File.name file) SourceType.custom
    ("file://" +:+ File.name file) status (clock (ticks st)) (DataSource.OfFile file).

(** How one step changes the objects and the map of sources: not at all, by
    registering a new object under its identifier, by removing a key, by
    removing all keys, or by assigning to fields of one object. *)
Inductive change (step : Step) (st st' : St Event Fields) : Prop :=
| unchanged :
    heap (this st') = heap (this st) ->
    sources (this st') = sources (this st) ->
    change step st st'
| registers (source : DataSource.t) :
    heap (this st') = heap (this st) ++ [source] ->
    sources (this st') =
      OMap.set (DataSource.id source) (length (heap (this st))) (sources (this st)) ->
    change step st st'
| unregisters (id : string) :
    heap (this st') = heap (this st) ->
    sources (this st') = OMap.delete id (sources (this st)) ->
    change step st st'
| clears :
    heap (this st') = heap (this st) ->
    sources (this st') = OMap.empty ->
    change step st st'
| assigns (ref : nat) (f : DataSource.t -> DataSource.t) :
    heap (this st') = alter f ref (heap (this st)) ->
    sources (this st') = sources (this st) ->
    (keeps_id step -> forall source, DataSource.id (f source) = DataSource.id source) ->
    change step st st'.

(** The registry is well formed: no key occurs twice, every registered
    reference denotes an object, and no object is registered under two keys. *)
Definition well_formed (st : St Event Fields) : Prop :=
  NoDup (OMap.keys (sources (this st))) /\
  (forall key ref, registered st key ref -> (ref < length (heap (this st)))%nat) /\
  (forall key1 key2 ref, registered st key1 ref -> registered st key2 ref -> key1 = key2).

(** An identifier is new when it names no source and no record set. *)
Definition fresh (st : St Event Fields) (id : string) : Prop :=
  OMap.get id (sources (this st)) = None /\ OMap.get id (data (this st)) = None.

(** The steps of an orderly history: a registration generates a new identifier,
    no update assigns [id], and a timer fires only while its source is still
    registered under the [id] it holds. *)
Definition orderly (st : St Event Fields) (step : Step) : Prop :=
  match step with
  | AddSource _ | AddFileSource _ => fresh st (next_id st)
  | UpdateSource _ updates => Updates.id updates = None
  | Timeout =>
      match timers (this st) with
      | [] => True
      | ref :: _ => registered st (held_id st ref) ref
      end
  | _ => True
  end.

(** How one step changes the two maps and the pending timers. *)
Inductive effect (step : Step) (st st' : St Event Fields) : Prop :=
| effect_none :
    sources (this st') = sources (this st) ->
    data (this st') = data (this st) ->
    timers (this st') = timers (this st) ->
    effect step st st'
| effect_addSource config (scheduled : list nat) :
    step = AddSource config ->
    length (heap (this st')) = S (length (heap (this st))) ->
    sources (this st') =
      OMap.set (next_id st) (length (heap (this st))) (sources (this st)) ->
    data (this st') = OMap.set (next_id st) [] (data (this st)) ->
    timers (this st') = timers (this st) ++ scheduled ->
    scheduled = [] \/ scheduled = [length (heap (this st))] ->
    effect step st st'
| effect_addFileSource_ok file records :
    step = AddFileSource file ->
    sources (this st') =
      OMap.set (next_id st) (length (heap (this st))) (sources (this st)) ->
    data (this st') = OMap.set (next_id st) records (data (this st)) ->
    timers (this st') = timers (this st) ->
    effect step st st'
| effect_addFileSource_error file :
    step = AddFileSource file ->
    sources (this st') =
      OMap.set (next_id st) (length (heap (this st))) (sources (this st)) ->
    data (this st') = data (this st) ->
    timers (this st') = timers (this st) ->
    effect step st st'
| effect_removeSource id :
    sources (this st') = OMap.delete id (sources (this st)) ->
    data (this st') = OMap.delete id (data (this st)) ->
    timers (this st') = timers (this st) ->
    effect step st st'
| effect_timeout ref pending sampleData :
    step = Timeout ->
    timers (this st) = ref :: pending ->
    sources (this st') = sources (this st) ->
    data (this st') = OMap.set (held_id st ref) sampleData (data (this st)) ->
    timers (this st') = pending ->
    effect step st st'
| effect_shutdown :
    sources (this st') = OMap.empty ->
    data (this st') = OMap.empty ->
    timers (this st') = timers (this st) ->
    effect step st st'.

(** The two maps agree: every key of [data] is a key of [sources], in the same
    relative order, and the source of every pending timer that is still
    registered has a record set. *)
Definition aligned (st : St Event Fields) : Prop :=
  OMap.keys (data (this st)) `sublist_of` OMap.keys (sources (this st)) /\
  NoDup (OMap.keys (data (this st))) /\
  (forall ref, ref ∈ timers (this st) -> (ref < length (heap (this st)))%nat) /\
  (forall ref key, ref ∈ timers (this st) -> registered st key ref ->
     key ∈ OMap.keys (data (this st))).

(** The stored records of a source; none when nothing is stored. *)
Definition records_of (st : St Event Fields) (key : string) : list value :=
  default [] (OMap.get key (data (this st))).

(** The records of every registered source, sources in the order of their
    registration. *)
Definition registered_records (st : St Event Fields) : list value :=
  concat (map (records_of st) (OMap.keys (sources (this st)))).

(** The state in which [addFileSource], called in [st], starts to parse. *)
Definition parse_start (file : File.t) (st : St Event Fields) : St Event Fields :=
  let self := this st in
  mkSt (S (draws st)) (S (ticks st)) (emitted st)
    (mkFields
       (heap self ++
        [DataSource.mk (next_id st) (File.name file) SourceType.custom
           ("file://" +:+ File.name file) Status.active (clock (ticks st))
           (DataSource.OfFile file)])
       (OMap.set (next_id st) (length (heap self)) (sources self))
       (data self) (isInitialized self) (timers self)).

End Manager.

End DataSourceManager.

(** ** The event emitter ([utils/EventEmitter]) *)

Module EventEmitter.
Import JS.

(** A listener is a function object; the number is its identity, which is what
    [indexOf] compares. *)
Definition Listener : Type := nat.

(** The field [events]: the listeners of each event, in registration order. *)
Definition Events : Type := OMap.t (list Listener).

Definition new : Events := OMap.empty.

(** [this.events.has(event)] *)
Definition has (event : string) (events : Events) : bool :=
  match OMap.get event events with
  | Some _ => true
  | None => false
  end.

(** [listeners.indexOf(listener)]; [None] is [-1]. *)
Fixpoint indexOf (listener : Listener) (listeners : list Listener) : option nat :=
  match listeners with
  | [] => None
  | l :: rest =>
      if Nat.eqb l listener then Some 0%nat
      else match indexOf listener rest with
           | Some index => Some (S index)
           | None => None
           end
  end.

(** [listeners.splice(index, 1)] *)
Definition splice1 (index : nat) (listeners : list Listener) : list Listener :=
  firstn index listeners ++ skipn (S index) listeners.

Definition on (event : string) (listener : Listener) (events : Events) : Events :=
  let events1 := if has event events then events else OMap.set event [] events in
  match OMap.get event events1 with
  | Some listeners => OMap.set event (listeners ++ [listener]) events1
  | None => events1
  end.

Definition off (event : string) (listener : Listener) (events : Events) : Events :=
  match OMap.get event events with
  | Some listeners =>
      match indexOf listener listeners with
      | Some index => OMap.set event (splice1 index listeners) events
      | None => events
      end
  | None => events
  end.

(** [removeAllListeners(event?)]: [if (event)] is false for an absent argument
    and for the empty string. *)
Definition removeAllListeners (event : option string) (events : Events) : Events :=
  match event with
  | Some name => if truthy_str name then OMap.delete name events else OMap.empty
  | None => OMap.empty
  end.

(** The listeners [emit] would call for an event. *)
Definition listeners_of (event : string) (events : Events) : list Listener :=
  default [] (OMap.get event events).

Section Emit.
(** What calling a listener does: it acts on a world [W] of its own (it does not
    reach back into the emitter) and returns or raises. *)
Context {W : Type} (call : Listener -> list value -> W -> Res unit * W).

(** What [console.error] is given. *)
Definition report (event : string) (error : JsError) : string * JsError :=
  ("Error in event listener for " +:+ event +:+ ":", error).

(** [listeners.forEach(listener => { try { listener(...args) } catch (error) {
    console.error(...) } })]; [logged] is the console. *)
Fixpoint call_each (event : string) (listeners : list Listener) (args : list value)
    (w : W) (logged : list (string * JsError)) : W * list (string * JsError) :=
  match listeners with
  | [] => (w, logged)
  | listener :: rest =>
      match call listener args w with
      | (Ok _, w') => call_each event rest args w' logged
      | (Throw error, w') => call_each event rest args w' (logged ++ [report event error])
      end
  end.

Definition emit (event : string) (args : list value) (events : Events) (w : W)
    (logged : list (string * JsError)) : W * list (string * JsError) :=
  match OMap.get event events with
  | Some listeners => call_each event listeners args w logged
  | None => (w, logged)
  end.

End Emit.

End EventEmitter.

(** ** The application ([core/IntelligenceReportGenerator]) *)

Module IntelligenceReportGenerator.
Import JS Eff.

(** The components the application owns, each with the events it has emitted,
    and the host they share: there is one [Math.random] and one clock, of which
    [host_draws] and [host_ticks] count the values handed out so far.  A
    component that is called starts from the host's counters, whatever
    counters its own state was left with.  The listeners the application
    registers on the components only read them and drive the UI, which is
    left out. *)
Record App : Type := mkApp {
  host_draws : nat;
  host_ticks : nat;
  dataSourceManager : St DataSourceManager.Event DataSourceManager.Fields;
  analysisEngine : St AnalysisEngine.Event AnalysisEngine.Fields;
  reportGenerator : St ReportGenerator.Event ReportGenerator.Fields;
  isInitialized : bool;
}.

(** The state a component is called in. *)
Definition enter {E C : Type} (app : App) (component : St E C) : St E C :=
  mkSt (host_draws app) (host_ticks app) (emitted component) (this component).

Section App.
Context `{Runtime} `{ReportGenerator.Encoders}.

Definition addDataSource (config : DataSourceConfig.t) (app : App) : Res unit * App :=
  match DataSourceManager.addSource config (enter app (dataSourceManager app)) with
  | (r, manager) =>
      (match r with Ok _ => Ok tt | Throw e => Throw e end,
       mkApp (draws manager) (ticks manager) manager (analysisEngine app)
         (reportGenerator app) (isInitialized app))
  end.

Definition runAnalysis (config : AnalysisConfig.t) (app : App) :
    Res (list AnalysisResult.t) * App :=
  match fst (DataSourceManager.getAllData (enter app (dataSourceManager app))) with
  | Throw e => (Throw e, app)
  | Ok data =>
      match AnalysisEngine.runAnalysis data config (enter app (analysisEngine app)) with
      | (r, engine) =>
          (r, mkApp (draws engine) (ticks engine) (dataSourceManager app) engine
                (reportGenerator app) (isInitialized app))
      end
  end.

Definition generateReport (config : ReportConfig.t) (app : App) : Res Report.t * App :=
  match fst (AnalysisEngine.getLatestResults (enter app (analysisEngine app))) with
  | Throw e => (Throw e, app)
  | Ok analysisResults =>
      match fst (DataSourceManager.getAllData (enter app (dataSourceManager app))) with
      | Throw e => (Throw e, app)
      | Ok data =>
          match ReportGenerator.generateReport config analysisResults data
                  (enter app (reportGenerator app)) with
          | (r, reports) =>
              (r, mkApp (draws reports) (ticks reports) (dataSourceManager app)
                    (analysisEngine app) reports (isInitialized app))
          end
      end
  end.

Definition getDataSources (app : App) : Res (list DataSource.t) :=
  fst (DataSourceManager.getSources (enter app (dataSourceManager app))).

Definition getAnalysisResults (app : App) : Res (list AnalysisResult.t) :=
  fst (AnalysisEngine.getLatestResults (enter app (analysisEngine app))).

Definition getReports (app : App) : Res (list Report.t) :=
  fst (ReportGenerator.getReports (enter app (reportGenerator app))).

Definition shutdown (app : App) : Res unit * App :=
  match DataSourceManager.shutdown (enter app (dataSourceManager app)) with
  | (Throw e, manager) =>
      (Throw e, mkApp (host_draws app) (host_ticks app) manager (analysisEngine app)
                  (reportGenerator app) (isInitialized app))
  | (Ok _, manager) =>
      match AnalysisEngine.shutdown (enter app (analysisEngine app)) with
      | (Throw e, engine) =>
          (Throw e, mkApp (host_draws app) (host_ticks app) manager engine
                      (reportGenerator app) (isInitialized app))
      | (Ok _, engine) =>
          match ReportGenerator.shutdown (enter app (reportGenerator app)) with
          | (Throw e, reports) =>
              (Throw e, mkApp (host_draws app) (host_ticks app) manager engine reports
                          (isInitialized app))
          | (Ok _, reports) =>
              (Ok tt, mkApp (host_draws app) (host_ticks app) manager engine reports false)
          end
      end
  end.

End App.

End IntelligenceReportGenerator.

(** ** A concrete host, for the closed examples *)

Module Demo.
Import JS.

(** The [n]-th random number is [(n+1)/(n+10)]; it prints in base 36 as ["0.src"]
    followed by [n+1], so that successive identifiers are ["src1"], ["src2"], ... *)
Definition runtime : Runtime := {|
  random := fun n => (Z.of_nat (n + 1) # Pos.of_nat (n + 10))%Q;
  clock := fun n => (1700000000000 + Z.of_nat n)%Z;
  toString36 := fun q => "0.src" +:+ ReportGenerator.str_of_nat (Z.to_nat (Qnum q));
  toISOString := fun _ => "2023-11-14T22:13:20.000Z";
  toFixed := fun _ _ => "0.0";
  toLocaleString := fun _ => "11/14/2023, 10:13:20 PM";
  NumberToString := fun _ => "0";
  JSON_parse := fun _ => None;
  parseFromString := fun _ => Element "parsererror" [];
|}.

Definition encoders : ReportGenerator.Encoders := {|
  ReportGenerator.generatePDF := fun _ => Ok "blob:pdf";
  ReportGenerator.generateHTML := fun _ => Ok "blob:html";
  ReportGenerator.generateJSON := fun _ _ _ _ => Ok "blob:json";
|}.

(** A finding of the given severity. *)
Definition finding (s : Severity.t) : AnalysisResult.t :=
  AnalysisResult.mk "f" ResultType.threat "t" "d" s (1 # 2) 0 [] [].

Definition reportGenerator0 : Eff.St ReportGenerator.Event ReportGenerator.Fields :=
  Eff.mkSt 0 0 [] ReportGenerator.new.

Definition analysisEngine0 : Eff.St AnalysisEngine.Event AnalysisEngine.Fields :=
  Eff.mkSt 0 0 [] AnalysisEngine.new.

Definition dataSourceManager0 : Eff.St DataSourceManager.Event DataSourceManager.Fields :=
  Eff.mkSt 0 0 [] DataSourceManager.new.

Definition osintFeed : DataSourceConfig.t :=
  DataSourceConfig.mk "OSINT Feed Alpha" SourceType.osint
    "https://api.example.com/osint/alpha" (Some Status.active) [].

Definition networkLogs : DataSourceConfig.t :=
  DataSourceConfig.mk "Network Security Logs" SourceType.network
    "internal://network-logs" (Some Status.active) [].

(** Two feeds are registered, as ["src1"] and ["src2"]. *)
Definition twoFeeds : Eff.St DataSourceManager.Event DataSourceManager.Fields :=
  @DataSourceManager.run runtime (DataSourceManager.AddSource networkLogs)
    (@DataSourceManager.run runtime (DataSourceManager.AddSource osintFeed)
       dataSourceManager0).

(** [updateSource('src1', { id: 'src2' })] *)
Definition renamed : Eff.St DataSourceManager.Event DataSourceManager.Fields :=
  @DataSourceManager.run runtime
    (DataSourceManager.UpdateSource "src1"
       (Updates.mk (Some "src2") None None None None None None))
    twoFeeds.

(** A feed is registered, removed within the second, and its timer fires. *)
Definition registeredFeed : Eff.St DataSourceManager.Event DataSourceManager.Fields :=
  @DataSourceManager.run runtime (DataSourceManager.AddSource osintFeed) dataSourceManager0.

Definition removedFeed : Eff.St DataSourceManager.Event DataSourceManager.Fields :=
  @DataSourceManager.run runtime (DataSourceManager.RemoveSource "src1") registeredFeed.

Definition afterTimer : Eff.St DataSourceManager.Event DataSourceManager.Fields :=
  @DataSourceManager.run runtime DataSourceManager.Timeout removedFeed.

(** The same feed, [shutdown] within the second, and the timer. *)
Definition afterShutdownTimer : Eff.St DataSourceManager.Event DataSourceManager.Fields :=
  @DataSourceManager.run runtime DataSourceManager.Timeout
    (@DataSourceManager.run runtime DataSourceManager.Shutdown registeredFeed).

(** [name,value / a,1 / b,2] *)
Definition csv_text : string :=
  "name,value" +:+ ReportGenerator.nl +:+ "a,1" +:+ ReportGenerator.nl +:+ "b,2".


(** [__proto__,a / x,y] *)
Definition proto_csv : string := "__proto__,a" +:+ ReportGenerator.nl +:+ "x,y".

(** A connection log entry no rule objects to. *)
Definition quietRecords : list value :=
  [ VObj [("id", VStr "1"); ("sourceIP", VStr "192.168.1.100"); ("destIP", VStr "10.0.0.50");
          ("port", VNum (inject_Z 443)); ("status", VStr "allowed")] ].


(** Two connection log entries. *)
Definition networkRecords : list value :=
  [ VObj [("id", VStr "1"); ("sourceIP", VStr "192.168.1.100"); ("destIP", VStr "10.0.0.50");
          ("port", VNum (inject_Z 443)); ("status", VStr "allowed")];
    VObj [("id", VStr "2"); ("sourceIP", VStr "203.0.113.45"); ("destIP", VStr "192.168.1.10");
          ("port", VNum (inject_Z 22)); ("status", VStr "blocked")] ].

(** The application over new components. *)
Definition app0 : IntelligenceReportGenerator.App :=
  IntelligenceReportGenerator.mkApp 0 0 dataSourceManager0 analysisEngine0 reportGenerator0
    false.

End Demo.


(* ================================================================== *)
(** * Properties *)
(* ================================================================== *)

Section CsvFacts.
Import JS Csv.

Lemma truthy_str_not_empty s : truthy_str s = negb (String.eqb s EmptyString).
Proof. by destruct s. Qed.

Lemma lines_of_non_blank text : lines_of text = non_blank_lines text.
Proof.
  unfold lines_of, non_blank_lines, blank.
  apply filter_ext. intros line. apply truthy_str_not_empty.
Qed.

End CsvFacts.

Section CsvProofs.
Import JS Csv.

Lemma value_or_empty_nth values index :
  value_or_empty values index = nth index values EmptyString.
Proof.
  unfold value_or_empty.
  revert index; induction values as [|v values IH]; intros [|index]; simpl;
    try done; by destruct v.
Qed.

Lemma fit_nil n : fit (S n) [] = EmptyString :: fit n [].
Proof. unfold fit. simpl. by rewrite Nat.sub_0_r. Qed.

Lemma fit_cons n v values : fit (S n) (v :: values) = v :: fit n values.
Proof. done. Qed.

Lemma zipped_cons header headers values :
  zipped (header :: headers) values =
    (header, hd EmptyString values) :: zipped headers (tl values).
Proof.
  unfold zipped. destruct values as [|v values]; simpl length.
  - by rewrite fit_nil.
  - by rewrite fit_cons.
Qed.

Lemma hd_skipn {A} (d : A) i (l : list A) : hd d (skipn i l) = nth i l d.
Proof. revert i; induction l; intros [|i]; simpl; auto. Qed.

Lemma tl_skipn {A} i (l : list A) : tl (skipn i l) = skipn (S i) l.
Proof. revert i; induction l; intros [|i]; simpl; auto. Qed.

(** The indexed [forEach] assigns the zipped fields in order. *)
Lemma fill_row_zipped headers : forall index values row,
  fill_row headers index values row =
    fold_left (fun o kv => obj_set o (fst kv) (snd kv))
      (zipped headers (skipn index values)) row.
Proof.
  induction headers as [|header headers IH]; intros index values row; [done|].
  rewrite zipped_cons. simpl. rewrite IH, value_or_empty_nth, hd_skipn, tl_skipn.
  done.
Qed.

Lemma with_field_cases o k v :
  with_field o k v = if obj_has o k then obj_replace o k v else o ++ [(k, v)].
Proof.
  induction o as [|[k' v'] o IH]; [done|].
  unfold obj_has in *. cbn [with_field obj_replace existsb fst app].
  destruct (String.eqb k' k); cbn [orb]; [done|].
  rewrite IH. by destruct (existsb _ o).
Qed.

(** On an ordinary property name the assignment is the plain update. *)
Lemma obj_set_plain o k s : plain k = true -> obj_set o k s = with_field o k (VStr s).
Proof.
  unfold plain, obj_set. rewrite with_field_cases.
  destruct (String.eqb k "__proto__"); [done|].
  by destruct (array_index k).
Qed.

Lemma fold_obj_set_plain (fields : list (string * string)) : forall o,
  Forall (fun kv => plain (fst kv) = true) fields ->
  fold_left (fun o kv => obj_set o (fst kv) (snd kv)) fields o =
    fold_left (fun o kv => with_field o (fst kv) (VStr (snd kv))) fields o.
Proof.
  induction fields as [|kv fields IH]; intros o Hall; [done|].
  inversion_clear Hall as [|? ? Hkv Hall']. simpl.
  by rewrite obj_set_plain, IH.
Qed.

(** The counting loop visits the lines from position [i] on, in order. *)
Lemma rows_loop_map n : forall lines headers i data,
  (length lines <= i + n)%nat ->
  rows_loop n lines headers i data = data ++ map (row_of_line headers) (skipn i lines).
Proof.
  induction n as [|n IH]; intros lines headers i data Hlen; simpl.
  - rewrite skipn_all2 by lia. by rewrite app_nil_r.
  - destruct (lines !! i) as [line|] eqn:Hi.
    + rewrite IH by lia.
      rewrite <- tl_skipn.
      assert (Hsk : skipn i lines = line :: tl (skipn i lines)).
      { clear -Hi. revert i Hi; induction lines as [|l lines IHl]; intros [|i] Hi;
          simpl in *; try done; [congruence | by apply IHl]. }
      rewrite Hsk at 2. simpl. by rewrite <- app_assoc.
    + apply lookup_ge_None in Hi. rewrite skipn_all2 by lia. by rewrite app_nil_r.
Qed.

(** What the zipped fields are: the header names, each with the value at its
    position, or the empty string where the row has none. *)
Lemma zipped_names headers values : map fst (zipped headers values) = headers.
Proof.
  revert values; induction headers as [|h headers IH]; intros values; [done|].
  rewrite zipped_cons. simpl. by rewrite IH.
Qed.

Lemma zipped_values headers values i :
  (i < length headers)%nat ->
  map snd (zipped headers values) !! i = Some (nth i values EmptyString).
Proof.
  revert values i; induction headers as [|h headers IH]; intros values i Hi;
    [simpl in Hi; lia|].
  rewrite zipped_cons. destruct i as [|i]; simpl.
  - by destruct values.
  - rewrite IH by (simpl in Hi; lia). by destruct values; [destruct i|].
Qed.

Lemma row_of_line_spec header line :
  forallb plain (cells header) = true ->
  row_of_line (cells header) line = spec_record header line.
Proof.
  intros Hplain. unfold row_of_line, spec_record, record_of.
  rewrite fill_row_zipped. fold (cells line). cbn [skipn].
  rewrite fold_obj_set_plain; [done|].
  apply Forall_forall. intros kv Hkv.
  apply (in_map fst) in Hkv. rewrite zipped_names in Hkv.
  by apply (proj1 (forallb_forall plain (cells header)) Hplain).
Qed.

(** CSV normalisation over a header of ordinary property names.  When the text
    has at least two non-blank lines the result is one record per non-blank line
    after the first, in line order, each built from the trimmed header names
    zipped positionally with the trimmed comma-split values of its line (missing
    values are the empty string, values beyond the header are dropped); with
    fewer than two non-blank lines it fails with [InsufficientRows]. *)
Lemma parseCSV_zipped (text : string) :
  forallb plain (cells (hd EmptyString (non_blank_lines text))) = true ->
  parseCSV text =
    match non_blank_lines text with
    | header :: row :: rows => Ok (map (spec_record header) (row :: rows))
    | _ => Throw InsufficientRows
    end.
Proof.
  unfold parseCSV. rewrite lines_of_non_blank.
  destruct (non_blank_lines text) as [|header [|row rows]]; try done.
  cbn [hd]. intros Hplain.
  replace (length (header :: row :: rows) <? 2)%nat with false by done.
  f_equal. rewrite rows_loop_map by (simpl; lia).
  simpl. fold (cells header).
  rewrite (row_of_line_spec _ _ Hplain). f_equal.
  apply map_ext. intros line. by apply row_of_line_spec.
Qed.

(** C2.  A header cell [__proto__] is no field of the records: the assignment
    [row['__proto__'] = 'x'] reaches the prototype accessor, which ignores a
    string.  For the text [__proto__,a / x,y] the code returns the one record
    [{a: 'y'}], where the header names zipped with the values of the line are
    [__proto__: 'x'] and [a: 'y']. *)
Lemma parseCSV_proto_header :
  parseCSV Demo.proto_csv = Ok [VObj [("a", VStr "y")]] /\
  non_blank_lines Demo.proto_csv = ["__proto__,a"; "x,y"] /\
  zipped (cells "__proto__,a") (cells "x,y") = [("__proto__", "x"); ("a", "y")] /\
  spec_record "__proto__,a" "x,y" = VObj [("__proto__", VStr "x"); ("a", VStr "y")] /\
  parseCSV Demo.proto_csv <> Ok (map (spec_record "__proto__,a") ["x,y"]).
Proof. repeat split; try reflexivity. discriminate. Qed.

End CsvProofs.

Section ThreatLevel.
Import JS ReportGenerator.
Import Severity.

Lemma severity_str_eqb (a b : Severity.t) :
  String.eqb (Severity.str a) (Severity.str b) = bool_decide (a = b).
Proof. by destruct a, b. Qed.

(** The length of the filtered array is the number of findings of that severity. *)
Lemma with_severity_count (s : Severity.t) (results : list AnalysisResult.t) :
  length (with_severity (Severity.str s) results) = count s results.
Proof.
  unfold with_severity, count.
  induction results as [|r results IH]; [done|].
  simpl. rewrite filter_cons, severity_str_eqb.
  destruct (decide (AnalysisResult.severity r = s)) as [Heq|Hne].
  - rewrite bool_decide_eq_true_2 by done. simpl. by rewrite IH.
  - rewrite bool_decide_eq_false_2 by done. done.
Qed.

Lemma count_pos_iff (s : Severity.t) (results : list AnalysisResult.t) :
  (1 <= count s results)%nat <->
  exists r, r ∈ results /\ AnalysisResult.severity r = s.
Proof.
  unfold count. split.
  - intros Hc.
    destruct (filter (fun r => AnalysisResult.severity r = s) results) as [|r l] eqn:Hf;
      [simpl in Hc; lia|].
    assert (Hin : r ∈ filter (fun r => AnalysisResult.severity r = s) results)
      by (rewrite Hf; left).
    apply list_elem_of_filter in Hin as [? ?]. eauto.
  - intros (r & Hin & Hs).
    assert (Hin' : r ∈ filter (fun r => AnalysisResult.severity r = s) results)
      by (apply list_elem_of_filter; done).
    destruct (filter _ results); [by apply elem_of_nil in Hin' | simpl; lia].
Qed.

Lemma threat_level_cases (results : list AnalysisResult.t) :
  calculateOverallThreatLevel results =
    if (0 <? count critical results)%nat then "critical"
    else if (2 <? count high results)%nat then "high"
    else if (0 <? count high results)%nat || (3 <? count medium results)%nat then "medium"
    else "low".
Proof.
  unfold calculateOverallThreatLevel.
  by rewrite <- !with_severity_count.
Qed.

Ltac level_cases :=
  rewrite threat_level_cases;
  repeat match goal with
  | |- context [(?a <? ?b)%nat] => destruct (Nat.ltb_spec a b)
  end; simpl; try done; try lia.

(** C1.  The overall threat level follows the ordered decision table: critical
    when some finding is critical; otherwise high when more than two findings are
    high; otherwise medium when at least one finding is high or more than three
    are medium; otherwise low.  In particular one critical finding gives critical
    whatever else there is, three high without critical give high, one high
    without critical gives medium, four medium without high or critical give
    medium, and no finding gives low. *)
Theorem threat_level_table (results : list AnalysisResult.t) :
  let level := calculateOverallThreatLevel results in
  let c := count critical results in
  let h := count high results in
  let m := count medium results in
  ((1 <= c)%nat -> level = "critical") /\
  (c = 0%nat -> (2 < h)%nat -> level = "high") /\
  (c = 0%nat -> (h <= 2)%nat -> ((1 <= h)%nat \/ (3 < m)%nat) -> level = "medium") /\
  (c = 0%nat -> h = 0%nat -> (m <= 3)%nat -> level = "low") /\
  ((exists r, r ∈ results /\ AnalysisResult.severity r = critical) -> level = "critical") /\
  (h = 3%nat -> c = 0%nat -> level = "high") /\
  (h = 1%nat -> c = 0%nat -> level = "medium") /\
  (m = 4%nat -> h = 0%nat -> c = 0%nat -> level = "medium") /\
  calculateOverallThreatLevel [] = "low".
Proof.
  intros level c h m. subst level c h m.
  repeat split; try done; intros; try (level_cases; fail).
  assert ((1 <= count critical results)%nat) by (by apply count_pos_iff).
  level_cases.
Qed.

Lemma threat_level_table_witness :
  calculateOverallThreatLevel
    [Demo.finding high; Demo.finding medium; Demo.finding high; Demo.finding high] = "high".
Proof.
  apply (proj1 (proj2 (threat_level_table
    [Demo.finding high; Demo.finding medium; Demo.finding high; Demo.finding high])));
    vm_compute; [reflexivity | lia].
Defined.

End ThreatLevel.

Section GenerateReport.
Import JS Eff ReportGenerator.
Context `{Runtime} `{Encoders}.




Lemma interpolate_printable : forall x,
  printable x = true -> exists text, interpolate x = Ok text.
Proof.
  fix IH 1. intros [| |b|q|s|elems|o]; cbn [printable interpolate];
    try (intros _; eexists; reflexivity).
  - intros Hall.
    assert (Hjoin : exists texts,
      (fix join (elems : list value) : Res (list string) :=
         match elems with
         | [] => Ok []
         | elem :: rest =>
             match match elem with
                   | VUndefined | VNull => Ok EmptyString
                   | _ => interpolate elem
                   end with
             | Throw e => Throw e
             | Ok text =>
                 match join rest with
                 | Throw e => Throw e
                 | Ok texts => Ok (text :: texts)
                 end
             end
         end) elems = Ok texts).
    { induction elems as [|elem elems IHelems]; [eauto|].
      cbn [forallb] in Hall. apply andb_prop in Hall as [Helem Hrest].
      destruct (IHelems Hrest) as [texts ->].
      destruct (IH elem Helem) as [text Htext].
      destruct elem; try rewrite Htext; eexists; reflexivity. }
    destruct Hjoin as [texts ->]. eexists; reflexivity.
  - destruct (obj_has o "toString"); [done | intros _; eexists; reflexivity].
Qed.







Lemma content_stage_unknown type results data :
  type ∉ known_types -> content_stage type results data = Throw (UnknownReportType type).
Proof.
  intros Hty. unfold content_stage.
  repeat match goal with
  | |- context [String.eqb type ?s] =>
      destruct (String.eqb_spec type s) as [->|_];
      [exfalso; apply Hty; apply list_elem_of_In; simpl; tauto|]
  end.
  done.
Qed.

Lemma encoding_stage_unknown format report results data st :
  format ∉ known_formats ->
  encoding_stage format report results data st = (Throw (UnknownReportFormat format), st).
Proof.
  intros Hf. unfold encoding_stage.
  repeat match goal with
  | |- context [String.eqb format ?s] =>
      destruct (String.eqb_spec format s) as [->|_];
      [exfalso; apply Hf; apply list_elem_of_In; simpl; tauto|]
  end.
  done.
Qed.

(** The encoding stage emits nothing and changes no field; the JSON encoder
    reads the clock once. *)
Lemma encoding_stage_frame format report results data st r st' :
  encoding_stage format report results data st = (r, st') ->
  draws st' = draws st /\ emitted st' = emitted st /\ this st' = this st /\
  (ticks st <= ticks st' <= S (ticks st))%nat.
Proof.
  unfold encoding_stage, bind, lift, throw, Date_now.
  repeat match goal with
  | |- context [String.eqb format ?s] => destruct (String.eqb format s)
  end; intros [= <- <-]; cbn [draws ticks emitted this]; repeat split; lia.
Qed.

(** One run of [generateReport], stage by stage. *)
Lemma generateReport_run config results data st :
  generateReport config results data st =
    match getUniqueDataSources data with
    | Throw e => (Throw e, failed e st)
    | Ok sources =>
        match content_stage (ReportConfig.type config) results data with
        | Throw e => (Throw e, failed e st)
        | Ok content =>
            let report := Report.with_content content (draft config results sources st) in
            match encoding_stage (ReportConfig.format config) report results data
                    (mkSt (S (draws st)) (S (ticks st)) (emitted st) (this st)) with
            | (Throw e, st1) =>
                (Throw e,
                 mkSt (draws st1) (ticks st1) (emitted st1 ++ [reportError e]) (this st1))
            | (Ok url, st1) =>
                let report := Report.with_downloadUrl url report in
                (Ok report,
                 mkSt (draws st1) (ticks st1) (emitted st1 ++ [reportGenerated report])
                   (mkFields (reports (this st1) ++ [report]) (isInitialized (this st1))))
            end
        end
    end.
Proof.
  unfold generateReport, try_catch, generateId, bind, lift, Math_random, Date_now; simpl.
  destruct (getUniqueDataSources data) as [sources|e]; [|done].
  destruct (content_stage _ results data) as [content|e]; [|done].
  simpl.
  by destruct (encoding_stage _ _ results data _) as [[url|e] st1].
Qed.


End GenerateReport.

Section GenerateReportExamples.
Import JS Eff ReportGenerator.



End GenerateReportExamples.

Section RunAnalysis.
Import JS Eff AnalysisEngine.
Context `{Runtime}.

(** One run of [runAnalysis], in terms of what its strategy does. *)
Lemma runAnalysis_run data config st :
  runAnalysis data config st =
    match strategy data config (strategy_start st) with
    | (Ok found, st1) =>
        let filteredResults :=
          if filter_is_set (AnalysisConfig.severityFilter config)
          then List.filter (severity_matches (AnalysisConfig.severityFilter config)) found
          else found in
        (Ok filteredResults,
         mkSt (draws st1) (S (ticks st1))
           (emitted st1 ++
            [analysisCompleted filteredResults (clock (ticks st1) - clock (ticks st))%Z])
           (mkFields filteredResults (isInitialized (this st1))
              (length (List.filter counts_as_threat filteredResults))))
    | (Throw e, st1) =>
        (Throw e, mkSt (draws st1) (ticks st1) (emitted st1 ++ [analysisError e]) (this st1))
    end.
Proof.
  unfold runAnalysis, try_catch, bind, emit, Date_now, Math_random, strategy_start; simpl.
  by destruct (strategy data config _) as [[found|e] st1].
Qed.

Lemma severity_matches_of_severity f found :
  List.filter (severity_matches (Some f)) found = of_severity f found.
Proof.
  unfold of_severity. induction found as [|r found IH]; [done|].
  simpl. rewrite filter_cons.
  destruct (String.eqb_spec (Severity.str (AnalysisResult.severity r)) f) as [Heq|Hne].
  - rewrite decide_True by done. by rewrite IH.
  - rewrite decide_False by done. done.
Qed.

(** C5.  When a severity filter other than ['all'] is configured, [runAnalysis]
    returns exactly the findings of its strategy whose severity is the filter
    value, in their relative order; with ['all'], or with no filter, it returns
    the findings of the strategy unchanged.  The code takes a filter for
    configured when it is truthy, so the empty string counts as no filter. *)
Theorem runAnalysis_severity_filter (data : list value) (config : AnalysisConfig.t)
    (st st1 : St Event Fields) (found : list AnalysisResult.t) :
  strategy data config (strategy_start st) = (Ok found, st1) ->
  (forall f, AnalysisConfig.severityFilter config = Some f ->
     f <> EmptyString -> f <> "all" ->
     fst (runAnalysis data config st) = Ok (of_severity f found) /\
     of_severity f found `sublist_of` found) /\
  (AnalysisConfig.severityFilter config = Some "all" \/
   AnalysisConfig.severityFilter config = Some EmptyString \/
   AnalysisConfig.severityFilter config = None ->
   fst (runAnalysis data config st) = Ok found).
Proof.
  intros Hrun. rewrite runAnalysis_run, Hrun. split.
  - intros f Hf Hne Hall. split; [|apply sublist_filter].
    assert (Hset : filter_is_set (Some f) = true).
    { unfold filter_is_set. destruct f as [|c f]; [done|].
      by destruct (String.eqb_spec (String c f) "all"). }
    rewrite Hf, Hset. cbn [fst]. by rewrite severity_matches_of_severity.
  - by intros [-> | [-> | ->]].
Qed.

(** Classifying a record only draws random numbers. *)
Lemma isSuspiciousActivity_frame item st r st' :
  isSuspiciousActivity item st = (r, st') ->
  ticks st' = ticks st /\ emitted st' = emitted st /\ this st' = this st.
Proof.
  unfold isSuspiciousActivity, bind, lift, ret, Math_random.
  repeat match goal with
  | |- context [get_prop item ?k] => destruct (get_prop item k); simpl
  | |- context [if ?b then _ else _] => destruct b eqn:?; simpl
  | |- context [containsSuspiciousKeywords ?c] =>
      destruct (containsSuspiciousKeywords c); simpl
  end; intros [= <- <-]; done.
Qed.

(** When no record is suspicious the loop finds nothing and reads no time. *)
Lemma detectThreats_none data : forall index found st,
  none_suspicious data st ->
  exists st', detectThreats data index found st = (Ok found, st') /\
    ticks st' = ticks st /\ emitted st' = emitted st /\ this st' = this st.
Proof.
  induction data as [|item data IH]; intros index found st Hnone; simpl in *.
  - by exists st.
  - destruct Hnone as (st1 & Hitem & Hrest).
    unfold bind at 1. rewrite Hitem.
    destruct (IH (S index) found st1 Hrest) as (st' & -> & Ht & He & Hf).
    apply isSuspiciousActivity_frame in Hitem as (Ht1 & He1 & Hf1).
    exists st'. repeat split; congruence.
Qed.

(** C4.  A threat-detection run in which no input record is classified
    suspicious, with severity filter ['all'], returns exactly the three canned
    sample findings, in order: ids [threat-sample-1], [threat-sample-2],
    [threat-sample-3] with severities high, critical, medium (their times of
    discovery are the three clock readings that follow the start time).  The
    run over the empty record list is one of them, and the result is never
    empty. *)
Theorem runAnalysis_sample_fallback (data : list value) (config : AnalysisConfig.t)
    (st : St Event Fields) :
  AnalysisConfig.type config = "threat-detection" ->
  AnalysisConfig.severityFilter config = Some "all" ->
  let samples :=
    sampleThreats (clock (1 + ticks st)) (clock (2 + ticks st)) (clock (3 + ticks st)) in
  (none_suspicious data (strategy_start st) ->
   fst (runAnalysis data config st) = Ok samples) /\
  fst (runAnalysis [] config st) = Ok samples /\
  map AnalysisResult.id samples = ["threat-sample-1"; "threat-sample-2"; "threat-sample-3"] /\
  map AnalysisResult.severity samples = [Severity.high; Severity.critical; Severity.medium] /\
  samples <> [].
Proof.
  intros Hty Hf samples. subst samples.
  assert (Hfallback : forall records, none_suspicious records (strategy_start st) ->
    fst (runAnalysis records config st) =
      Ok (sampleThreats (clock (1 + ticks st)) (clock (2 + ticks st)) (clock (3 + ticks st)))).
  { intros records Hnone.
    rewrite runAnalysis_run. unfold strategy. rewrite Hty. simpl.
    unfold runThreatDetection, bind at 1.
    destruct (detectThreats_none records 0 [] _ Hnone) as (st' & -> & Ht & _ & _).
    simpl. unfold generateSampleThreats, bind, Date_now, ret. simpl.
    rewrite Hf. simpl. rewrite Ht. done. }
  split; [apply Hfallback|]. split; [by apply Hfallback|]. done.
Qed.

End RunAnalysis.

Section RunAnalysisExamples.
Import JS Eff AnalysisEngine.

Lemma runAnalysis_sample_fallback_witness :
  fst (@runAnalysis Demo.runtime Demo.quietRecords
         (AnalysisConfig.mk "threat-detection" "24h" (Some "all")) Demo.analysisEngine0)
  = Ok (sampleThreats 1700000000001 1700000000002 1700000000003).
Proof.
  apply (proj1 (@runAnalysis_sample_fallback Demo.runtime Demo.quietRecords
                  (AnalysisConfig.mk "threat-detection" "24h" (Some "all"))
                  Demo.analysisEngine0 eq_refl eq_refl)).
  simpl. eexists. split; [reflexivity | exact I].
Defined.

Lemma runAnalysis_severity_filter_witness :
  exists found,
    fst (@runAnalysis Demo.runtime Demo.networkRecords
           (AnalysisConfig.mk "pattern-analysis" "24h" (Some "medium")) Demo.analysisEngine0)
    = Ok (of_severity "medium" found) /\
    length found = 2%nat /\ length (of_severity "medium" found) = 1%nat.
Proof.
  edestruct (@runAnalysis_severity_filter Demo.runtime Demo.networkRecords
               (AnalysisConfig.mk "pattern-analysis" "24h" (Some "medium"))
               Demo.analysisEngine0) as [Hfilter _]; [reflexivity|].
  destruct (Hfilter "medium" eq_refl) as [Hout _]; [discriminate | discriminate|].
  eexists. split; [exact Hout|]. split; reflexivity.
Defined.

End RunAnalysisExamples.

Section OMapFacts.
Import JS.
Context {V : Type}.
Implicit Types (m : OMap.t V) (k : string).

Lemma get_set_eq k v m : OMap.get k (OMap.set k v m) = Some v.
Proof.
  induction m as [|[k' v'] m IH]; simpl.
  - by rewrite String.eqb_refl.
  - destruct (String.eqb_spec k' k) as [->|Hne]; simpl.
    + by rewrite String.eqb_refl.
    + by destruct (String.eqb_spec k' k).
Qed.

Lemma get_set_ne k k' v m : k <> k' -> OMap.get k' (OMap.set k v m) = OMap.get k' m.
Proof.
  intros Hne. induction m as [|[k0 v0] m IH]; simpl.
  - by destruct (String.eqb_spec k k').
  - destruct (String.eqb_spec k0 k) as [->|Hne0]; simpl.
    + by destruct (String.eqb_spec k k').
    + by rewrite IH.
Qed.

Lemma get_delete_eq k m : OMap.get k (OMap.delete k m) = None.
Proof.
  induction m as [|[k0 v0] m IH]; simpl; [done|].
  destruct (String.eqb_spec k0 k) as [->|Hne]; simpl; [done|].
  by destruct (String.eqb_spec k0 k).
Qed.

Lemma get_delete_ne k k' m : k <> k' -> OMap.get k' (OMap.delete k m) = OMap.get k' m.
Proof.
  intros Hne. induction m as [|[k0 v0] m IH]; simpl; [done|].
  destruct (String.eqb_spec k0 k) as [->|Hne0]; simpl.
  - by destruct (String.eqb_spec k k').
  - by rewrite IH.
Qed.

Lemma get_None_keys k m : OMap.get k m = None <-> k ∉ OMap.keys m.
Proof.
  induction m as [|[k0 v0] m IH]; simpl.
  - split; [intros _; apply not_elem_of_nil | done].
  - rewrite not_elem_of_cons.
    destruct (String.eqb_spec k0 k) as [->|Hne]; [split; [done | tauto]|].
    rewrite IH. split; [by split | tauto].
Qed.

Lemma keys_set_present k v m :
  k ∈ OMap.keys m -> OMap.keys (OMap.set k v m) = OMap.keys m.
Proof.
  induction m as [|[k0 v0] m IH]; simpl; intros Hin.
  - by apply elem_of_nil in Hin.
  - destruct (String.eqb_spec k0 k) as [->|Hne]; simpl; [done|].
    apply elem_of_cons in Hin as [->|Hin]; [done|]. by rewrite IH.
Qed.

Lemma keys_set_absent k v m :
  k ∉ OMap.keys m -> OMap.keys (OMap.set k v m) = OMap.keys m ++ [k].
Proof.
  induction m as [|[k0 v0] m IH]; simpl; intros Hin; [done|].
  apply not_elem_of_cons in Hin as [Hne Hin].
  destruct (String.eqb_spec k0 k) as [->|_]; simpl; [done|]. by rewrite IH.
Qed.

Lemma values_set_absent k v m :
  k ∉ OMap.keys m -> OMap.values (OMap.set k v m) = OMap.values m ++ [v].
Proof.
  induction m as [|[k0 v0] m IH]; simpl; intros Hin; [done|].
  apply not_elem_of_cons in Hin as [Hne Hin].
  destruct (String.eqb_spec k0 k) as [->|_]; simpl; [done|]. by rewrite IH.
Qed.

Lemma NoDup_keys_set k v m : NoDup (OMap.keys m) -> NoDup (OMap.keys (OMap.set k v m)).
Proof.
  intros Hnd. destruct (decide (k ∈ OMap.keys m)) as [Hin|Hin].
  - by rewrite keys_set_present.
  - rewrite keys_set_absent by done. apply list.NoDup_app. repeat split; try done.
    + intros x Hx Hx'. apply list_elem_of_singleton in Hx'. by subst.
    + apply NoDup_singleton.
Qed.

Lemma keys_delete_subseteq k m x : x ∈ OMap.keys (OMap.delete k m) -> x ∈ OMap.keys m.
Proof.
  induction m as [|[k0 v0] m IH]; simpl; [done|].
  destruct (String.eqb_spec k0 k) as [->|Hne]; simpl.
  - intros Hx. right. by apply IH.
  - intros Hx. apply elem_of_cons in Hx as [->|Hx]; [left | right; by apply IH].
Qed.

Lemma NoDup_keys_delete k m : NoDup (OMap.keys m) -> NoDup (OMap.keys (OMap.delete k m)).
Proof.
  induction m as [|[k0 v0] m IH]; simpl; [done|].
  intros Hnd. apply list.NoDup_cons in Hnd as [Hnotin Hnd].
  destruct (String.eqb_spec k0 k) as [->|Hne]; simpl; [by apply IH|].
  apply list.NoDup_cons. split; [|by apply IH].
  intros Hin. apply Hnotin. by apply keys_delete_subseteq in Hin.
Qed.

End OMapFacts.

Section HeapFacts.
Context {A : Type} `{!Inhabited A}.

Lemma lookup_total_snoc (h : list A) (x : A) : (h ++ [x]) !!! length h = x.
Proof. by rewrite list_lookup_total_middle. Qed.

Lemma alter_snoc (f : A -> A) (h : list A) (x : A) :
  alter f (length h) (h ++ [x]) = h ++ [f x].
Proof. rewrite alter_app_r_alt by lia. by rewrite Nat.sub_diag. Qed.

End HeapFacts.

Section AddFileSource.
Import JS Eff DataSourceManager.
Context `{Runtime}.

(** Normalising a file reads the clock and nothing else. *)
Lemma text_records_frame lines : forall index st r st',
  text_records lines index st = (r, st') ->
  this st' = this st /\ emitted st' = emitted st /\ draws st' = draws st.
Proof.
  induction lines as [|line lines IH]; intros index st r st'; simpl.
  - by intros [= <- <-].
  - unfold bind, Date_now. simpl.
    destruct (text_records lines (S index) _) as [[records|e] st1] eqn:Hrest;
      apply IH in Hrest as (? & ? & ?); simpl in *; by intros [= <- <-].
Qed.

Lemma parseFile_frame file st r st' :
  parseFile file st = (r, st') ->
  this st' = this st /\ emitted st' = emitted st /\ draws st' = draws st.
Proof.
  unfold parseFile, parseText, lift, throw.
  repeat match goal with
  | |- context [if ?b then _ else _] => destruct b
  end; try (by intros [= <- <-]).
  apply text_records_frame.
Qed.

(** One call of [addFileSource], in terms of what the normaliser does. *)
Lemma addFileSource_run file st :
  addFileSource file st =
    let self := this st in
    let ref := length (heap self) in
    let registry := OMap.set (next_id st) ref (sources self) in
    match parseFile file (parse_start file st) with
    | (Ok records, st1) =>
        (Ok (file_source file st Status.active),
         mkSt (draws st1) (ticks st1)
           (emitted st ++ [sourceAdded (file_source file st Status.active);
                           dataProcessed (next_id st) records])
           (mkFields (heap self ++ [file_source file st Status.active]) registry
              (OMap.set (next_id st) records (data self))
              (isInitialized self) (timers self)))
    | (Throw e, st1) =>
        (Throw e,
         mkSt (draws st1) (ticks st1)
           (emitted st ++ [sourceAdded (file_source file st Status.error)])
           (mkFields (heap self ++ [file_source file st Status.error]) registry
              (data self) (isInitialized self) (timers self)))
    end.
Proof.
  unfold addFileSource, generateId, alloc, read, sources_set, try_catch, bind,
    Math_random, Date_now, get_this, set_this, ret.
  cbn [draws ticks emitted this heap sources data isInitialized timers fst snd].
  rewrite lookup_total_snoc. cbn [DataSource.id].
  change (mkSt (S (draws st)) (S (ticks st)) (emitted st) _) with (parse_start file st).
  destruct (parseFile file (parse_start file st)) as [[records|e] st1] eqn:Hparse;
    apply parseFile_frame in Hparse as (Hthis & Hem & _);
    destruct st1 as [d1 t1 e1 c1]; simpl in Hthis, Hem; subst c1 e1;
    unfold write, data_set, emit, throw, bind, get_this, set_this, ret; simpl;
    rewrite ?lookup_total_snoc, ?alter_snoc; simpl;
    rewrite ?lookup_total_snoc, <- ?app_assoc; done.
Qed.

End AddFileSource.

Section AddFileSourceOutcome.
Import JS Eff DataSourceManager.
Context `{Runtime}.

Lemma get_values_elem_of {V} (k : string) (v : V) (m : OMap.t V) :
  OMap.get k m = Some v -> v ∈ OMap.values m.
Proof.
  induction m as [|[k0 v0] m IH]; simpl; [done|].
  destruct (String.eqb_spec k0 k) as [->|Hne].
  - intros [= ->]. left.
  - intros Hget. right. by apply IH.
Qed.

(** C3.  When normalisation of the file fails, [addFileSource] re-raises that
    very failure and leaves the source registered, with status [error]; its
    record set is observably empty ([getSourceData] returns the empty list)
    when the generated identifier is new.  When normalisation succeeds, the
    records are stored under the source and its status is [active]. *)
Theorem addFileSource_outcome (file : File.t) (st : St Event Fields) :
  let out := addFileSource file st in
  let id := next_id st in
  (forall e, fst (parseFile file (parse_start file st)) = Throw e ->
     fst out = Throw e /\
     (exists source sources,
        fst (getSource id (snd out)) = Ok (Some source) /\
        fst (getSources (snd out)) = Ok sources /\ source ∈ sources /\
        DataSource.id source = id /\
        DataSource.name source = File.name file /\
        DataSource.status source = Status.error) /\
     (fresh st id -> fst (getSourceData id (snd out)) = Ok [])) /\
  (forall records, fst (parseFile file (parse_start file st)) = Ok records ->
     exists source,
       fst out = Ok source /\
       fst (getSource id (snd out)) = Ok (Some source) /\
       DataSource.id source = id /\
       DataSource.status source = Status.active /\
       fst (getSourceData id (snd out)) = Ok records).
Proof.
  intros out id. subst out id. rewrite addFileSource_run. cbv zeta.
  destruct (parseFile file (parse_start file st)) as [[records|e] st1]; cbn [fst snd].
  - split; [done|]. intros ? [= <-].
    exists (file_source file st Status.active).
    unfold getSource, getSourceData, bind, get_this, ret; cbn [fst this sources data heap].
    rewrite !get_set_eq, lookup_total_snoc. done.
  - split; [|done]. intros ? [= <-]. split; [done|]. split.
    + exists (file_source file st Status.error). eexists.
      unfold getSource, getSources, bind, get_this, ret; cbn [fst this sources heap].
      rewrite get_set_eq, lookup_total_snoc.
      split; [done|]. split; [done|]. split; [|done].
      apply list_elem_of_fmap. exists (length (heap (this st))).
      rewrite lookup_total_snoc. split; [done|].
      apply (get_values_elem_of (next_id st)), get_set_eq.
    + intros [_ Hdata].
      unfold getSourceData, bind, get_this, ret; cbn [fst this data].
      by rewrite Hdata.
Qed.

(** C10.  [addFileSource] emits [sourceAdded] exactly once on either path, with
    the source as it then stands (status [error] when normalisation failed);
    [dataProcessed] follows on the success path only, carrying the identifier of
    the source and the parsed records. *)
Theorem addFileSource_events (file : File.t) (st : St Event Fields) :
  let out := addFileSource file st in
  (forall e, fst (parseFile file (parse_start file st)) = Throw e ->
     exists source,
       emitted (snd out) = emitted st ++ [sourceAdded source] /\
       fst (getSource (next_id st) (snd out)) = Ok (Some source) /\
       DataSource.status source = Status.error) /\
  (forall records, fst (parseFile file (parse_start file st)) = Ok records ->
     exists source,
       emitted (snd out) =
         emitted st ++ [sourceAdded source; dataProcessed (DataSource.id source) records] /\
       fst out = Ok source /\
       DataSource.id source = next_id st /\
       DataSource.status source = Status.active).
Proof.
  intros out. subst out. rewrite addFileSource_run. cbv zeta.
  destruct (parseFile file (parse_start file st)) as [[records|e] st1]; cbn [fst snd].
  - split; [done|]. intros ? [= <-].
    by exists (file_source file st Status.active).
  - split; [|done]. intros ? [= <-].
    exists (file_source file st Status.error).
    unfold getSource, bind, get_this, ret; cbn [fst this sources heap emitted].
    by rewrite get_set_eq, lookup_total_snoc.
Qed.

End AddFileSourceOutcome.

Section AddFileSourceExamples.
Import JS Eff DataSourceManager.

Lemma addFileSource_outcome_witness :
  fst (@addFileSource Demo.runtime (File.mk "report.pdf" "%PDF-1.7") Demo.dataSourceManager0)
    = Throw (UnsupportedFormat "pdf") /\
  fst (getSourceData "src1"
         (snd (@addFileSource Demo.runtime (File.mk "report.pdf" "%PDF-1.7")
                 Demo.dataSourceManager0))) = Ok [].
Proof.
  destruct (proj1 (@addFileSource_outcome Demo.runtime (File.mk "report.pdf" "%PDF-1.7")
                     Demo.dataSourceManager0) (UnsupportedFormat "pdf") eq_refl)
    as (Hthrow & _ & Hempty).
  split; [exact Hthrow|]. apply Hempty. split; reflexivity.
Defined.

Lemma addFileSource_events_witness :
  exists source,
    emitted (snd (@addFileSource Demo.runtime (File.mk "data.csv" Demo.csv_text)
                    Demo.dataSourceManager0))
    = [sourceAdded source;
       dataProcessed "src1"
         [VObj [("name", VStr "a"); ("value", VStr "1")];
          VObj [("name", VStr "b"); ("value", VStr "2")]]].
Proof.
  destruct (proj2 (@addFileSource_events Demo.runtime (File.mk "data.csv" Demo.csv_text)
                     Demo.dataSourceManager0)
              [VObj [("name", VStr "a"); ("value", VStr "1")];
               VObj [("name", VStr "b"); ("value", VStr "2")]] eq_refl)
    as (source & Hem & _ & Hid & _).
  exists source. rewrite Hem, Hid. reflexivity.
Defined.

End AddFileSourceExamples.

Section RegistrySteps.
Import JS Eff DataSourceManager.
Context `{Runtime}.

Ltac run_monad :=
  unfold initialize, addSource, updateSource, removeSource, shutdown, timeout,
    loadSampleData, generateOSINTData, generateNetworkData, generateThreatData,
    generateGenericData, stamp_ago, generateId, alloc, read, write, sources_set,
    data_set, setTimeout, emit, throw, try_catch, bind, Math_random, Date_now,
    get_this, set_this, ret;
  cbn [draws ticks emitted this heap sources data isInitialized timers fst snd].

(** What each step does to the objects and to the map of sources. *)
Lemma run_change step st : change step st (run step st).
Proof.
  destruct step as [|config|file|id updates|id| |]; unfold run.
  - run_monad. destruct (isInitialized (this st)); by apply unchanged.
  - run_monad. rewrite lookup_total_snoc. cbn [DataSource.id DataSource.status].
    destruct (default Status.inactive (DataSourceConfig.status config));
      cbn [draws ticks emitted this heap sources data isInitialized timers fst snd];
      by eapply registers.
  - rewrite addFileSource_run. cbv zeta.
    destruct (parseFile file (parse_start file st)) as [[records|e] st1]; cbn [snd];
      by eapply registers.
  - run_monad. destruct (OMap.get id (sources (this st))) as [ref|];
      cbn [draws ticks emitted this heap sources data isInitialized timers fst snd];
      [|by apply unchanged].
    eapply assigns; [done | done |].
    simpl. intros Hkeep source. unfold assign. by rewrite Hkeep.
  - run_monad. destruct (OMap.get id (sources (this st))) as [ref|];
      cbn [draws ticks emitted this heap sources data isInitialized timers fst snd];
      [by eapply unregisters | by apply unchanged].
  - run_monad. destruct (timers (this st)) as [|ref pending];
      cbn [draws ticks emitted this heap sources data isInitialized timers fst snd];
      [by apply unchanged|].
    destruct (DataSource.type (heap (this st) !!! ref));
      cbn [draws ticks emitted this heap sources data isInitialized timers fst snd];
      (destruct (OMap.get _ (sources (this st))) as [ref'|];
       cbn [draws ticks emitted this heap sources data isInitialized timers fst snd];
       [by eapply assigns | by apply unchanged]).
  - run_monad. by apply clears.
Qed.

Lemma length_heap_change step st st' :
  change step st st' -> (length (heap (this st)) <= length (heap (this st')))%nat.
Proof.
  intros [Hh _|source Hh _|id Hh _|Hh _|ref f Hh _ _]; rewrite Hh;
    rewrite ?length_app, ?length_alter; simpl; lia.
Qed.

(** Each step keeps the registry well formed. *)
Lemma well_formed_step step st : well_formed st -> well_formed (run step st).
Proof.
  intros (Hnd & Hbound & Hinj).
  pose proof (run_change step st) as Hch.
  pose proof (length_heap_change _ _ _ Hch) as Hlen.
  unfold well_formed, registered in *.
  destruct Hch as [Hh Hs|source Hh Hs|id Hh Hs|Hh Hs|ref f Hh Hs _]; rewrite Hs.
  - repeat split; [done | | done]. intros key ref Hreg. specialize (Hbound _ _ Hreg). lia.
  - set (k := DataSource.id source) in *. clearbody k. repeat split.
    + by apply NoDup_keys_set.
    + intros key ref. rewrite Hh, length_app. simpl.
      destruct (decide (k = key)) as [->|Hne].
      * rewrite get_set_eq. intros [= <-]. lia.
      * rewrite get_set_ne by done. intros Hreg. specialize (Hbound _ _ Hreg). lia.
    + intros key1 key2 ref.
      destruct (decide (k = key1)) as [Heq1|Hne1];
        destruct (decide (k = key2)) as [Heq2|Hne2]; subst;
        rewrite ?get_set_eq, ?get_set_ne by done; try done.
      * intros [= <-] Hreg. specialize (Hbound _ _ Hreg). lia.
      * intros Hreg [= <-]. specialize (Hbound _ _ Hreg). lia.
      * apply Hinj.
  - repeat split.
    + by apply NoDup_keys_delete.
    + intros key ref. destruct (decide (id = key)) as [->|Hne].
      * by rewrite get_delete_eq.
      * rewrite get_delete_ne by done. intros Hreg. specialize (Hbound _ _ Hreg). lia.
    + intros key1 key2 ref.
      destruct (decide (id = key1)) as [->|Hne1]; [by rewrite get_delete_eq|].
      destruct (decide (id = key2)) as [->|Hne2]; [by rewrite get_delete_eq|].
      rewrite !get_delete_ne by done. apply Hinj.
  - repeat split; [apply NoDup_nil_2 | done | done].
  - repeat split; [done | | done]. intros key ref' Hreg. specialize (Hbound _ _ Hreg). lia.
Qed.

Lemma well_formed_initial st : initial st -> well_formed st.
Proof.
  intros [Hnew _]. unfold well_formed, registered. rewrite Hnew. simpl.
  repeat split; [apply NoDup_nil_2 | done | done].
Qed.

Lemma well_formed_reachable allowed st : reachable allowed st -> well_formed st.
Proof.
  induction 1 as [st Hinit|st step _ IH _];
    [by apply well_formed_initial | by apply well_formed_step].
Qed.

(** What each step does to the two maps and to the pending timers. *)
Lemma run_effect step st : effect step st (run step st).
Proof.
  destruct step as [|config|file|id updates|id| |]; unfold run.
  - run_monad. destruct (isInitialized (this st)); by apply effect_none.
  - run_monad. rewrite lookup_total_snoc. cbn [DataSource.id DataSource.status].
    destruct (default Status.inactive (DataSourceConfig.status config));
      cbn [draws ticks emitted this heap sources data isInitialized timers fst snd].
    + eapply effect_addSource;
        [done | cbn [this heap]; rewrite length_app; simpl; lia | done | done | done
        | by right].
    + eapply (effect_addSource _ _ _ _ []);
        [done | cbn [this heap]; rewrite length_app; simpl; lia | done | done
        | by rewrite app_nil_r | by left].
    + eapply (effect_addSource _ _ _ _ []);
        [done | cbn [this heap]; rewrite length_app; simpl; lia | done | done
        | by rewrite app_nil_r | by left].
  - rewrite addFileSource_run. cbv zeta.
    destruct (parseFile file (parse_start file st)) as [[records|e] st1]; cbn [snd];
      [by eapply effect_addFileSource_ok | by eapply effect_addFileSource_error].
  - run_monad. destruct (OMap.get id (sources (this st))) as [ref|];
      cbn [draws ticks emitted this heap sources data isInitialized timers fst snd];
      by apply effect_none.
  - run_monad. destruct (OMap.get id (sources (this st))) as [ref|];
      cbn [draws ticks emitted this heap sources data isInitialized timers fst snd];
      [by apply (effect_removeSource _ _ _ id) | by apply effect_none].
  - run_monad. destruct (timers (this st)) as [|ref pending] eqn:Htimers;
      cbn [draws ticks emitted this heap sources data isInitialized timers fst snd];
      [by apply effect_none|].
    destruct (DataSource.type (heap (this st) !!! ref));
      cbn [draws ticks emitted this heap sources data isInitialized timers fst snd];
      (destruct (OMap.get _ (sources (this st))) as [ref'|];
       cbn [draws ticks emitted this heap sources data isInitialized timers fst snd];
       by eapply effect_timeout).
  - run_monad. by apply effect_shutdown.
Qed.

End RegistrySteps.

Section RegistryIdentity.
Import JS Eff DataSourceManager.
Context `{Runtime}.

(** A step that does not assign [id] leaves the [id] of every object alone. *)
Lemma held_id_step step st ref :
  keeps_id step ->
  (ref < length (heap (this st)))%nat ->
  held_id (run step st) ref = held_id st ref.
Proof.
  intros Hkeep Hlt. unfold held_id.
  destruct (run_change step st) as [Hh _|source Hh _|id Hh _|Hh _|ref' f Hh _ Hid];
    rewrite Hh; try done.
  - by rewrite lookup_total_app_l.
  - rewrite list_lookup_total_alter. case_decide as Hcase; [|done].
    destruct Hcase as [-> _]. by apply Hid.
Qed.

(** A registered object stays under its key, or leaves the registry. *)
Lemma key_step step st key ref key' :
  well_formed st ->
  registered st key ref -> registered (run step st) key' ref -> key' = key.
Proof.
  intros (_ & Hbound & Hinj) Hreg. unfold registered in *.
  destruct (run_change step st) as [_ Hs|source _ Hs|id _ Hs|_ Hs|ref' f _ Hs _];
    rewrite Hs.
  - intros Hreg'. by apply (Hinj _ _ ref).
  - destruct (decide (DataSource.id source = key')) as [Heq|Hne].
    + rewrite Heq, get_set_eq. intros [= <-]. specialize (Hbound _ _ Hreg). lia.
    + rewrite get_set_ne by done. intros Hreg'. by apply (Hinj _ _ ref).
  - destruct (decide (id = key')) as [->|Hne]; [by rewrite get_delete_eq|].
    rewrite get_delete_ne by done. intros Hreg'. by apply (Hinj _ _ ref).
  - done.
  - intros Hreg'. by apply (Hinj _ _ ref).
Qed.

(** While no step assigns [id], every registered object holds its key. *)
Lemma held_id_key st key ref :
  reachable keeping_ids st -> registered st key ref -> held_id st ref = key.
Proof.
  intros Hreach. revert key ref.
  induction Hreach as [st [Hnew _]|st step Hreach IH Hkeep]; intros key ref.
  - unfold registered. by rewrite Hnew.
  - pose proof (well_formed_reachable _ _ Hreach) as (Hnd & Hbound & Hinj).
    unfold registered in *. intros Hreg.
    destruct (run_change step st) as [Hh Hs|source Hh Hs|id Hh Hs|Hh Hs|ref' f Hh Hs Hid].
    + rewrite Hs in Hreg. rewrite held_id_step; eauto.
    + rewrite Hs in Hreg.
      destruct (decide (DataSource.id source = key)) as [Heq|Hne].
      * rewrite Heq, get_set_eq in Hreg. injection Hreg as <-.
        unfold held_id. by rewrite Hh, lookup_total_snoc.
      * rewrite get_set_ne in Hreg by done. rewrite held_id_step; eauto.
    + rewrite Hs in Hreg. destruct (decide (id = key)) as [->|Hne];
        [by rewrite get_delete_eq in Hreg|].
      rewrite get_delete_ne in Hreg by done. rewrite held_id_step; eauto.
    + by rewrite Hs in Hreg.
    + rewrite Hs in Hreg. rewrite held_id_step; eauto.
Qed.

(** C7, as the code has it.  In every state the registry can reach, and for
    every step (a call of a public method or a timer firing): the keys of the
    registry are pairwise distinct; a registered source stays registered under the
    key it had, or is no longer registered; and a step other than an
    [updateSource] that supplies an [id] field leaves the [id] held by every
    registered source as it was.  As long as no such [updateSource] has been
    made, every registered source holds its key as [id], so held ids are unique
    among registered sources. *)
Theorem registry_identity (step : Step) (st : St Event Fields) :
  reachable any_step st ->
  NoDup (OMap.keys (sources (this (run step st)))) /\
  (forall key ref key',
     registered st key ref -> registered (run step st) key' ref -> key' = key) /\
  (keeps_id step ->
   forall key ref, registered st key ref -> held_id (run step st) ref = held_id st ref) /\
  (reachable keeping_ids st ->
   (forall key ref, registered st key ref -> held_id st ref = key) /\
   (forall key1 ref1 key2 ref2,
      registered st key1 ref1 -> registered st key2 ref2 ->
      held_id st ref1 = held_id st ref2 -> key1 = key2 /\ ref1 = ref2)).
Proof.
  intros Hreach.
  pose proof (well_formed_reachable _ _ Hreach) as Hwf.
  pose proof (well_formed_step step st Hwf) as (Hnd' & _ & _).
  split; [done|]. split; [|split].
  - intros key ref key'. by apply key_step.
  - intros Hkeep key ref Hreg. destruct Hwf as (_ & Hbound & _).
    apply held_id_step; eauto.
  - intros Hkept. split; [intros key ref; by apply held_id_key|].
    intros key1 ref1 key2 ref2 Hreg1 Hreg2 Hheld.
    rewrite (held_id_key _ _ _ Hkept Hreg1), (held_id_key _ _ _ Hkept Hreg2) in Hheld.
    subst key2. split; [done|]. unfold registered in *. congruence.
Qed.

End RegistryIdentity.

Section RegistryIdentityExamples.
Import JS Eff DataSourceManager.

Lemma twoFeeds_reachable allowed :
  (forall st step, allowed st step) -> @reachable Demo.runtime allowed Demo.twoFeeds.
Proof.
  intros Hall. unfold Demo.twoFeeds.
  apply reachable_step; [|done]. apply reachable_step; [|done].
  by apply reachable_initial.
Qed.

Lemma registry_identity_witness :
  held_id
    (@run Demo.runtime
       (UpdateSource "src1" (Updates.mk None (Some "OSINT") None None None None None))
       Demo.twoFeeds) 0 = "src1".
Proof.
  destruct (@registry_identity Demo.runtime
              (UpdateSource "src1" (Updates.mk None (Some "OSINT") None None None None None))
              Demo.twoFeeds (twoFeeds_reachable any_step (fun _ _ => I)))
    as (_ & _ & Hheld & _).
  rewrite (Hheld eq_refl "src1" 0%nat eq_refl). reflexivity.
Defined.

(** C7 as stated lets no operation change the id a registered source holds, and
    has ids unique among registered sources.  [updateSource('src1', { id: 'src2' })]
    merges the [id] field like any other: the source registered under ["src1"]
    then holds ["src2"], the id the other registered source holds. *)
Lemma updateSource_id_counterexample :
  registered Demo.twoFeeds "src1" 0 /\ held_id Demo.twoFeeds 0 = "src1" /\
  registered Demo.twoFeeds "src2" 1 /\ held_id Demo.twoFeeds 1 = "src2" /\
  registered Demo.renamed "src1" 0 /\ held_id Demo.renamed 0 = "src2" /\
  registered Demo.renamed "src2" 1 /\ held_id Demo.renamed 1 = "src2" /\
  held_id Demo.renamed 0 <> held_id Demo.twoFeeds 0.
Proof. repeat split; discriminate. Qed.

End RegistryIdentityExamples.

Section ReadAccessors.
Import JS Eff DataSourceManager.
Context `{Runtime}.

(** [getSourceData] never raises, changes nothing, and answers the empty list
    when no record set is stored under the identifier. *)
Lemma getSourceData_total (id : string) (st : St Event Fields) :
  exists records,
    getSourceData id st = (Ok records, st) /\
    (OMap.get id (data (this st)) = None -> records = []).
Proof.
  unfold getSourceData, bind, get_this, ret.
  destruct (OMap.get id (data (this st))) as [records|];
    eexists; (split; [reflexivity | done]).
Qed.

Lemma parseCSV_name_value :
  Csv.parseCSV Demo.csv_text =
    Ok [VObj [("name", VStr "a"); ("value", VStr "1")];
        VObj [("name", VStr "b"); ("value", VStr "2")]].
Proof. reflexivity. Qed.

(** The end-to-end scenario of C6: one CSV file registered with a new manager. *)
Lemma getAllData_name_value (file : File.t) (st : St Event Fields) :
  initial st ->
  extension_of file = "csv" ->
  File.text file = Demo.csv_text ->
  fst (getAllData (snd (addFileSource file st))) =
    Ok [VObj [("name", VStr "a"); ("value", VStr "1")];
        VObj [("name", VStr "b"); ("value", VStr "2")]].
Proof.
  intros [Hnew _] Hext Htext. rewrite addFileSource_run. cbv zeta.
  unfold parseFile. rewrite Hext, Htext, parseCSV_name_value. simpl.
  unfold getAllData, bind, get_this, ret. simpl. by rewrite Hnew.
Qed.

End ReadAccessors.

Section StaleTimer.
Import JS Eff DataSourceManager.

(** C6 on a failing input.  [addSource] of an active feed, [removeSource] of it
    within the second, then the timer: no source is registered, so the records of
    the registered sources are none, and [getAllData] returns the three
    demonstration records the timer stored for the removed source.  The same
    after [shutdown] instead of [removeSource]. *)
Lemma getAllData_after_removed_timer :
  fst (getSources Demo.afterTimer) = Ok [] /\
  registered_records Demo.afterTimer = [] /\
  (exists r1 r2 r3,
     fst (getAllData Demo.afterTimer) = Ok [r1; r2; r3] /\
     obj_get (match r1 with VObj o => o | _ => [] end) "source" = VStr "Twitter") /\
  fst (getSources Demo.afterShutdownTimer) = Ok [] /\
  (exists r1 r2 r3, fst (getAllData Demo.afterShutdownTimer) = Ok [r1; r2; r3]).
Proof.
  split; [reflexivity|]. split; [reflexivity|]. split.
  - eexists _, _, _. split; reflexivity.
  - split; [reflexivity|]. by eexists _, _, _.
Qed.

(** C9 on a failing input.  [addSource] of an active feed, which gets the
    identifier ["src1"], then [removeSource] of it within the second: ["src1"] is
    unregistered and [getSourceData] answers the empty list.  Once the timer of
    the removed feed has fired, ["src1"] is still unregistered and
    [getSourceData] answers three records. *)
Lemma getSourceData_after_removed_timer :
  fst (getSource "src1" Demo.removedFeed) = Ok None /\
  fst (getSourceData "src1" Demo.removedFeed) = Ok [] /\
  fst (getSource "src1" Demo.afterTimer) = Ok None /\
  (exists r1 r2 r3, fst (getSourceData "src1" Demo.afterTimer) = Ok [r1; r2; r3]).
Proof.
  split; [reflexivity|]. split; [reflexivity|]. split; [reflexivity|].
  by eexists _, _, _.
Qed.

End StaleTimer.

Section RegisteredRecords.
Import JS Eff DataSourceManager.
Context `{Runtime}.

Lemma keys_delete {V} (k : string) (m : OMap.t V) :
  OMap.keys (OMap.delete k m) = filter (fun x => x <> k) (OMap.keys m).
Proof.
  induction m as [|[k0 v0] m IH]; simpl; [done|].
  rewrite filter_cons. destruct (String.eqb_spec k0 k) as [->|Hne].
  - by rewrite decide_False by (intros Hk; by apply Hk).
  - rewrite decide_True by done. simpl. by rewrite IH.
Qed.

Lemma sublist_filter_mono {A} (P : A -> Prop) `{!forall x, Decision (P x)} (l1 l2 : list A) :
  l1 `sublist_of` l2 -> filter P l1 `sublist_of` filter P l2.
Proof.
  induction 1 as [|x l1 l2 _ IH|x l1 l2 _ IH]; [done| |].
  - rewrite !filter_cons. destruct (decide (P x)); [by constructor | done].
  - rewrite filter_cons. destruct (decide (P x)); [by constructor | done].
Qed.

Lemma reachable_weaken (P Q : St Event Fields -> Step -> Prop) st :
  (forall st step, P st step -> Q st step) -> reachable P st -> reachable Q st.
Proof.
  intros HPQ. induction 1 as [st Hinit|st step _ IH Hstep].
  - by apply reachable_initial.
  - apply reachable_step; [done | by apply HPQ].
Qed.

(** An orderly step keeps the two maps aligned. *)
Lemma aligned_step step st :
  well_formed st -> aligned st -> orderly st step -> aligned (run step st).
Proof.
  intros (_ & Hbound & _) (Hsub & Hnd & Htb & Htk) Hord.
  pose proof (length_heap_change _ _ _ (run_change step st)) as Hlen.
  unfold aligned, registered in *.
  destruct (run_effect step st)
    as [Hs Hd Ht|config scheduled -> Hh Hs Hd Ht Hsch|file records -> Hs Hd Ht
       |file -> Hs Hd Ht|id Hs Hd Ht|ref pending sample -> Htimers Hs Hd Ht|Hs Hd Ht];
    rewrite ?Hs, ?Hd, ?Ht.
  - repeat split; [done | done | |done].
    intros ref Hin. specialize (Htb _ Hin). lia.
  - destruct Hord as [HfreshS HfreshD]. simpl in HfreshS, HfreshD.
    apply get_None_keys in HfreshS, HfreshD.
    rewrite !keys_set_absent by done. repeat split.
    + by apply sublist_app.
    + rewrite <- (keys_set_absent _ ([] : list value)) by done. by apply NoDup_keys_set.
    + intros ref Hin. rewrite Hh. apply elem_of_app in Hin as [Hin|Hin].
      * specialize (Htb _ Hin). lia.
      * destruct Hsch as [->| ->]; [by apply elem_of_nil in Hin|].
        apply list_elem_of_singleton in Hin. lia.
    + intros ref key Hin. destruct (decide (next_id st = key)) as [<-|Hne].
      * intros _. apply elem_of_app. right. by apply list_elem_of_singleton.
      * rewrite get_set_ne by done. intros Hreg. apply elem_of_app. left.
        apply (Htk ref); [|done].
        apply elem_of_app in Hin as [Hin|Hin]; [done|].
        destruct Hsch as [->| ->]; [by apply elem_of_nil in Hin|].
        apply list_elem_of_singleton in Hin. subst ref.
        specialize (Hbound _ _ Hreg). lia.
  - destruct Hord as [HfreshS HfreshD]. simpl in HfreshS, HfreshD.
    apply get_None_keys in HfreshS, HfreshD.
    rewrite !keys_set_absent by done. repeat split.
    + by apply sublist_app.
    + rewrite <- (keys_set_absent _ records) by done. by apply NoDup_keys_set.
    + intros ref Hin. specialize (Htb _ Hin). lia.
    + intros ref key Hin. destruct (decide (next_id st = key)) as [<-|Hne].
      * intros _. apply elem_of_app. right. by apply list_elem_of_singleton.
      * rewrite get_set_ne by done. intros Hreg. apply elem_of_app. left. by apply (Htk ref).
  - destruct Hord as [HfreshS HfreshD]. simpl in HfreshS, HfreshD.
    apply get_None_keys in HfreshS.
    rewrite keys_set_absent by done. repeat split.
    + by apply sublist_inserts_r.
    + done.
    + intros ref Hin. specialize (Htb _ Hin). lia.
    + intros ref key Hin. destruct (decide (next_id st = key)) as [<-|Hne].
      * rewrite get_set_eq. intros [= <-]. specialize (Htb _ Hin). lia.
      * rewrite get_set_ne by done. by apply (Htk ref).
  - rewrite !keys_delete. repeat split.
    + by apply sublist_filter_mono.
    + rewrite <- keys_delete. by apply NoDup_keys_delete.
    + intros ref Hin. specialize (Htb _ Hin). lia.
    + intros ref key Hin. destruct (decide (id = key)) as [<-|Hne].
      * by rewrite get_delete_eq.
      * rewrite get_delete_ne by done. intros Hreg.
        apply list_elem_of_filter. split; [congruence | by apply (Htk ref)].
  - simpl in Hord. rewrite Htimers in Hord. rewrite Htimers in Htb, Htk.
    assert (Hkey : held_id st ref ∈ OMap.keys (data (this st))).
    { apply (Htk ref); [left | done]. }
    rewrite keys_set_present by done. repeat split; [done | done | |].
    + intros ref' Hin. assert (ref' < length (heap (this st)))%nat; [|lia].
      apply Htb. by right.
    + intros ref' key Hin. apply Htk. by right.
  - repeat split; [done | apply NoDup_nil_2 | | done].
    intros ref Hin. specialize (Htb _ Hin). lia.
Qed.

Lemma orderly_keeps_id st step : orderly st step -> keeping_ids st step.
Proof. by destruct step. Qed.

Lemma aligned_reachable st : reachable orderly st -> aligned st.
Proof.
  induction 1 as [st [Hnew _]|st step Hreach IH Hord].
  - unfold aligned, registered. rewrite Hnew. simpl.
    split; [done|]. split; [apply NoDup_nil_2|].
    split; intros ref; [|intros key]; intros Hin; by apply elem_of_nil in Hin.
  - apply aligned_step; [|done|done].
    by apply (well_formed_reachable orderly).
Qed.

Lemma fold_left_app_concat {A} (ls : list (list A)) : forall acc,
  fold_left (fun allData records => allData ++ records) ls acc = acc ++ concat ls.
Proof.
  induction ls as [|l ls IH]; intros acc; simpl; [by rewrite app_nil_r|].
  by rewrite IH, app_assoc.
Qed.

(** Looking the keys of an aligned map up, in the order of a list that contains
    them, reads its values in their order. *)
Lemma concat_lookup_sublist (keys : list string) : forall (m : OMap.t (list value)),
  NoDup keys ->
  OMap.keys m `sublist_of` keys ->
  concat (map (fun key => default [] (OMap.get key m)) keys) = concat (OMap.values m).
Proof.
  induction keys as [|k keys IH]; intros m Hnd Hsub.
  - apply sublist_nil_r in Hsub. by destruct m.
  - apply list.NoDup_cons in Hnd as [Hk Hnd].
    destruct m as [|[k0 v0] m].
    + cbn [map concat]. change (OMap.get k []) with (@None (list value)).
      cbn [default]. rewrite app_nil_l. apply (IH []); [done | apply sublist_nil_l].
    + simpl in Hsub. apply sublist_cons_r in Hsub as [Hsub|(l' & Heq & Hsub)].
      * assert (Hnone : OMap.get k ((k0, v0) :: m) = None).
        { apply get_None_keys. intros Hin. apply Hk.
          by apply (elem_of_sublist _ _ _ Hin). }
        cbn [map concat]. rewrite Hnone. cbn [default]. rewrite app_nil_l. by apply IH.
      * injection Heq as -> <-.
        cbn [map concat OMap.get OMap.values]. rewrite String.eqb_refl. cbn [default snd].
        change (v0 ++ concat (map snd m)) with (v0 ++ concat (OMap.values m)).
        rewrite <- (IH m Hnd Hsub). unfold id. do 2 f_equal.
        apply map_ext_in. intros key Hin.
        destruct (String.eqb_spec k key) as [->|Hne]; [|done].
        exfalso. apply Hk. by apply list_elem_of_In.
Qed.

(** In an orderly history [getAllData] returns the records of every registered
    source, sources in the order of their registration, each with its records in
    their stored order. *)
Lemma getAllData_registered (st : St Event Fields) :
  reachable orderly st -> getAllData st = (Ok (registered_records st), st).
Proof.
  intros Hreach.
  pose proof (aligned_reachable st Hreach) as (Hsub & _ & _ & _).
  pose proof (well_formed_reachable orderly st Hreach) as (Hnd & _ & _).
  unfold getAllData, bind, get_this, ret, registered_records, records_of.
  rewrite fold_left_app_concat, app_nil_l.
  by rewrite concat_lookup_sublist.
Qed.

(** In an orderly history no record set is stored under an unregistered
    identifier. *)
Lemma getSourceData_unregistered (id : string) (st : St Event Fields) :
  reachable orderly st ->
  OMap.get id (sources (this st)) = None ->
  getSourceData id st = (Ok [], st).
Proof.
  intros Hreach Hnone.
  pose proof (aligned_reachable st Hreach) as (Hsub & _ & _ & _).
  assert (Hdata : OMap.get id (data (this st)) = None).
  { apply get_None_keys. intros Hin. apply get_None_keys in Hnone. apply Hnone.
    by apply (elem_of_sublist _ _ _ Hin). }
  unfold getSourceData, bind, get_this, ret. by rewrite Hdata.
Qed.

End RegisteredRecords.

(* ================================================================== *)
(** * Further properties of the code *)
(* ================================================================== *)

Section EventEmitterFacts.
Import JS EventEmitter.
Context {W : Type} (call : Listener -> list value -> W -> Res unit * W).

Lemma call_each_world event listeners args : forall w logged,
  fst (call_each call event listeners args w logged) =
    fold_left (fun w listener => snd (call listener args w)) listeners w.
Proof.
  induction listeners as [|l listeners IH]; intros w logged; simpl; [done|].
  destruct (call l args w) as [[[]|e] w']; simpl; apply IH.
Qed.

Lemma call_each_app event listeners1 listeners2 args : forall w logged,
  call_each call event (listeners1 ++ listeners2) args w logged =
    call_each call event listeners2 args
      (fst (call_each call event listeners1 args w logged))
      (snd (call_each call event listeners1 args w logged)).
Proof.
  induction listeners1 as [|l listeners1 IH]; intros w logged; simpl; [done|].
  destruct (call l args w) as [[[]|e] w']; simpl; apply IH.
Qed.

Lemma call_each_logged event listeners args : forall w logged,
  exists errors,
    snd (call_each call event listeners args w logged) = logged ++ map (report event) errors /\
    (length errors <= length listeners)%nat.
Proof.
  induction listeners as [|l listeners IH]; intros w logged; simpl.
  - exists []. by rewrite app_nil_r.
  - destruct (call l args w) as [[[]|e] w']; simpl.
    + destruct (IH w' logged) as (errors & -> & Hlen). exists errors. split; [done | lia].
    + destruct (IH w' (logged ++ [report event e])) as (errors & -> & Hlen).
      exists (e :: errors). rewrite <- app_assoc. split; [done | simpl; lia].
Qed.

Lemma listeners_of_on event listener events :
  listeners_of event (on event listener events) = listeners_of event events ++ [listener].
Proof.
  unfold listeners_of, on, has.
  destruct (OMap.get event events) as [listeners|] eqn:Hget.
  - by rewrite Hget, get_set_eq.
  - by rewrite !get_set_eq.
Qed.

Lemma listeners_of_on_ne event event' listener events :
  event <> event' ->
  listeners_of event' (on event listener events) = listeners_of event' events.
Proof.
  intros Hne. unfold listeners_of, on, has.
  destruct (OMap.get event events) as [listeners|] eqn:Hget.
  - by rewrite Hget, get_set_ne.
  - by rewrite get_set_eq, !get_set_ne.
Qed.

Lemma emit_listeners_of event args events w logged :
  emit call event args events w logged =
    call_each call event (listeners_of event events) args w logged.
Proof. unfold emit, listeners_of. by destruct (OMap.get event events). Qed.

(** [emit] calls every listener of the event, in registration order, each from
    the world its predecessor left, whether or not that one raised; what is
    raised goes to the console only, one entry per raising listener.  A listener
    added with [on] runs after those registered before, and only for its event. *)
Theorem emit_calls_every_listener (event : string) (args : list value)
    (events : Events) (w : W) (logged : list (string * JsError)) :
  fst (emit call event args events w logged) =
    fold_left (fun w listener => snd (call listener args w)) (listeners_of event events) w /\
  (exists errors,
     snd (emit call event args events w logged) = logged ++ map (report event) errors /\
     (length errors <= length (listeners_of event events))%nat) /\
  (forall listener,
     fst (emit call event args (on event listener events) w logged) =
       snd (call listener args (fst (emit call event args events w logged)))) /\
  (forall listener event', event' <> event ->
     emit call event args (on event' listener events) w logged =
       emit call event args events w logged).
Proof.
  rewrite !emit_listeners_of. split; [apply call_each_world|].
  split; [apply call_each_logged|]. split.
  - intros listener. rewrite emit_listeners_of, listeners_of_on, call_each_app. simpl.
    by destruct (call listener args _) as [[[]|e] w'].
  - intros listener event' Hne. by rewrite emit_listeners_of, listeners_of_on_ne.
Qed.

End EventEmitterFacts.

Section EventEmitterRegistration.
Import JS EventEmitter.

Lemma indexOf_first listener pre post :
  listener ∉ pre -> indexOf listener (pre ++ listener :: post) = Some (length pre).
Proof.
  induction pre as [|l pre IH]; simpl; intros Hnot.
  - by rewrite Nat.eqb_refl.
  - apply not_elem_of_cons in Hnot as [Hne Hnot].
    destruct (Nat.eqb_spec l listener) as [->|_]; [done|]. by rewrite IH.
Qed.

Lemma indexOf_absent listener listeners :
  listener ∉ listeners -> indexOf listener listeners = None.
Proof.
  induction listeners as [|l listeners IH]; simpl; intros Hnot; [done|].
  apply not_elem_of_cons in Hnot as [Hne Hnot].
  destruct (Nat.eqb_spec l listener) as [->|_]; [done|]. by rewrite IH.
Qed.

Lemma splice1_middle (pre post : list Listener) listener :
  splice1 (length pre) (pre ++ listener :: post) = pre ++ post.
Proof.
  unfold splice1. induction pre as [|l pre IH]; simpl; [done|]. by rewrite IH.
Qed.

Lemma off_registered (event : string) (listener : Listener) (events : Events)
    (pre post : list Listener) :
  listeners_of event events = pre ++ listener :: post ->
  listener ∉ pre ->
  off event listener events = OMap.set event (pre ++ post) events.
Proof.
  unfold listeners_of, off. intros Hls Hnot.
  destruct (OMap.get event events) as [listeners|] eqn:Hget; simpl in Hls;
    [subst listeners | by destruct pre].
  by rewrite indexOf_first, splice1_middle.
Qed.

(** [off] removes one registration of the listener, the earliest one, and
    leaves the other events alone. *)
Theorem off_removes_earliest (event : string) (listener : Listener) (events : Events)
    (pre post : list Listener) :
  listeners_of event events = pre ++ listener :: post ->
  listener ∉ pre ->
  listeners_of event (off event listener events) = pre ++ post /\
  (forall event', event' <> event ->
     listeners_of event' (off event listener events) = listeners_of event' events).
Proof.
  intros Hls Hnot. rewrite (off_registered _ _ _ _ _ Hls Hnot).
  unfold listeners_of. split.
  - by rewrite get_set_eq.
  - intros event' Hne. by rewrite get_set_ne.
Qed.

Lemma off_removes_earliest_witness :
  listeners_of "sourceAdded"
    (off "sourceAdded" 7 (on "sourceAdded" 7 (on "sourceAdded" 8 (on "sourceAdded" 7 new))))
  = [8; 7]%nat.
Proof.
  apply (proj1 (off_removes_earliest "sourceAdded" 7
                  (on "sourceAdded" 7 (on "sourceAdded" 8 (on "sourceAdded" 7 new)))
                  [] [8; 7]%nat eq_refl (not_elem_of_nil 7%nat))).
Defined.

(** [off] of a listener that is not registered for the event changes nothing;
    [on] followed by [off] of a listener that was not registered gives back the
    listeners there were, and leaves the event known to the emitter. *)
Theorem off_unregistered (event : string) (listener : Listener) (events : Events) :
  listener ∉ listeners_of event events ->
  off event listener events = events /\
  listeners_of event (off event listener (on event listener events)) =
    listeners_of event events /\
  has event (off event listener (on event listener events)) = true.
Proof.
  intros Hnot. split; [|split].
  - unfold off, listeners_of in *.
    destruct (OMap.get event events) as [listeners|]; [|done].
    by rewrite indexOf_absent.
  - rewrite (off_registered event listener (on event listener events)
               (listeners_of event events) []);
      [|apply listeners_of_on | done].
    unfold listeners_of at 1. by rewrite get_set_eq, app_nil_r.
  - unfold has, off, on, has.
    destruct (OMap.get event events) as [listeners|] eqn:Hget.
    + rewrite Hget, get_set_eq.
      destruct (indexOf listener (listeners ++ [listener])); by rewrite get_set_eq.
    + rewrite !get_set_eq. simpl. rewrite Nat.eqb_refl. by rewrite get_set_eq.
Qed.

Lemma off_unregistered_witness :
  off "dataProcessed" 3 (on "dataProcessed" 4 new) = on "dataProcessed" 4 new.
Proof.
  apply (proj1 (off_unregistered "dataProcessed" 3 (on "dataProcessed" 4 new)
                  ltac:(intros Hin; apply list_elem_of_In in Hin; simpl in Hin; intuition lia))).
Defined.

(** [removeAllListeners(event)] forgets the listeners of that event only, when
    the event name is not empty; without an argument, and with the empty string,
    it forgets the listeners of every event. *)
Theorem removeAllListeners_scope (events : Events) :
  (forall name, name <> EmptyString ->
     listeners_of name (removeAllListeners (Some name) events) = [] /\
     forall event', event' <> name ->
       listeners_of event' (removeAllListeners (Some name) events) =
         listeners_of event' events) /\
  removeAllListeners None events = new /\
  removeAllListeners (Some EmptyString) events = new /\
  (forall event', listeners_of event' new = []).
Proof.
  split; [|done]. intros name Hname. unfold removeAllListeners, listeners_of.
  destruct name as [|c name]; [done|]. simpl truthy_str. cbv iota. split.
  - by rewrite get_delete_eq.
  - intros event' Hne. by rewrite get_delete_ne.
Qed.

End EventEmitterRegistration.

Ltac registry_monad :=
  unfold DataSourceManager.initialize, DataSourceManager.addSource,
    DataSourceManager.updateSource, DataSourceManager.removeSource,
    DataSourceManager.shutdown, DataSourceManager.timeout,
    DataSourceManager.loadSampleData, DataSourceManager.generateOSINTData,
    DataSourceManager.generateNetworkData, DataSourceManager.generateThreatData,
    DataSourceManager.generateGenericData, DataSourceManager.stamp_ago,
    DataSourceManager.generateId, DataSourceManager.alloc, DataSourceManager.read,
    DataSourceManager.write, DataSourceManager.sources_set, DataSourceManager.data_set,
    DataSourceManager.setTimeout, DataSourceManager.getSource,
    DataSourceManager.getSources, DataSourceManager.getSourceData,
    DataSourceManager.getAllData, Eff.emit, Eff.throw, Eff.try_catch, Eff.bind,
    Eff.Math_random, Eff.Date_now, Eff.get_this, Eff.set_this, Eff.ret;
  cbn [Eff.draws Eff.ticks Eff.emitted Eff.this DataSourceManager.heap
       DataSourceManager.sources DataSourceManager.data DataSourceManager.isInitialized
       DataSourceManager.timers fst snd].

Section RegistryCalls.
Import JS Eff DataSourceManager.
Context `{Runtime}.

(** [removeSource] and [updateSource] of an identifier that is not registered
    raise [Source not found: id] and do nothing else: no field changes, nothing
    is emitted, the clock is not read. *)
Theorem unregistered_id_rejected (id : string) (updates : Updates.t)
    (st : St Event Fields) :
  OMap.get id (sources (this st)) = None ->
  removeSource id st = (Throw (SourceNotFound id), st) /\
  updateSource id updates st = (Throw (SourceNotFound id), st).
Proof.
  intros Hnone. registry_monad. by rewrite Hnone.
Qed.

(** [removeSource] of a registered identifier emits [sourceRemoved] with the
    source as it stood, after which the identifier names no source and no record
    set; the other sources, their record sets and the pending timers are as
    before. *)
Theorem removeSource_registered (id : string) (ref : nat) (st : St Event Fields) :
  registered st id ref ->
  fst (removeSource id st) = Ok tt /\
  emitted (snd (removeSource id st)) =
    emitted st ++ [sourceRemoved (heap (this st) !!! ref)] /\
  fst (getSource id (snd (removeSource id st))) = Ok None /\
  fst (getSourceData id (snd (removeSource id st))) = Ok [] /\
  (forall id', id' <> id ->
     fst (getSource id' (snd (removeSource id st))) = fst (getSource id' st) /\
     fst (getSourceData id' (snd (removeSource id st))) = fst (getSourceData id' st)) /\
  timers (this (snd (removeSource id st))) = timers (this st).
Proof.
  unfold registered. intros Hreg. registry_monad. rewrite Hreg.
  cbn [draws ticks emitted this heap sources data isInitialized timers fst snd].
  rewrite !get_delete_eq. repeat split; try done.
  - by rewrite get_delete_ne.
  - by rewrite get_delete_ne.
Qed.

(** [updateSource] of a registered identifier merges the supplied fields into
    the source, stamps it with the time of the call whatever [lastUpdated] the
    update carries, and emits [sourceUpdated] with the merged source; the keys of
    the registry and every record set are as before. *)
Theorem updateSource_registered (id : string) (ref : nat) (updates : Updates.t)
    (st : St Event Fields) :
  well_formed st ->
  registered st id ref ->
  let merged := assign updates (clock (ticks st)) (heap (this st) !!! ref) in
  fst (updateSource id updates st) = Ok tt /\
  emitted (snd (updateSource id updates st)) = emitted st ++ [sourceUpdated merged] /\
  fst (getSource id (snd (updateSource id updates st))) = Ok (Some merged) /\
  DataSource.lastUpdated merged = clock (ticks st) /\
  sources (this (snd (updateSource id updates st))) = sources (this st) /\
  data (this (snd (updateSource id updates st))) = data (this st).
Proof.
  intros (_ & Hbound & _) Hreg merged. subst merged.
  pose proof (Hbound _ _ Hreg) as Hlt. unfold registered in Hreg.
  registry_monad. rewrite Hreg.
  cbn [draws ticks emitted this heap sources data isInitialized timers fst snd].
  rewrite Hreg, list_lookup_total_alter_eq by done. done.
Qed.

(** [addSource] registers a source under the generated identifier with the
    fields of the configuration, status [inactive] when none is given, and an
    empty record set (also when the identifier was in use); it emits
    [sourceAdded] once, and schedules the background population exactly when the
    status is [active]. *)
Theorem addSource_registers (config : DataSourceConfig.t) (st : St Event Fields) :
  let source :=
    DataSource.mk (next_id st) (DataSourceConfig.name config)
      (DataSourceConfig.type config) (DataSourceConfig.url config)
      (default Status.inactive (DataSourceConfig.status config))
      (clock (ticks st)) (DataSource.OfConfig config) in
  fst (addSource config st) = Ok source /\
  fst (getSource (next_id st) (snd (addSource config st))) = Ok (Some source) /\
  fst (getSourceData (next_id st) (snd (addSource config st))) = Ok [] /\
  emitted (snd (addSource config st)) = emitted st ++ [sourceAdded source] /\
  timers (this (snd (addSource config st))) =
    timers (this st) ++
    match DataSourceConfig.status config with
    | Some Status.active => [length (heap (this st))]
    | _ => []
    end.
Proof.
  intros source. subst source. registry_monad.
  rewrite lookup_total_snoc. cbn [DataSource.id DataSource.status].
  unfold next_id.
  destruct (DataSourceConfig.status config) as [[| |]|];
    cbn [from_option id draws ticks emitted this heap sources data isInitialized
         timers fst snd];
    rewrite !get_set_eq, lookup_total_snoc, ?app_nil_r; done.
Qed.

End RegistryCalls.

Section RegistryCallsExamples.
Import JS Eff DataSourceManager.

Lemma unregistered_id_rejected_witness :
  removeSource "src9" Demo.twoFeeds = (Throw (SourceNotFound "src9"), Demo.twoFeeds).
Proof.
  apply (proj1 (@unregistered_id_rejected Demo.runtime "src9" Updates.none
                  Demo.twoFeeds eq_refl)).
Defined.

Lemma removeSource_registered_witness :
  fst (getSource "src1" (snd (removeSource "src1" Demo.twoFeeds))) = Ok None.
Proof.
  apply (proj1 (proj2 (proj2 (removeSource_registered "src1" 0 Demo.twoFeeds eq_refl)))).
Defined.

Lemma updateSource_registered_witness :
  sources (this (snd (@updateSource Demo.runtime "src2"
                        (Updates.mk None None None None (Some Status.inactive) (Some 0%Z) None)
                        Demo.twoFeeds)))
  = sources (this Demo.twoFeeds).
Proof.
  apply (proj1 (proj2 (proj2 (proj2 (proj2
           (@updateSource_registered Demo.runtime "src2" 1
              (Updates.mk None None None None (Some Status.inactive) (Some 0%Z) None)
              Demo.twoFeeds
              (well_formed_reachable any_step _
                 (twoFeeds_reachable any_step (fun _ _ => I)))
              eq_refl)))))).
Defined.

End RegistryCallsExamples.

Section FileFormats.
Import JS Eff DataSourceManager.
Context `{Runtime}.

Lemma split_dotless (s : string) : dotless s = true -> split "."%char s = [s].
Proof.
  unfold dotless. induction s as [|c s IH]; [done|].
  cbn [list_ascii_of_string existsb split]. intros Hs.
  apply negb_true_iff, orb_false_iff in Hs as [Hc Hs].
  rewrite Ascii.eqb_sym in Hc. rewrite Hc, IH; [done|].
  by apply negb_true_iff.
Qed.

Lemma split_after_separator (sep : ascii) (b : string) : forall a : string,
  exists pre, split sep (a +:+ String sep b) = pre ++ split sep b /\ pre <> [].
Proof.
  induction a as [|c a (pre & IH & Hpre)]; simpl.
  - rewrite Ascii.eqb_refl. by exists [EmptyString].
  - rewrite IH. destruct (Ascii.eqb c sep).
    + by exists (EmptyString :: pre).
    + destruct pre as [|piece pre]; [done|]. by exists (String c piece :: pre).
Qed.

(** [parseFile] chooses the normaliser by the part of the file name after its
    last dot, in any letter case; a name without a dot is its own extension.  An
    extension other than [json], [csv], [xml] and [txt] raises [Unsupported file
    type], naming the lower-cased extension, without reading the clock or
    changing any field. *)
Theorem parseFile_by_last_segment (base ext text : string) (st : St Event Fields) :
  dotless ext = true ->
  extension_of (File.mk (base +:+ "." +:+ ext) text) = toLowerCase ext /\
  extension_of (File.mk ext text) = toLowerCase ext /\
  (toLowerCase ext = "json" ->
   parseFile (File.mk (base +:+ "." +:+ ext) text) st = (parseJSON text, st)) /\
  (toLowerCase ext = "csv" ->
   parseFile (File.mk (base +:+ "." +:+ ext) text) st = (Csv.parseCSV text, st)) /\
  (toLowerCase ext = "xml" ->
   parseFile (File.mk (base +:+ "." +:+ ext) text) st = (parseXML text, st)) /\
  (toLowerCase ext = "txt" ->
   parseFile (File.mk (base +:+ "." +:+ ext) text) st = parseText text st) /\
  (toLowerCase ext ∉ ["json"; "csv"; "xml"; "txt"] ->
   parseFile (File.mk (base +:+ "." +:+ ext) text) st =
     (Throw (UnsupportedFormat (toLowerCase ext)), st)).
Proof.
  intros Hext.
  assert (Hlong : extension_of (File.mk (base +:+ "." +:+ ext) text) = toLowerCase ext).
  { unfold extension_of, pop. cbn [File.name].
    change ("." +:+ ext) with (String "."%char ext).
    destruct (split_after_separator "."%char ext base) as (pre & -> & _).
    by rewrite split_dotless, last_last. }
  split; [done|]. split.
  { unfold extension_of, pop. cbn [File.name]. by rewrite split_dotless. }
  unfold parseFile. rewrite Hlong. cbn [File.text]. unfold lift, throw.
  repeat split.
  - by intros ->.
  - by intros ->.
  - by intros ->.
  - by intros ->.
  - intros Hnot.
    repeat match goal with
    | |- context [String.eqb ?a ?b] =>
        destruct (String.eqb_spec a b) as [Heq|_];
        [exfalso; apply Hnot; rewrite Heq; apply list_elem_of_In; simpl; tauto|]
    end.
    done.
Qed.

Lemma text_records_spec (lines : list string) : forall index (st : St Event Fields),
  exists records,
    text_records lines index st =
      (Ok records, mkSt (draws st) (ticks st + length lines) (emitted st) (this st)) /\
    length records = length lines /\
    forall i line, lines !! i = Some line ->
      records !! i =
        Some (VObj [("id", VNum (inject_Z (Z.of_nat (index + i + 1))));
                    ("content", VStr (trim line));
                    ("timestamp", VStr (toISOString (clock (ticks st + i))))]).
Proof.
  induction lines as [|line lines IH]; intros index st; simpl.
  - exists []. destruct st. unfold ret. simpl. by rewrite Nat.add_0_r.
  - unfold bind at 1. unfold Date_now at 1.
    destruct (IH (S index) (mkSt (draws st) (S (ticks st)) (emitted st) (this st)))
      as (records & Hrun & Hlen & Hget).
    unfold bind at 1. rewrite Hrun. unfold ret. cbn [draws ticks emitted this] in *.
    eexists. split; [|split].
    + f_equal. f_equal. lia.
    + simpl. by rewrite Hlen.
    + intros [|i] l Hl; simpl in *.
      * injection Hl as <-. by rewrite !Nat.add_0_r.
      * rewrite (Hget _ _ Hl). repeat f_equal; lia.
Qed.

(** [parseText] never fails: it makes one record per non-blank line, in order,
    numbered from 1, holding the trimmed line and the time read for that line;
    the clock is read once per record and nothing else changes. *)
Theorem parseText_records (text : string) (st : St Event Fields) :
  exists records,
    parseText text st =
      (Ok records,
       mkSt (draws st) (ticks st + length (Csv.lines_of text)) (emitted st) (this st)) /\
    length records = length (Csv.lines_of text) /\
    forall i line, Csv.lines_of text !! i = Some line ->
      records !! i =
        Some (VObj [("id", VNum (inject_Z (Z.of_nat (i + 1))));
                    ("content", VStr (trim line));
                    ("timestamp", VStr (toISOString (clock (ticks st + i))))]).
Proof. apply (text_records_spec (Csv.lines_of text) 0 st). Qed.

End FileFormats.

Section FileFormatsExamples.
Import JS Eff DataSourceManager.

Lemma parseFile_by_last_segment_witness :
  @extension_of (File.mk "archive.tar.CSV" Demo.csv_text) = "csv".
Proof.
  apply (proj1 (@parseFile_by_last_segment Demo.runtime "archive.tar" "CSV" Demo.csv_text
                  Demo.dataSourceManager0 eq_refl)).
Defined.

End FileFormatsExamples.

Section CsvFields.
Import JS Csv.

Lemma obj_has_keys (o : object) (k : string) :
  obj_has o k = existsb (fun k' => String.eqb k' k) (map fst o).
Proof. unfold obj_has. induction o as [|[k' v] o IH]; [done|]. simpl. by rewrite IH. Qed.

Lemma obj_has_elem_of (o : object) (k : string) : obj_has o k = true <-> k ∈ map fst o.
Proof.
  rewrite obj_has_keys, existsb_exists. split.
  - intros (k' & Hin & Heq). apply String.eqb_eq in Heq as <-. by apply list_elem_of_In.
  - intros Hin. exists k. split; [by apply list_elem_of_In | apply String.eqb_refl].
Qed.

Lemma keys_obj_replace (o : object) (k : string) (v : value) :
  map fst (obj_replace o k v) = map fst o.
Proof.
  induction o as [|[k' v'] o IH]; [done|]. simpl.
  destruct (String.eqb_spec k' k) as [->|_]; simpl; [done | by rewrite IH].
Qed.

Lemma keys_obj_insert_index (n : N) (k : string) (v1 v2 : value) (o1 : object) :
  forall o2, map fst o1 = map fst o2 ->
  map fst (obj_insert_index n k v1 o1) = map fst (obj_insert_index n k v2 o2).
Proof.
  induction o1 as [|[k1 w1] o1 IH]; intros [|[k2 w2] o2] Hkeys; try done.
  simpl in Hkeys. injection Hkeys as -> Hkeys. simpl.
  destruct (array_index k2) as [n'|]; [|by simpl; rewrite Hkeys].
  destruct (n' <? n)%N; simpl; [by rewrite (IH o2) | by rewrite Hkeys].
Qed.

Lemma keys_obj_insert_index_Permutation (n : N) (k : string) (v : value) (o : object) :
  Permutation (map fst (obj_insert_index n k v o)) (k :: map fst o).
Proof.
  induction o as [|[k' v'] o IH]; [done|]. simpl.
  destruct (array_index k') as [n'|]; [|done].
  destruct (n' <? n)%N; [|done]. simpl. rewrite IH. apply perm_swap.
Qed.

(** The property names after an assignment depend on the names before it and
    on the name assigned, not on the values. *)
Lemma keys_obj_set (o1 o2 : object) (k s1 s2 : string) :
  map fst o1 = map fst o2 -> map fst (obj_set o1 k s1) = map fst (obj_set o2 k s2).
Proof.
  intros Hkeys. unfold obj_set. destruct (String.eqb k "__proto__"); [done|].
  rewrite !obj_has_keys, Hkeys.
  destruct (existsb _ (map fst o2)); [by rewrite !keys_obj_replace|].
  destruct (array_index k) as [n|]; [by apply keys_obj_insert_index|].
  by rewrite !map_app, Hkeys.
Qed.

Lemma keys_obj_set_cases (o : object) (k s : string) :
  (k = "__proto__" /\ obj_set o k s = o) \/
  (k <> "__proto__" /\ k ∈ map fst o /\ map fst (obj_set o k s) = map fst o) \/
  (k <> "__proto__" /\ (k ∉ map fst o) /\
   Permutation (map fst (obj_set o k s)) (k :: map fst o)).
Proof.
  unfold obj_set. destruct (String.eqb_spec k "__proto__") as [->|Hne]; [by left|].
  right. destruct (obj_has o k) eqn:Hhas.
  - left. split; [done|]. split; [by apply obj_has_elem_of | apply keys_obj_replace].
  - right. split; [done|]. split.
    + intros Hin. apply obj_has_elem_of in Hin. congruence.
    + destruct (array_index k) as [n|]; [apply keys_obj_insert_index_Permutation|].
      rewrite map_app. simpl. by rewrite Permutation_app_comm.
Qed.

Lemma strings_obj_set (o : object) (k s : string) :
  Forall (fun kv => exists s', snd kv = VStr s') o ->
  Forall (fun kv => exists s', snd kv = VStr s') (obj_set o k s).
Proof.
  intros Ho. unfold obj_set. destruct (String.eqb k "__proto__"); [done|].
  destruct (obj_has o k).
  - induction Ho as [|[k' v'] o Hv Ho IH]; simpl; [constructor|].
    destruct (String.eqb k' k); constructor; try done. by exists s.
  - destruct (array_index k) as [n|].
    + induction Ho as [|[k' v'] o Hv Ho IH]; simpl.
      * constructor; [by exists s | constructor].
      * destruct (array_index k') as [n'|];
          [destruct (n' <? n)%N|]; repeat constructor; try done; by exists s.
    + apply Forall_app. split; [done|]. constructor; [by exists s | constructor].
Qed.

(** The property names of a filled row depend on the header alone. *)
Lemma fill_row_keys (headers : list string) : forall index1 index2 values1 values2 row1 row2,
  map fst row1 = map fst row2 ->
  map fst (fill_row headers index1 values1 row1) =
    map fst (fill_row headers index2 values2 row2).
Proof.
  induction headers as [|h headers IH]; intros index1 index2 values1 values2 row1 row2 Hkeys;
    simpl; [done|].
  by apply IH, keys_obj_set.
Qed.

Lemma fill_row_names (headers : list string) : forall index values row,
  NoDup (map fst row) ->
  NoDup (map fst (fill_row headers index values row)) /\
  forall name,
    name ∈ map fst (fill_row headers index values row) <->
    name ∈ map fst row \/ (name ∈ headers /\ name <> "__proto__").
Proof.
  induction headers as [|h headers IH]; intros index values row Hnd; simpl.
  - split; [done|]. intros name. split; [by left | intros [?|[Hin _]]; [done|]].
    by apply elem_of_nil in Hin.
  - set (row' := obj_set row h (value_or_empty values index)).
    assert (Hrow' : NoDup (map fst row') /\
              (forall name, name ∈ map fst row' <->
                            name ∈ map fst row \/ (name = h /\ name <> "__proto__"))).
    { subst row'.
      destruct (keys_obj_set_cases row h (value_or_empty values index))
        as [[-> ->]|[(Hne & Hin & ->)|(Hne & Hnot & Hperm)]].
      - split; [done|]. intros name. split; [by left | intros [?|[-> ?]]; done].
      - split; [done|]. intros name. split; [by left | intros [?|[-> ?]]; done].
      - split; [rewrite Hperm; by apply list.NoDup_cons|].
        intros name. rewrite Hperm, elem_of_cons. split.
        + intros [->|?]; [by right | by left].
        + intros [?|[-> _]]; [by right | by left]. }
    destruct Hrow' as [Hnd' Hiff'].
    destruct (IH (S index) values row' Hnd') as [Hnd'' Hiff'']. split; [done|].
    intros name. rewrite Hiff'', Hiff', elem_of_cons. tauto.
Qed.

Lemma fill_row_strings (headers : list string) : forall index values row,
  Forall (fun kv => exists s, snd kv = VStr s) row ->
  Forall (fun kv => exists s, snd kv = VStr s) (fill_row headers index values row).
Proof.
  induction headers as [|h headers IH]; intros index values row Hrow; simpl; [done|].
  by apply IH, strings_obj_set.
Qed.

(** The records [parseCSV] returns all have the same property names, in the same
    order: the distinct names of the header line other than [__proto__].  Every
    value is a string. *)
Theorem parseCSV_uniform_fields (text : string) (records : list value) :
  parseCSV text = Ok records ->
  exists names,
    NoDup names /\
    (forall name,
       name ∈ names <->
       name ∈ cells (nth 0 (lines_of text) EmptyString) /\ name <> "__proto__") /\
    Forall (fun record =>
              exists props,
                record = VObj props /\ map fst props = names /\
                Forall (fun kv => exists s, snd kv = VStr s) props) records.
Proof.
  unfold parseCSV. destruct (length (lines_of text) <? 2)%nat; [done|].
  intros [= <-]. rewrite rows_loop_map by lia. cbn [app].
  fold (cells (nth 0 (lines_of text) EmptyString)).
  set (headers := cells (nth 0 (lines_of text) EmptyString)).
  destruct (fill_row_names headers 0 [] [] NoDup_nil_2) as [Hnd Hiff].
  exists (map fst (fill_row headers 0 [] [])). split; [exact Hnd|]. split.
  - intros name. rewrite Hiff. split; [intros [Hin|?]; [|done] | by right].
    by apply elem_of_nil in Hin.
  - apply Forall_map, Forall_forall. intros line _. unfold row_of_line.
    eexists. split; [done|]. split; [by apply fill_row_keys|].
    by apply fill_row_strings.
Qed.

Lemma parseCSV_uniform_fields_witness :
  exists names,
    NoDup names /\
    (forall name,
       name ∈ names <->
       name ∈ cells (nth 0 (lines_of Demo.proto_csv) EmptyString) /\ name <> "__proto__") /\
    Forall (fun record =>
              exists props,
                record = VObj props /\ map fst props = names /\
                Forall (fun kv => exists s, snd kv = VStr s) props)
      [VObj [("a", VStr "y")]].
Proof. apply (parseCSV_uniform_fields Demo.proto_csv _ eq_refl). Defined.

End CsvFields.

Section Timers.
Import JS Eff DataSourceManager.
Context `{Runtime}.

Lemma with_lastUpdated_alter (now : Z) (ref r : nat) (objects : list DataSource.t) :
  DataSource.id (alter (DataSource.with_lastUpdated now) ref objects !!! r) =
    DataSource.id (objects !!! r) /\
  DataSource.status (alter (DataSource.with_lastUpdated now) ref objects !!! r) =
    DataSource.status (objects !!! r) /\
  DataSource.type (alter (DataSource.with_lastUpdated now) ref objects !!! r) =
    DataSource.type (objects !!! r).
Proof.
  rewrite list_lookup_total_alter.
  destruct (decide (ref = r /\ (ref < length objects)%nat)) as [[-> _]|_]; done.
Qed.

(** What one firing of a timer does, whatever has happened to its source in
    between: it stores the demonstration records of the source's type (three for
    [osint] and [network], two for [threat], one otherwise) under the [id] the
    source object holds, and leaves the other record sets, the keys of the
    registry, and the [id], [status] and [type] of every source alone. *)
Theorem timeout_populates (st : St Event Fields) (ref : nat) (pending : list nat) :
  timers (this st) = ref :: pending ->
  sources (this (run Timeout st)) = sources (this st) /\
  timers (this (run Timeout st)) = pending /\
  (forall r,
     DataSource.id (heap (this (run Timeout st)) !!! r) =
       DataSource.id (heap (this st) !!! r) /\
     DataSource.status (heap (this (run Timeout st)) !!! r) =
       DataSource.status (heap (this st) !!! r) /\
     DataSource.type (heap (this (run Timeout st)) !!! r) =
       DataSource.type (heap (this st) !!! r)) /\
  length (records_of (run Timeout st) (held_id st ref)) =
    match DataSource.type (heap (this st) !!! ref) with
    | SourceType.osint | SourceType.network => 3
    | SourceType.threat => 2
    | SourceType.custom => 1
    end /\
  (forall id, id <> held_id st ref ->
     records_of (run Timeout st) id = records_of st id).
Proof.
  intros Htimers. unfold run, records_of, held_id. registry_monad. rewrite Htimers.
  cbn [draws ticks emitted this heap sources data isInitialized timers fst snd].
  destruct (DataSource.type (heap (this st) !!! ref));
    cbn [draws ticks emitted this heap sources data isInitialized timers fst snd];
    destruct (OMap.get (DataSource.id (heap (this st) !!! ref)) (sources (this st)))
      as [ref'|];
    cbn [draws ticks emitted this heap sources data isInitialized timers fst snd];
    rewrite get_set_eq;
    (split; [done|]); (split; [done|]);
    (split; [intros r; try done; apply with_lastUpdated_alter|]);
    (split; [done|]);
    intros id Hid; by rewrite get_set_ne.
Qed.

(** [shutdown] empties the registry and the record sets without emitting an
    event, but cancels no timer: when a pending timer fires afterwards, its
    demonstration records are stored and reported by [dataProcessed], and
    [getAllData] returns them although no source is registered. *)
Theorem shutdown_keeps_timers (st : St Event Fields) (ref : nat) (pending : list nat) :
  timers (this st) = ref :: pending ->
  fst (getSources (run Shutdown st)) = Ok [] /\
  fst (getAllData (run Shutdown st)) = Ok [] /\
  emitted (run Shutdown st) = emitted st /\
  timers (this (run Shutdown st)) = ref :: pending /\
  fst (getSources (run Timeout (run Shutdown st))) = Ok [] /\
  exists records,
    records <> [] /\
    fst (getAllData (run Timeout (run Shutdown st))) = Ok records /\
    fst (getSourceData (held_id st ref) (run Timeout (run Shutdown st))) = Ok records /\
    emitted (run Timeout (run Shutdown st)) =
      emitted st ++ [dataProcessed (held_id st ref) records].
Proof.
  intros Htimers. unfold run, held_id. registry_monad. rewrite Htimers.
  cbn [draws ticks emitted this heap sources data isInitialized timers fst snd].
  do 4 (split; [done|]).
  destruct (DataSource.type (heap (this st) !!! ref));
    cbn [draws ticks emitted this heap sources data isInitialized timers fst snd
         OMap.get OMap.set OMap.empty OMap.values map fold_left app];
    rewrite String.eqb_refl; (split; [done|]); eexists;
    (split; [|split; [reflexivity|split; reflexivity]]); done.
Qed.

End Timers.

Section TimersExamples.
Import JS Eff DataSourceManager.

Lemma timeout_populates_witness :
  length (records_of (@run Demo.runtime Timeout Demo.registeredFeed) "src1") = 3.
Proof.
  apply (proj1 (proj2 (proj2 (proj2
           (@timeout_populates Demo.runtime Demo.registeredFeed 0 [] eq_refl))))).
Defined.

Lemma shutdown_keeps_timers_witness :
  fst (getSources (@run Demo.runtime Timeout (@run Demo.runtime Shutdown Demo.registeredFeed)))
  = Ok [].
Proof.
  apply (proj1 (proj2 (proj2 (proj2 (proj2
           (@shutdown_keeps_timers Demo.runtime Demo.registeredFeed 0 [] eq_refl)))))).
Defined.

End TimersExamples.

Section ThreatLevelOrder.
Import JS ReportGenerator Severity.

Lemma count_app (s : Severity.t) (results more : list AnalysisResult.t) :
  count s (results ++ more) = (count s results + count s more)%nat.
Proof. unfold count. by rewrite list.filter_app, length_app. Qed.

Lemma count_Permutation (s : Severity.t) (results results' : list AnalysisResult.t) :
  Permutation results results' -> count s results = count s results'.
Proof. unfold count. by intros ->. Qed.

Lemma count_without_low (s : Severity.t) (results : list AnalysisResult.t) :
  s <> low ->
  count s (List.filter (fun r => negb (String.eqb (str (AnalysisResult.severity r)) "low"))
             results) = count s results.
Proof.
  intros Hs. unfold count. induction results as [|r results IH]; [done|].
  cbn [List.filter]. rewrite (severity_str_eqb _ low).
  destruct (decide (AnalysisResult.severity r = low)) as [Hlow|Hlow].
  - rewrite bool_decide_eq_true_2 by done. cbn [negb].
    rewrite (filter_cons_False _ r) by congruence. done.
  - rewrite bool_decide_eq_false_2 by done. cbn [negb].
    rewrite !filter_cons. destruct (decide (AnalysisResult.severity r = s)); simpl;
      by rewrite IH.
Qed.

Ltac by_level_cases :=
  rewrite !threat_level_cases;
  repeat match goal with
  | |- context [(?a <? ?b)%nat] => destruct (Nat.ltb_spec a b)
  end; simpl; try done; try lia.

(** The overall threat level is one of the four levels; it does not depend on
    the order of the findings, nor on the findings of severity [low]; and
    further findings never lower it. *)
Theorem threat_level_order (results more results' : list AnalysisResult.t) :
  calculateOverallThreatLevel results ∈ ["low"; "medium"; "high"; "critical"] /\
  (Permutation results results' ->
   calculateOverallThreatLevel results' = calculateOverallThreatLevel results) /\
  calculateOverallThreatLevel
    (List.filter (fun r => negb (String.eqb (str (AnalysisResult.severity r)) "low")) results)
  = calculateOverallThreatLevel results /\
  (level_rank (calculateOverallThreatLevel results) <=
   level_rank (calculateOverallThreatLevel (results ++ more)))%nat.
Proof.
  split; [|split; [|split]].
  - by_level_cases; apply list_elem_of_In; simpl; tauto.
  - intros Hperm. rewrite !threat_level_cases.
    by rewrite !(count_Permutation _ _ _ Hperm).
  - rewrite !threat_level_cases. by rewrite !count_without_low.
  - rewrite !threat_level_cases, !count_app.
    repeat match goal with
    | |- context [(?a <? ?b)%nat] => destruct (Nat.ltb_spec a b)
    end; simpl; try done; try lia; vm_compute; lia.
Qed.

Lemma high_priority_count (results : list AnalysisResult.t) :
  length (List.filter high_priority results) =
    (count critical results + count high results)%nat.
Proof.
  unfold count, high_priority. induction results as [|r results IH]; [done|].
  cbn [List.filter]. rewrite !filter_cons.
  destruct (AnalysisResult.severity r) eqn:Hsev; simpl;
    repeat (case_decide; try done); simpl; rewrite IH; lia.
Qed.

(** The risk sentence of the executive summary says LOW exactly when no finding
    is critical or high.  It agrees with the overall threat level at [low],
    [high] and [critical], but also says LOW when the level is [medium] on
    account of medium findings alone. *)
Theorem risk_assessment_wording (results : list AnalysisResult.t) :
  (generateRiskAssessment results =
     "Current risk level is LOW. No critical threats identified." <->
   count critical results = 0%nat /\ count high results = 0%nat) /\
  (calculateOverallThreatLevel results = "low" ->
   generateRiskAssessment results =
     "Current risk level is LOW. No critical threats identified.") /\
  (calculateOverallThreatLevel results = "critical" \/
   calculateOverallThreatLevel results = "high" ->
   generateRiskAssessment results <>
     "Current risk level is LOW. No critical threats identified.") /\
  (count critical results = 0%nat -> count high results = 0%nat ->
   (3 < count medium results)%nat ->
   calculateOverallThreatLevel results = "medium" /\
   generateRiskAssessment results =
     "Current risk level is LOW. No critical threats identified.").
Proof.
  assert (Hiff : generateRiskAssessment results =
            "Current risk level is LOW. No critical threats identified." <->
          count critical results = 0%nat /\ count high results = 0%nat).
  { unfold generateRiskAssessment. fold high_priority. rewrite high_priority_count.
    destruct (Nat.eqb_spec (count critical results + count high results) 0) as [Hz|Hnz].
    - split; [lia | done].
    - split; [|lia]. intros Heq. simpl in Heq. discriminate Heq. }
  split; [done|]. split; [|split].
  - intros Hlow. apply Hiff. revert Hlow. by_level_cases.
  - intros Hlev Hrisk. apply Hiff in Hrisk as [Hc Hh]. revert Hlev.
    by_level_cases; intros [?|?]; done.
  - intros Hc Hh Hm. split; [by_level_cases | by apply Hiff].
Qed.

End ThreatLevelOrder.

Section DataSourcesOfRecords.
Import JS ReportGenerator.









End DataSourcesOfRecords.

Section ReportHistory.
Import JS Eff ReportGenerator.
Context `{Runtime} `{Encoders}.

(** A successful [generateReport] appends the report it returns to the history
    and announces it by one [reportGenerated] event.  The report carries the
    generated identifier, the type and format of the configuration, the title
    of the configuration or, when that is absent or empty, the type followed by
    [Report], the time of the call, the narrative of its type and the handle of
    the encoder; its metadata count the findings, give their overall threat
    level and count the data sources of the records.  Type and format are then
    among the known ones. *)
Theorem generateReport_success (config : ReportConfig.t)
    (results : list AnalysisResult.t) (data : list value) (st : St Event Fields)
    (report : Report.t) :
  fst (generateReport config results data st) = Ok report ->
  reports (this (snd (generateReport config results data st))) =
    reports (this st) ++ [report] /\
  emitted (snd (generateReport config results data st)) =
    emitted st ++ [reportGenerated report] /\
  fst (getReportCount (snd (generateReport config results data st))) =
    Ok (S (length (reports (this st)))) /\
  Report.id report = substring 2 9 (toString36 (random (draws st))) /\
  Report.type report = ReportConfig.type config /\
  Report.format report = ReportConfig.format config /\
  Report.title report = title_of config /\
  (ReportConfig.title config = None \/ ReportConfig.title config = Some EmptyString ->
   Report.title report = ReportConfig.type config +:+ " Report") /\
  Report.generatedAt report = clock (ticks st) /\
  content_stage (ReportConfig.type config) results data = Ok (Report.content report) /\
  (exists url, Report.downloadUrl report = Some url) /\
  Metadata.analysisResultsCount (Report.metadata report) = length results /\
  Metadata.threatLevel (Report.metadata report) = calculateOverallThreatLevel results /\
  (exists sources,
     getUniqueDataSources data = Ok sources /\
     Metadata.dataSourcesCount (Report.metadata report) = length sources) /\
  ReportConfig.type config ∈ known_types /\
  ReportConfig.format config ∈ known_formats.
Proof.
  rewrite generateReport_run.
  destruct (getUniqueDataSources data) as [sources|e] eqn:Hsources; [|done].
  destruct (content_stage _ results data) as [content|e] eqn:Hcontent; [|done].
  cbv zeta.
  destruct (encoding_stage _ _ results data _) as [[url|e] st1] eqn:Hurl; [|done].
  pose proof (encoding_stage_frame _ _ _ _ _ _ _ Hurl) as (_ & Hemitted & Hthis & _).
  cbn [emitted this] in Hemitted, Hthis.
  cbn [fst snd]. intros [= <-].
  unfold getReportCount, bind, get_this, ret.
  rewrite ?Hemitted, ?Hthis.
  cbn [draws ticks emitted this reports fst snd Report.id Report.type Report.format
       Report.title Report.generatedAt Report.content Report.downloadUrl Report.metadata
       Report.with_downloadUrl Report.with_content draft Metadata.analysisResultsCount
       Metadata.threatLevel Metadata.dataSourcesCount].
  repeat match goal with |- _ /\ _ => split end; try done.
  - rewrite length_app. simpl. f_equal. lia.
  - unfold title_of. by intros [->| ->].
  - by exists url.
  - by exists sources.
  - destruct (decide (ReportConfig.type config ∈ known_types)) as [|Hnot]; [done|].
    by rewrite content_stage_unknown in Hcontent.
  - destruct (decide (ReportConfig.format config ∈ known_formats)) as [|Hnot]; [done|].
    by rewrite encoding_stage_unknown in Hurl.
Qed.

Lemma filter_idemp {A} (f : A -> bool) (l : list A) :
  List.filter f (List.filter f l) = List.filter f l.
Proof.
  induction l as [|x l IH]; [done|]. simpl.
  destruct (f x) eqn:Hx; simpl; [|done]. by rewrite Hx, IH.
Qed.

(** The incident report is written from the critical and high findings alone,
    and the threat assessment from the findings of type [threat] alone; neither
    reads the records, and neither can fail. *)
Theorem selective_narratives (results : list AnalysisResult.t) (data : list value) :
  generateIncidentReport results data =
    generateIncidentReport (List.filter high_priority results) [] /\
  generateThreatAssessment results data =
    generateThreatAssessment (List.filter is_threat results) [] /\
  (exists text, generateIncidentReport results data = Ok text) /\
  (exists text, generateThreatAssessment results data = Ok text).
Proof.
  unfold generateIncidentReport, generateThreatAssessment.
  fold high_priority. fold is_threat. rewrite !filter_idemp.
  split; [done|]. split; [done|]. split; eexists; reflexivity.
Qed.

End ReportHistory.

Section Recommendations.
Import JS ReportGenerator.



End Recommendations.

Section ReportHistoryExamples.
Import JS Eff ReportGenerator.

Lemma generateReport_success_witness :
  fst (getReportCount
         (snd (@generateReport Demo.runtime Demo.encoders
                 (ReportConfig.mk "incident-report" "pdf" None)
                 [Demo.finding Severity.high] [VObj [("source", VStr "Forum")]]
                 Demo.reportGenerator0)))
  = Ok 1%nat.
Proof.
  apply (proj1 (proj2 (proj2
           (@generateReport_success Demo.runtime Demo.encoders
              (ReportConfig.mk "incident-report" "pdf" None)
              [Demo.finding Severity.high] [VObj [("source", VStr "Forum")]]
              Demo.reportGenerator0 _ eq_refl)))).
Defined.

End ReportHistoryExamples.

Section Strategies.
Import JS Eff AnalysisEngine.
Context `{Runtime}.

Lemma str_of_nat_inj (n m : nat) :
  ReportGenerator.str_of_nat n = ReportGenerator.str_of_nat m -> n = m.
Proof.
  unfold ReportGenerator.str_of_nat. intros Heq.
  apply (f_equal NilZero.uint_of_string) in Heq.
  assert (Hnn : forall k, Nat.to_uint k <> Decimal.Nil).
  { intros k. rewrite <- (Unsigned.of_to k) at 1. rewrite Unsigned.to_of.
    apply unorm_nonnil. }
  rewrite !NilZero.usu in Heq by apply Hnn.
  injection Heq as Heq. by apply Unsigned.to_uint_inj.
Qed.

(** The canned loop: one finding and one clock reading per catalogue entry. *)
Lemma pushCanned_run prefix kind heading catalogue : forall index found st,
  pushCanned prefix kind heading catalogue index found st =
    (Ok (found ++ pushed prefix kind heading catalogue index (ticks st)),
     mkSt (draws st) (length catalogue + ticks st) (emitted st) (this st)).
Proof.
  induction catalogue as [|entry catalogue IH]; intros index found st.
  - simpl. unfold ret, pushed. simpl. rewrite app_nil_r. by destruct st.
  - cbn [pushCanned]. unfold bind at 1. unfold Date_now at 1. rewrite IH.
    cbn [draws ticks emitted this length]. f_equal; [|f_equal; lia].
    f_equal. rewrite <- app_assoc. f_equal. unfold pushed. rewrite imap_cons.
    cbn [app]. rewrite !Nat.add_0_r. f_equal.
    apply imap_ext. intros i entry' _. simpl. repeat f_equal; lia.
Qed.

(** The threat-detection loop: its findings are made for records of [data], at
    rising positions, with one clock reading each. *)
Lemma detectThreats_run data : forall pre index found st found' st',
  index = length pre ->
  detectThreats data index found st = (Ok found', st') ->
  exists fresh ks,
    found' = found ++ fresh /\
    Forall2 (detected_at (pre ++ data)) fresh ks /\
    ks `sublist_of` seq index (length data) /\
    ticks st' = (length fresh + ticks st)%nat.
Proof.
  induction data as [|item data IH]; intros pre index found st found' st' Hindex.
  - simpl. intros [= <- <-]. exists [], []. rewrite app_nil_r.
    repeat split; [constructor | done].
  - cbn [detectThreats]. unfold bind at 1.
    destruct (isSuspiciousActivity item st) as [[suspicious|e] st1] eqn:Hitem; [|done].
    apply isSuspiciousActivity_frame in Hitem as (Ht1 & _ & _).
    assert (Hpre : pre ++ item :: data = (pre ++ [item]) ++ data)
      by (by rewrite <- app_assoc).
    assert (Hlen : S index = length (pre ++ [item]))
      by (rewrite length_app; simpl; lia).
    destruct suspicious.
    + unfold bind, lift, Math_random, Date_now.
      destruct (generateThreatDescription item) as [description|e]; [|done].
      destruct (calculateThreatSeverity item) as [severity|e]; [|done].
      cbn [draws ticks emitted this].
      destruct (generateThreatRecommendations item) as [recommendations|e]; [|done].
      intros Hrun. apply (IH (pre ++ [item])) in Hrun as (fresh & ks & -> & Hall & Hsub & Ht);
        [|done].
      cbn [draws ticks emitted this] in Ht.
      eexists (_ :: fresh), (index :: ks). rewrite <- app_assoc. split; [done|].
      split; [|split].
      * constructor; [|by rewrite Hpre].
        repeat split; cbn [AnalysisResult.id AnalysisResult.type AnalysisResult.title
                           AnalysisResult.evidence AnalysisResult.confidence]; try done.
        -- exists item. split; [|done]. subst index.
           by rewrite lookup_app_r, Nat.sub_diag by lia.
        -- by eexists.
      * cbn [length seq]. by apply sublist_skip.
      * cbn [length]. lia.
    + intros Hrun. apply (IH (pre ++ [item])) in Hrun as (fresh & ks & -> & Hall & Hsub & Ht);
        [|done].
      exists fresh, ks. split; [done|]. split; [by rewrite Hpre|].
      split; [cbn [length seq]; by apply sublist_cons | lia].
Qed.

Lemma detectThreats_frame data : forall index found st r st',
  detectThreats data index found st = (r, st') ->
  emitted st' = emitted st /\ this st' = this st.
Proof.
  induction data as [|item data IH]; intros index found st r st'.
  - simpl. by intros [= <- <-].
  - cbn [detectThreats]. unfold bind at 1.
    destruct (isSuspiciousActivity item st) as [[suspicious|e] st1] eqn:Hitem.
    + apply isSuspiciousActivity_frame in Hitem as (_ & He1 & Hf1).
      destruct suspicious.
      * unfold bind, lift, Math_random, Date_now.
        destruct (generateThreatDescription item) as [description|e];
          [|intros [= <- <-]; done].
        destruct (calculateThreatSeverity item) as [severity|e];
          [|intros [= <- <-]; done].
        cbn [draws ticks emitted this].
        destruct (generateThreatRecommendations item) as [recommendations|e];
          [|intros [= <- <-]; done].
        intros Hrun. apply IH in Hrun as [He Hf]. cbn [emitted this] in *.
        split; congruence.
      * intros Hrun. apply IH in Hrun as [He Hf]. split; congruence.
    + apply isSuspiciousActivity_frame in Hitem as (_ & He1 & Hf1).
      by intros [= <- <-].
Qed.

(** What each strategy returns. *)
Lemma strategy_cases data config st r st' :
  strategy data config st = (r, st') ->
  emitted st' = emitted st /\ this st' = this st /\
  (AnalysisConfig.type config ∉ known_analyses ->
   r = Throw (UnknownAnalysisType (AnalysisConfig.type config)) /\ st' = st) /\
  forall found, r = Ok found ->
    (AnalysisConfig.type config = "threat-detection" /\
     (found = sampleThreats (clock (ticks st)) (clock (1 + ticks st)) (clock (2 + ticks st)) \/
      found <> [] /\
      exists ks, Forall2 (detected_at data) found ks /\
                 ks `sublist_of` seq 0 (length data))) \/
    (AnalysisConfig.type config = "pattern-analysis" /\
     found = pushed "pattern-" ResultType.pattern "Pattern Identified: "
               (identifyPatterns data) 0 (ticks st)) \/
    (AnalysisConfig.type config = "anomaly-detection" /\
     found = pushed "anomaly-" ResultType.anomaly "Anomaly Detected: "
               (detectAnomalies data) 0 (ticks st)) \/
    (AnalysisConfig.type config = "correlation-analysis" /\
     found = pushed "correlation-" ResultType.correlation "Correlation Found: "
               (findCorrelations data) 0 (ticks st)).
Proof.
  unfold strategy.
  destruct (String.eqb_spec (AnalysisConfig.type config) "threat-detection") as [Ht|_].
  { unfold runThreatDetection. unfold bind at 1.
    destruct (detectThreats data 0 [] st) as [[found0|e] st1] eqn:Hloop.
    - pose proof (detectThreats_frame _ _ _ _ _ _ Hloop) as [He Hf].
      apply (detectThreats_run data []) in Hloop as (fresh & ks & -> & Hall & Hsub & Hticks);
        [|done].
      cbn [app] in *. destruct fresh as [|r0 fresh]; cbn [length Nat.eqb].
      + unfold generateSampleThreats, bind, Date_now, ret.
        cbn [draws ticks emitted this app]. intros [= <- <-].
        cbn [emitted this]. split; [done|]. split; [done|]. split.
        * intros Hnot. exfalso. apply Hnot. rewrite Ht. apply list_elem_of_In. simpl. tauto.
        * intros found [= <-]. left. split; [done|]. left. simpl in Hticks.
          by rewrite Hticks.
      + unfold ret. intros [= <- <-]. split; [done|]. split; [done|]. split.
        * intros Hnot. exfalso. apply Hnot. rewrite Ht. apply list_elem_of_In. simpl. tauto.
        * intros found [= <-]. left. split; [done|]. right. split; [done|]. by exists ks.
    - pose proof (detectThreats_frame _ _ _ _ _ _ Hloop) as [He Hf].
      intros [= <- <-]. split; [done|]. split; [done|]. split; [|done].
      intros Hnot. exfalso. apply Hnot. rewrite Ht. apply list_elem_of_In. simpl. tauto. }
  destruct (String.eqb_spec (AnalysisConfig.type config) "pattern-analysis") as [Ht|_].
  { unfold runPatternAnalysis. rewrite pushCanned_run. intros [= <- <-].
    cbn [emitted this app]. split; [done|]. split; [done|]. split.
    - intros Hnot. exfalso. apply Hnot. rewrite Ht. apply list_elem_of_In. simpl. tauto.
    - intros found [= <-]. right. left. done. }
  destruct (String.eqb_spec (AnalysisConfig.type config) "anomaly-detection") as [Ht|_].
  { unfold runAnomalyDetection. rewrite pushCanned_run. intros [= <- <-].
    cbn [emitted this app]. split; [done|]. split; [done|]. split.
    - intros Hnot. exfalso. apply Hnot. rewrite Ht. apply list_elem_of_In. simpl. tauto.
    - intros found [= <-]. right. right. left. done. }
  destruct (String.eqb_spec (AnalysisConfig.type config) "correlation-analysis") as [Ht|_].
  { unfold runCorrelationAnalysis. rewrite pushCanned_run. intros [= <- <-].
    cbn [emitted this app]. split; [done|]. split; [done|]. split.
    - intros Hnot. exfalso. apply Hnot. rewrite Ht. apply list_elem_of_In. simpl. tauto.
    - intros found [= <-]. right. right. right. done. }
  unfold throw. intros [= <- <-]. done.
Qed.

End Strategies.

Section AnalysisRuns.
Import JS Eff AnalysisEngine.
Context `{Runtime}.

(** A run whose analysis type is none of the four known ones announces its
    start, raises [Unknown analysis type] naming the type, and announces that
    error; it has read the clock and drawn a delay, and the latest results and
    the threat count are as before. *)
Theorem runAnalysis_unknown_type (data : list value) (config : AnalysisConfig.t)
    (st : St Event Fields) :
  AnalysisConfig.type config ∉ known_analyses ->
  runAnalysis data config st =
    (Throw (UnknownAnalysisType (AnalysisConfig.type config)),
     mkSt (S (draws st)) (S (ticks st))
       (emitted st ++
        [analysisStarted; analysisError (UnknownAnalysisType (AnalysisConfig.type config))])
       (this st)).
Proof.
  intros Hnot. rewrite runAnalysis_run.
  destruct (strategy data config (strategy_start st)) as [r st1] eqn:Hrun.
  destruct (strategy_cases _ _ _ _ _ Hrun) as (_ & _ & Hunknown & _).
  destruct (Hunknown Hnot) as [-> ->]. unfold strategy_start.
  cbn [draws ticks emitted this]. by rewrite <- app_assoc.
Qed.

(** A successful run replaces the latest results by the findings it returns,
    sets the threat count to the number of them that are threats or of critical
    or high severity, and emits [analysisStarted] and then [analysisCompleted]
    with those findings.  A failed run leaves the latest results and the threat
    count of the run before, and emits [analysisStarted] and then
    [analysisError] with what was raised. *)
Theorem runAnalysis_publishes (data : list value) (config : AnalysisConfig.t)
    (st : St Event Fields) :
  (forall found,
     fst (runAnalysis data config st) = Ok found ->
     fst (getLatestResults (snd (runAnalysis data config st))) = Ok found /\
     fst (getThreatCount (snd (runAnalysis data config st))) =
       Ok (length (List.filter counts_as_threat found)) /\
     isInitialized (this (snd (runAnalysis data config st))) = isInitialized (this st) /\
     exists analysisTime,
       emitted (snd (runAnalysis data config st)) =
         emitted st ++ [analysisStarted; analysisCompleted found analysisTime]) /\
  (forall e,
     fst (runAnalysis data config st) = Throw e ->
     this (snd (runAnalysis data config st)) = this st /\
     emitted (snd (runAnalysis data config st)) =
       emitted st ++ [analysisStarted; analysisError e]).
Proof.
  rewrite runAnalysis_run.
  destruct (strategy data config (strategy_start st)) as [[found0|e0] st1] eqn:Hrun;
    destruct (strategy_cases _ _ _ _ _ Hrun) as (Hemitted & Hthis & _);
    unfold strategy_start in Hemitted, Hthis; cbn [emitted this] in Hemitted, Hthis;
    cbv zeta; cbn [fst snd]; (split; [|done || (intros e [= <-])]).
  - intros found [= <-]. unfold getLatestResults, getThreatCount, bind, get_this, ret.
    cbn [draws ticks emitted this results threatCount isInitialized fst].
    rewrite Hemitted, Hthis, <- app_assoc. repeat split; try done. by eexists.
  - done.
  - cbn [emitted this]. by rewrite Hemitted, Hthis, <- app_assoc.
Qed.

Lemma slice_sublist (from to : nat) (data : list value) :
  slice from to data `sublist_of` data /\ (length (slice from to data) <= to - from)%nat.
Proof.
  unfold slice. split.
  - etransitivity; [apply sublist_take | apply sublist_drop].
  - rewrite length_take. lia.
Qed.

Lemma pushed_Forall (P : AnalysisResult.t -> Prop) prefix kind heading catalogue index t0 :
  (forall i entry, entry ∈ catalogue ->
     P (AnalysisResult.mk (prefix +:+ ReportGenerator.str_of_nat (index + i)) kind
          (heading +:+ c_type entry) (c_description entry) (c_severity entry)
          (c_confidence entry) (clock (t0 + i)) (c_evidence entry)
          (c_recommendations entry))) ->
  Forall P (pushed prefix kind heading catalogue index t0).
Proof.
  intros Hall. apply list.Forall_forall. intros r Hr. unfold pushed in Hr.
  apply elem_of_lookup_imap in Hr as (i & entry & -> & Hentry).
  apply Hall. by eapply list_elem_of_lookup_2.
Qed.

Lemma catalogue_entries (data : list value) (entry : Canned) :
  entry ∈ identifyPatterns data ++ detectAnomalies data ++ findCorrelations data ->
  c_evidence entry `sublist_of` data /\
  (length (c_evidence entry) <= 4)%nat /\
  c_severity entry <> Severity.critical /\
  (65 # 100 <= c_confidence entry)%Q /\ (c_confidence entry <= 1)%Q.
Proof.
  intros Hin. apply list_elem_of_In in Hin. simpl in Hin.
  repeat (destruct Hin as [<-|Hin]); [..|done]; cbn [c_evidence c_severity c_confidence];
    (split; [apply slice_sublist|]);
    (split; [etransitivity; [apply slice_sublist | lia]|]);
    (split; [done|]); split; by apply Qle_bool_imp_le.
Qed.

(** The pattern, anomaly and correlation strategies never fail and never look
    into the records: each makes one or two findings, none of type [threat] or
    of critical severity, with one clock reading each; the evidence of a finding
    is a run of at most four of the records, and apart from the evidence the
    findings are the same for every record list. *)
Theorem canned_strategies (data : list value) (config : AnalysisConfig.t)
    (st : St Event Fields) :
  AnalysisConfig.type config ∈
    ["pattern-analysis"; "anomaly-detection"; "correlation-analysis"] ->
  exists found,
    strategy data config st =
      (Ok found, mkSt (draws st) (length found + ticks st) (emitted st) (this st)) /\
    (1 <= length found <= 2)%nat /\
    Forall (fun r =>
              AnalysisResult.evidence r `sublist_of` data /\
              (length (AnalysisResult.evidence r) <= 4)%nat /\
              AnalysisResult.type r <> ResultType.threat /\
              AnalysisResult.severity r <> Severity.critical) found /\
    forall data',
      exists found',
        fst (strategy data' config st) = Ok found' /\
        map narrative found' = map narrative found.
Proof.
  intros Htype.
  repeat (apply elem_of_cons in Htype as [Htype|Htype]);
    [..|by apply elem_of_nil in Htype];
    unfold strategy; rewrite Htype; cbn [String.eqb Ascii.eqb Bool.eqb];
    unfold runPatternAnalysis, runAnomalyDetection, runCorrelationAnalysis;
    rewrite pushCanned_run; cbn [app];
    match goal with |- context [Ok ?f] => exists f end;
    (split; [reflexivity|]);
    (split; [simpl; lia|]);
    (split;
     [ apply pushed_Forall; intros i entry Hentry;
       cbn [AnalysisResult.evidence AnalysisResult.type AnalysisResult.severity];
       destruct (catalogue_entries data entry) as (? & ? & ? & _);
       [ rewrite !elem_of_app; tauto | done ]
     | intros data'; rewrite pushCanned_run; cbn [app fst];
       eexists; split; reflexivity ]).
Qed.

(** A successful threat-detection pass returns at least one finding, and only
    findings of type [threat]: either the three canned samples, stamped with the
    next three clock readings, or findings made for records of the input, each
    with that one record as evidence, in the order of the records and at most
    one per record. *)
Theorem threat_detection_findings (data : list value) (config : AnalysisConfig.t)
    (st st' : St Event Fields) (found : list AnalysisResult.t) :
  AnalysisConfig.type config = "threat-detection" ->
  strategy data config st = (Ok found, st') ->
  found <> [] /\
  Forall (fun r => AnalysisResult.type r = ResultType.threat) found /\
  (found = sampleThreats (clock (ticks st)) (clock (1 + ticks st)) (clock (2 + ticks st)) \/
   (length found <= length data)%nat /\
   exists ks, Forall2 (detected_at data) found ks /\
              ks `sublist_of` seq 0 (length data)).
Proof.
  intros Htype Hrun.
  destruct (strategy_cases _ _ _ _ _ Hrun) as (_ & _ & _ & Hcases).
  destruct (Hcases found eq_refl) as [[_ Hfound]|[[Ht _]|[[Ht _]|[Ht _]]]];
    try (rewrite Htype in Ht; discriminate Ht).
  destruct Hfound as [->|(Hne & ks & Hall & Hsub)].
  - split; [done|]. split; [by repeat constructor | by left].
  - split; [done|]. split.
    + clear -Hall. induction Hall as [|r k found ks Hr _ IH]; constructor; [|done].
      by destruct Hr as (_ & ? & _).
    + right. split; [|by exists ks].
      rewrite (Forall2_length Hall).
      apply sublist_length in Hsub. by rewrite length_seq in Hsub.
Qed.

End AnalysisRuns.

Section AnalysisRunsExamples.
Import JS Eff AnalysisEngine.

Lemma runAnalysis_unknown_type_witness :
  fst (@runAnalysis Demo.runtime Demo.networkRecords
         (AnalysisConfig.mk "sentiment-analysis" "24h" None) Demo.analysisEngine0)
  = Throw (UnknownAnalysisType "sentiment-analysis").
Proof.
  rewrite (@runAnalysis_unknown_type Demo.runtime Demo.networkRecords
             (AnalysisConfig.mk "sentiment-analysis" "24h" None) Demo.analysisEngine0);
    [reflexivity|].
  intros Hin. apply list_elem_of_In in Hin. simpl in Hin. intuition discriminate.
Defined.

Lemma canned_strategies_witness :
  exists found,
    @strategy Demo.runtime Demo.networkRecords
      (AnalysisConfig.mk "correlation-analysis" "24h" None) Demo.analysisEngine0
    = (Ok found, mkSt 0 (length found + 0) [] new) /\
    (1 <= length found <= 2)%nat.
Proof.
  destruct (@canned_strategies Demo.runtime Demo.networkRecords
              (AnalysisConfig.mk "correlation-analysis" "24h" None) Demo.analysisEngine0)
    as (found & Hrun & Hlen & _).
  - apply list_elem_of_In. simpl. tauto.
  - exists found. split; [exact Hrun | exact Hlen].
Defined.

Lemma threat_detection_findings_witness :
  sampleThreats 1700000000000 1700000000001 1700000000002 <> [].
Proof.
  apply (proj1 (@threat_detection_findings Demo.runtime []
                  (AnalysisConfig.mk "threat-detection" "24h" None)
                  Demo.analysisEngine0 _ _ eq_refl eq_refl)).
Defined.

End AnalysisRunsExamples.

Section Findings.
Import JS Eff AnalysisEngine.
Context `{Runtime}.

Lemma filtered_sublist (config : AnalysisConfig.t) (found : list AnalysisResult.t) :
  (if filter_is_set (AnalysisConfig.severityFilter config)
   then List.filter (severity_matches (AnalysisConfig.severityFilter config)) found
   else found) `sublist_of` found.
Proof.
  destruct (filter_is_set _); [|done].
  induction found as [|r found IH]; [done|]. simpl.
  destruct (severity_matches _ r); [by apply sublist_skip | by apply sublist_cons].
Qed.

Lemma Forall_sublist_of {A} (P : A -> Prop) (l k : list A) :
  Forall P k -> l `sublist_of` k -> Forall P l.
Proof.
  intros Hk Hsub. induction Hsub as [|x l k _ IH|x l k _ IH].
  - done.
  - inversion_clear Hk as [|? ? Hx Hk']. constructor; [done | by apply IH].
  - inversion_clear Hk as [|? ? Hx Hk']. by apply IH.
Qed.

Lemma detected_ids (data : list value) (found : list AnalysisResult.t) (ks : list nat) :
  Forall2 (detected_at data) found ks ->
  map AnalysisResult.id found =
    map (fun k => "threat-" +:+ ReportGenerator.str_of_nat k) ks.
Proof.
  induction 1 as [|r k found ks Hr _ IH]; [done|].
  simpl. destruct Hr as (-> & _). by rewrite IH.
Qed.

Lemma NoDup_sample_ids t1 t2 t3 : NoDup (map AnalysisResult.id (sampleThreats t1 t2 t3)).
Proof.
  simpl. repeat (apply list.NoDup_cons; split);
    [..|apply NoDup_nil_2];
    intros Hin; apply list_elem_of_In in Hin; simpl in Hin; intuition discriminate.
Qed.

Lemma NoDup_pushed_ids prefix kind heading catalogue index t0 :
  NoDup (map AnalysisResult.id (pushed prefix kind heading catalogue index t0)).
Proof.
  assert (Hids : map AnalysisResult.id (pushed prefix kind heading catalogue index t0) =
                 map (fun k => prefix +:+ ReportGenerator.str_of_nat k)
                   (seq index (length catalogue))).
  { unfold pushed. revert index t0.
    induction catalogue as [|entry catalogue IH]; intros index t0; [done|].
    rewrite imap_cons. cbn [map length seq AnalysisResult.id]. rewrite Nat.add_0_r.
    f_equal. rewrite <- (IH (S index) (S t0)). f_equal. apply imap_ext.
    intros i e _. simpl. repeat f_equal; lia. }
  rewrite Hids. apply NoDup_fmap_2; [|apply NoDup_seq].
  intros a b Heq. apply str_of_nat_inj.
  revert Heq. clear. induction prefix as [|c prefix IH]; simpl; [done|].
  intros [= Heq]. by apply IH.
Qed.

(** No two findings returned by a run have the same [id]. *)
Theorem finding_ids_distinct (data : list value) (config : AnalysisConfig.t)
    (st : St Event Fields) (found : list AnalysisResult.t) :
  fst (runAnalysis data config st) = Ok found ->
  NoDup (map AnalysisResult.id found).
Proof.
  rewrite runAnalysis_run.
  destruct (strategy data config (strategy_start st)) as [[found0|e0] st1] eqn:Hrun;
    [|done].
  cbv zeta. cbn [fst]. intros [= <-].
  eapply sublist_NoDup; [|apply fmap_sublist, filtered_sublist].
  destruct (strategy_cases _ _ _ _ _ Hrun) as (_ & _ & _ & Hcases).
  destruct (Hcases found0 eq_refl)
    as [[_ [->|(_ & ks & Hall & Hsub)]]|[[_ ->]|[[_ ->]|[_ ->]]]];
    try apply NoDup_pushed_ids; [apply NoDup_sample_ids|].
  change (NoDup (map AnalysisResult.id found0)).
  rewrite (detected_ids _ _ _ Hall). apply NoDup_fmap_2.
  - intros a b [= Heq]. by apply str_of_nat_inj.
  - eapply sublist_NoDup; [apply NoDup_seq | done].
Qed.

(** When the random numbers lie between 0 and 1, the confidence of every
    finding of a run lies between 0.65 and 1; that of a finding made for a
    record lies between 0.7 and 1. *)
Theorem confidence_in_range (data : list value) (config : AnalysisConfig.t)
    (st : St Event Fields) (found : list AnalysisResult.t) :
  (forall n, (0 <= random n)%Q /\ (random n <= 1)%Q) ->
  fst (runAnalysis data config st) = Ok found ->
  Forall (fun r => (65 # 100 <= AnalysisResult.confidence r)%Q /\
                   (AnalysisResult.confidence r <= 1)%Q) found /\
  Forall (fun r => (exists k, detected_at data r k) ->
                   (7 # 10 <= AnalysisResult.confidence r)%Q) found.
Proof.
  intros Hrandom. rewrite runAnalysis_run.
  destruct (strategy data config (strategy_start st)) as [[found0|e0] st1] eqn:Hrun;
    [|done].
  cbv zeta. cbn [fst]. intros [= <-].
  assert (Hdetected : forall r k, detected_at data r k ->
            (7 # 10 <= AnalysisResult.confidence r)%Q /\
            (AnalysisResult.confidence r <= 1)%Q).
  { intros r k (_ & _ & _ & _ & draw & ->). destruct (Hrandom draw). split; lra. }
  split.
  - eapply Forall_sublist_of; [|apply filtered_sublist].
    destruct (strategy_cases _ _ _ _ _ Hrun) as (_ & _ & _ & Hcases).
    destruct (Hcases found0 eq_refl)
      as [[_ [->|(_ & ks & Hall & Hsub)]]|[[_ ->]|[[_ ->]|[_ ->]]]].
    + repeat constructor; by apply Qle_bool_imp_le.
    + clear -Hall Hdetected. induction Hall as [|r k found ks Hr _ IH]; constructor; [|done].
      destruct (Hdetected r k Hr). split; [lra | done].
    + apply pushed_Forall. intros i entry Hentry. cbn [AnalysisResult.confidence].
      destruct (catalogue_entries data entry) as (_ & _ & _ & ? & ?);
        [rewrite !elem_of_app; tauto | done].
    + apply pushed_Forall. intros i entry Hentry. cbn [AnalysisResult.confidence].
      destruct (catalogue_entries data entry) as (_ & _ & _ & ? & ?);
        [rewrite !elem_of_app; tauto | done].
    + apply pushed_Forall. intros i entry Hentry. cbn [AnalysisResult.confidence].
      destruct (catalogue_entries data entry) as (_ & _ & _ & ? & ?);
        [rewrite !elem_of_app; tauto | done].
  - apply list.Forall_forall. intros r _ [k Hr]. by destruct (Hdetected r k Hr).
Qed.

(** The threat count of a successful run is the number of findings returned
    when the severity filter is [high] or [critical], and when the run is a
    threat detection; it never exceeds the number of findings. *)
Theorem threatCount_counts (data : list value) (config : AnalysisConfig.t)
    (st : St Event Fields) (found : list AnalysisResult.t) :
  fst (runAnalysis data config st) = Ok found ->
  (threatCount (this (snd (runAnalysis data config st))) <= length found)%nat /\
  (AnalysisConfig.severityFilter config = Some "high" \/
   AnalysisConfig.severityFilter config = Some "critical" \/
   AnalysisConfig.type config = "threat-detection" ->
   threatCount (this (snd (runAnalysis data config st))) = length found).
Proof.
  rewrite runAnalysis_run.
  destruct (strategy data config (strategy_start st)) as [[found0|e0] st1] eqn:Hrun;
    [|done].
  cbv zeta. cbn [fst snd this threatCount]. intros [= <-]. split.
  { apply filter_length_le. }
  assert (Hall : forall l : list AnalysisResult.t,
            Forall (fun r => counts_as_threat r = true) l ->
            length (List.filter counts_as_threat l) = length l).
  { intros l Hl. induction Hl as [|r l Hr _ IH]; [done|]. simpl. rewrite Hr. simpl.
    by rewrite IH. }
  intros Hcase. apply Hall.
  destruct Hcase as [Hf|[Hf|Htype]].
  - rewrite Hf. cbn [filter_is_set truthy_str String.eqb Ascii.eqb Bool.eqb negb andb].
    apply list.Forall_forall. intros r Hr.
    apply list_elem_of_In, filter_In in Hr as [_ Hr]. unfold counts_as_threat.
    simpl in Hr. rewrite Hr. by rewrite orb_true_r.
  - rewrite Hf. cbn [filter_is_set truthy_str String.eqb Ascii.eqb Bool.eqb negb andb].
    apply list.Forall_forall. intros r Hr.
    apply list_elem_of_In, filter_In in Hr as [_ Hr]. unfold counts_as_threat.
    simpl in Hr. rewrite Hr. by rewrite orb_true_r.
  - eapply Forall_sublist_of; [|apply filtered_sublist].
    destruct (strategy_cases _ _ _ _ _ Hrun) as (_ & _ & _ & Hcases).
    destruct (Hcases found0 eq_refl)
      as [[_ Hfound]|[[Ht _]|[[Ht _]|[Ht _]]]];
      try (rewrite Htype in Ht; discriminate Ht).
    destruct Hfound as [->|(_ & ks & Hfound & _)]; [by repeat constructor|].
    clear -Hfound. induction Hfound as [|r k found ks Hr _ IH]; constructor; [|done].
    destruct Hr as (_ & Hr & _). unfold counts_as_threat. by rewrite Hr.
Qed.

End Findings.

Section CsvPorts.
Import JS Eff AnalysisEngine.
Context `{Runtime}.

Lemma parseCSV_strings (text : string) (records : list value) (record : value) :
  Csv.parseCSV text = Ok records ->
  record ∈ records ->
  exists props,
    record = VObj props /\ Forall (fun kv => exists s, snd kv = VStr s) props.
Proof.
  unfold Csv.parseCSV. destruct (length (Csv.lines_of text) <? 2)%nat; [done|].
  intros [= <-]. rewrite rows_loop_map by lia. cbn [app]. intros Hin.
  apply list_elem_of_In, in_map_iff in Hin as (line & <- & _).
  unfold Csv.row_of_line. eexists. split; [done|]. by apply fill_row_strings.
Qed.

Lemma obj_get_strings (props : object) (k : string) :
  Forall (fun kv => exists s, snd kv = VStr s) props ->
  obj_get props k = VUndefined \/ exists s, obj_get props k = VStr s.
Proof.
  induction 1 as [|[k' v] props [s Hv] _ IH]; simpl; [by left|].
  destruct (String.eqb k' k); [|done]. right. by exists s.
Qed.

(** Every record read from a CSV file whose [port] cell is not empty is
    classified suspicious, without a random draw: the cell is a string, and no
    string is among the common ports, which are numbers. *)
Theorem csv_port_always_suspicious (text : string) (records : list value)
    (record : value) (port : string) (st : St Event Fields) :
  Csv.parseCSV text = Ok records ->
  record ∈ records ->
  get_prop record "port" = Ok (VStr port) ->
  port <> EmptyString ->
  isSuspiciousActivity record st = (Ok true, st).
Proof.
  intros Hparse Hin Hport Hne.
  destruct (parseCSV_strings _ _ _ Hparse Hin) as (props & -> & Hstrings).
  simpl in Hport. injection Hport as Hport.
  unfold isSuspiciousActivity, bind, lift, ret. cbn [get_prop].
  destruct (truthy (obj_get props "sourceIP") && isKnownMaliciousIP (obj_get props "sourceIP"));
    [done|].
  assert (Hports : truthy (obj_get props "port") && isUnusualPort (obj_get props "port") = true).
  { rewrite Hport. destruct port; done. }
  destruct (obj_get_strings props "content" Hstrings) as [->|[s ->]]; cbn [truthy].
  - by rewrite Hports.
  - destruct (truthy_str s); cbn [containsSuspiciousKeywords]; [|by rewrite Hports].
    destruct (existsb _ _); [done | by rewrite Hports].
Qed.

End CsvPorts.

Section FindingsExamples.
Import JS Eff AnalysisEngine.

Lemma random_in_unit_interval (n : nat) :
  (0 <= @random Demo.runtime n)%Q /\ (@random Demo.runtime n <= 1)%Q.
Proof.
  unfold Qle. cbn.
  replace (n + 10)%nat with (S (n + 9)) by lia.
  rewrite <- Pos.of_nat_succ, Zpos_P_of_succ_nat. lia.
Qed.

Lemma finding_ids_distinct_witness : NoDup ["pattern-0"; "pattern-1"].
Proof.
  apply (@finding_ids_distinct Demo.runtime Demo.networkRecords
           (AnalysisConfig.mk "pattern-analysis" "24h" None) Demo.analysisEngine0
           _ eq_refl).
Defined.

Lemma confidence_in_range_witness :
  Forall (fun r => (65 # 100 <= AnalysisResult.confidence r)%Q /\
                   (AnalysisResult.confidence r <= 1)%Q)
    (@pushed Demo.runtime "correlation-" ResultType.correlation "Correlation Found: "
       (findCorrelations Demo.networkRecords) 0 1).
Proof.
  apply (proj1 (@confidence_in_range Demo.runtime Demo.networkRecords
                  (AnalysisConfig.mk "correlation-analysis" "24h" None)
                  Demo.analysisEngine0 _ random_in_unit_interval eq_refl)).
Defined.

Lemma threatCount_counts_witness :
  threatCount
    (this (snd (@runAnalysis Demo.runtime Demo.networkRecords
                  (AnalysisConfig.mk "correlation-analysis" "24h" (Some "high"))
                  Demo.analysisEngine0)))
  = 1%nat.
Proof.
  apply (proj2 (@threatCount_counts Demo.runtime Demo.networkRecords
                  (AnalysisConfig.mk "correlation-analysis" "24h" (Some "high"))
                  Demo.analysisEngine0 _ eq_refl) (or_introl eq_refl)).
Defined.

Lemma csv_port_always_suspicious_witness :
  @isSuspiciousActivity Demo.runtime
    (VObj [("host", VStr "web"); ("port", VStr "443")]) Demo.analysisEngine0
  = (Ok true, Demo.analysisEngine0).
Proof.
  apply (@csv_port_always_suspicious Demo.runtime
           ("host,port" +:+ ReportGenerator.nl +:+ "web,443")
           [VObj [("host", VStr "web"); ("port", VStr "443")]]
           _ "443" Demo.analysisEngine0 eq_refl).
  - left.
  - reflexivity.
  - discriminate.
Defined.

End FindingsExamples.

Section Application.
Import JS Eff IntelligenceReportGenerator.
Context `{Runtime} `{ReportGenerator.Encoders}.

Lemma getAllData_run (manager : St DataSourceManager.Event DataSourceManager.Fields) :
  DataSourceManager.getAllData manager =
    (Ok (concat (OMap.values (DataSourceManager.data (this manager)))), manager).
Proof.
  unfold DataSourceManager.getAllData, bind, get_this, ret. by rewrite fold_left_app_concat.
Qed.


(** What a report that is drawn up says about the findings it is given. *)
Lemma generateReport_metadata config results data
    (reports : St ReportGenerator.Event ReportGenerator.Fields) report :
  fst (ReportGenerator.generateReport config results data reports) = Ok report ->
  Metadata.analysisResultsCount (Report.metadata report) = length results /\
  Metadata.threatLevel (Report.metadata report) =
    ReportGenerator.calculateOverallThreatLevel results /\
  ReportGenerator.content_stage (ReportConfig.type config) results data =
    Ok (Report.content report) /\
  (data = [] -> Metadata.dataSourcesCount (Report.metadata report) = 0%nat) /\
  ReportGenerator.reports
    (this (snd (ReportGenerator.generateReport config results data reports))) =
    ReportGenerator.reports (this reports) ++ [report].
Proof.
  rewrite generateReport_run.
  destruct (ReportGenerator.getUniqueDataSources data) as [sources|e] eqn:Hsources; [|done].
  destruct (ReportGenerator.content_stage _ _ _) as [content|e]; [|done].
  cbv zeta.
  destruct (ReportGenerator.encoding_stage _ _ _ _ _) as [[url|e] st1] eqn:Hstage; [|done].
  apply encoding_stage_frame in Hstage as (_ & _ & Hthis & _). cbn [this] in Hthis.
  cbn [fst snd this ReportGenerator.reports]. intros [= <-]. rewrite Hthis.
  repeat split; try done. intros ->. by injection Hsources as <-.
Qed.


(** [shutdown] leaves no source, no finding and no report, and emits no event.
    The public methods do not look at [isInitialized]: a report asked for after
    [shutdown] is still drawn up, about no findings and no data sources, at
    threat level [low], and is the only one in the history. *)
Theorem shutdown_then_report (app : App) :
  fst (shutdown app) = Ok tt /\
  getDataSources (snd (shutdown app)) = Ok [] /\
  getAnalysisResults (snd (shutdown app)) = Ok [] /\
  getReports (snd (shutdown app)) = Ok [] /\
  isInitialized (snd (shutdown app)) = false /\
  emitted (dataSourceManager (snd (shutdown app))) = emitted (dataSourceManager app) /\
  emitted (analysisEngine (snd (shutdown app))) = emitted (analysisEngine app) /\
  emitted (reportGenerator (snd (shutdown app))) = emitted (reportGenerator app) /\
  forall reportConfig report,
    fst (generateReport reportConfig (snd (shutdown app))) = Ok report ->
    Report.metadata report = Metadata.mk 0 0 "low" /\
    getReports (snd (generateReport reportConfig (snd (shutdown app)))) = Ok [report].
Proof.
  unfold shutdown, DataSourceManager.shutdown, AnalysisEngine.shutdown,
    ReportGenerator.shutdown, getDataSources, getAnalysisResults, getReports,
    generateReport, bind, get_this, set_this, enter.
  cbn [fst snd dataSourceManager analysisEngine reportGenerator isInitialized emitted
       host_draws host_ticks draws ticks this].
  do 8 (split; [done|]).
  intros reportConfig report.
  unfold AnalysisEngine.getLatestResults, bind, get_this, ret.
  cbn [fst this AnalysisEngine.results]. rewrite ?getAllData_run.
  cbn [fst this DataSourceManager.data OMap.empty OMap.values map concat].
  destruct (ReportGenerator.generateReport _ _ _ _) as [r reports] eqn:Hreport.
  cbn [fst snd reportGenerator this draws ticks emitted]. intros ->.
  pose proof (generateReport_metadata reportConfig [] [] _ report
                ltac:(rewrite Hreport; reflexivity))
    as (Hcount & Hlevel & _ & Hsources & Hreports).
  rewrite Hreport in Hreports. cbn [snd this ReportGenerator.reports Datatypes.app] in Hreports.
  split.
  - destruct (Report.metadata report) as [count sources level]. simpl in *.
    by rewrite Hcount, Hlevel, (Hsources eq_refl).
  - unfold ReportGenerator.getReports, bind, get_this, ret. cbn [fst this].
    by rewrite Hreports.
Qed.

End Application.

Section ThreatDetectionOutcome.
Import JS Eff AnalysisEngine.
Context `{Runtime}.

Lemma isSuspiciousActivity_total (item : value) (st : St Event Fields) :
  classifiable item -> exists suspicious st', isSuspiciousActivity item st = (Ok suspicious, st').
Proof.
  intros (props & -> & Hcontent & _).
  unfold isSuspiciousActivity, bind, lift, ret, Math_random. cbn [get_prop].
  destruct (truthy (obj_get props "sourceIP") && isKnownMaliciousIP (obj_get props "sourceIP"));
    [eauto|].
  destruct (truthy (obj_get props "content")) eqn:Hc.
  - destruct (Hcontent eq_refl) as [s Hs]. rewrite Hs. cbn [containsSuspiciousKeywords].
    destruct (existsb _ _); [eauto|].
    destruct (truthy (obj_get props "port") && isUnusualPort (obj_get props "port")); [eauto|].
    destruct (strict_eq_str (obj_get props "type") "malware"); eauto.
  - destruct (truthy (obj_get props "port") && isUnusualPort (obj_get props "port")); [eauto|].
    destruct (strict_eq_str (obj_get props "type") "malware"); eauto.
Qed.

Lemma or_else_printable (x : value) (fallback : string) :
  ReportGenerator.printable x = true ->
  ReportGenerator.printable (or_else x (VStr fallback)) = true.
Proof. unfold or_else. by destruct (truthy x). Qed.

Lemma finding_fields_total (item : value) :
  classifiable item ->
  (exists description, generateThreatDescription item = Ok description) /\
  (exists severity, calculateThreatSeverity item = Ok severity) /\
  (exists recommendations, generateThreatRecommendations item = Ok recommendations).
Proof.
  intros (props & -> & Hcontent & Hsource & Hdest & Hname).
  destruct (interpolate_printable _ Hsource) as [source Hs].
  destruct (interpolate_printable _ (or_else_printable _ "internal systems" Hdest))
    as [target Ht].
  destruct (interpolate_printable _ (or_else_printable _ "Unknown threat" Hname))
    as [threat Hn].
  split; [|split].
  - unfold generateThreatDescription. cbn [get_prop]. rewrite Hs, Ht, Hn.
    destruct (truthy (obj_get props "sourceIP")); [eauto|].
    destruct (truthy (obj_get props "content")) eqn:Hc.
    + destruct (Hcontent eq_refl) as [s ->]. eauto.
    + destruct (strict_eq_str (obj_get props "type") "malware"); eauto.
  - unfold calculateThreatSeverity. cbn [get_prop]. eauto.
  - unfold generateThreatRecommendations. cbn [get_prop]. rewrite Hs.
    destruct (truthy (obj_get props "sourceIP")); eauto.
Qed.

Lemma detectThreats_total (data : list value) : forall index found st,
  Forall classifiable data ->
  exists found' st', detectThreats data index found st = (Ok found', st').
Proof.
  induction data as [|item data IH]; intros index found st Hall.
  - simpl. unfold ret. eauto.
  - inversion_clear Hall as [|? ? Hitem Hall']. cbn [detectThreats]. unfold bind at 1.
    destruct (isSuspiciousActivity_total item st Hitem) as (suspicious & st1 & ->).
    destruct suspicious; [|by apply IH].
    destruct (finding_fields_total item Hitem) as ((d & Hd) & (sev & Hs) & (recs & Hr)).
    unfold bind, lift, Math_random, Date_now. rewrite Hd, Hs. cbn [draws ticks emitted this].
    rewrite Hr. by apply IH.
Qed.

Lemma detectThreats_unreadable (pre post : list value) (item : value) :
  forall index found st,
  Forall classifiable pre ->
  item = VNull \/ item = VUndefined ->
  fst (detectThreats (pre ++ item :: post) index found st) = Throw TypeError.
Proof.
  induction pre as [|item0 pre IH]; intros index found st Hall Hitem.
  - cbn [app detectThreats]. unfold bind at 1, isSuspiciousActivity, bind, lift.
    by destruct Hitem as [-> | ->].
  - inversion_clear Hall as [|? ? Hitem0 Hall']. cbn [app detectThreats]. unfold bind at 1.
    destruct (isSuspiciousActivity_total item0 st Hitem0) as (suspicious & st1 & ->).
    destruct suspicious; [|by apply IH].
    destruct (finding_fields_total item0 Hitem0) as ((d & Hd) & (sev & Hs) & (recs & Hr)).
    unfold bind, lift, Math_random, Date_now. rewrite Hd, Hs. cbn [draws ticks emitted this].
    rewrite Hr. by apply IH.
Qed.

(** Threat detection succeeds on every list of records that are objects whose
    [content], when truthy, is a string, and whose [sourceIP], [destIP] and
    [name] can be printed.  A [null] or [undefined] record that is
    reached makes the whole run fail with a [TypeError]: no finding is returned,
    the latest results stay, and [analysisError] is emitted. *)
Theorem threat_detection_outcome (data : list value) (config : AnalysisConfig.t)
    (st : St Event Fields) :
  AnalysisConfig.type config = "threat-detection" ->
  (Forall classifiable data -> exists found, fst (runAnalysis data config st) = Ok found) /\
  (forall pre item post,
     data = pre ++ item :: post ->
     Forall classifiable pre ->
     item = VNull \/ item = VUndefined ->
     fst (runAnalysis data config st) = Throw TypeError /\
     this (snd (runAnalysis data config st)) = this st /\
     emitted (snd (runAnalysis data config st)) =
       emitted st ++ [analysisStarted; analysisError TypeError]).
Proof.
  intros Htype. rewrite runAnalysis_run. unfold strategy. rewrite Htype.
  cbn [String.eqb Ascii.eqb Bool.eqb]. unfold runThreatDetection. split.
  - intros Hall. unfold bind at 1.
    destruct (detectThreats_total data 0 [] (strategy_start st) Hall) as (found & st1 & ->).
    destruct (length found =? 0)%nat; unfold generateSampleThreats, bind, Date_now, ret;
      cbn [fst]; eauto.
  - intros pre item post -> Hall Hitem. unfold bind.
    pose proof (detectThreats_unreadable pre post item 0 [] (strategy_start st) Hall Hitem)
      as Hthrow.
    destruct (detectThreats (pre ++ item :: post) 0 [] (strategy_start st))
      as [[found|e] st1] eqn:Hloop; cbn [fst] in Hthrow; [done|].
    injection Hthrow as ->.
    apply detectThreats_frame in Hloop as [Hemitted Hthis].
    unfold strategy_start in Hemitted, Hthis. cbn [emitted this] in Hemitted, Hthis.
    cbn [fst snd emitted this]. by rewrite Hemitted, Hthis, <- app_assoc.
Qed.

End ThreatDetectionOutcome.

Section ThreatDetectionOutcomeExamples.
Import JS Eff AnalysisEngine.

Lemma threat_detection_outcome_witness :
  fst (@runAnalysis Demo.runtime (Demo.quietRecords ++ VNull :: Demo.networkRecords)
         (AnalysisConfig.mk "threat-detection" "24h" None) Demo.analysisEngine0)
  = Throw TypeError.
Proof.
  apply (proj2 (@threat_detection_outcome Demo.runtime
                  (Demo.quietRecords ++ VNull :: Demo.networkRecords)
                  (AnalysisConfig.mk "threat-detection" "24h" None)
                  Demo.analysisEngine0 eq_refl)
           Demo.quietRecords VNull Demo.networkRecords eq_refl).
  - repeat constructor. eexists. split; [reflexivity|]. split; [simpl; discriminate|].
    repeat split.
  - by left.
Defined.

End ThreatDetectionOutcomeExamples.
